(** * buildarr-lidarr: the reconciliation protocol of the Lidarr plugin

    A shallow embedding of the settings groups of [buildarr_lidarr.config]
    (general, media management, metadata, tags): Python values and
    dictionaries, the remote-map tables with their codec lambdas, the
    Lidarr REST API as an explicit world with a call trace, and the
    [from_remote] / [update_remote] / [delete_remote] methods written in a
    state-and-exception monad. *)

From Stdlib Require Import String Ascii List Bool Arith ZArith Lia.
From Stdlib Require Import Permutation Sorted.
Import ListNotations.

Local Open Scope string_scope.
Local Open Scope list_scope.

(* ===================================================================== *)
(** * Python values *)
(* ===================================================================== *)

(** The values that travel through the plugin: JSON documents received
    from and sent to Lidarr, and the typed fields of the settings models
    ([SecretStr], [IPv4Address], [Set[NonEmptyStr]]).  A Python [set] is a
    list without duplicates, in the set's iteration order. *)
#[warnings="-register-all"]
Inductive value : Type :=
| VNone
| VBool (b : bool)
| VInt (z : Z)
| VStr (s : string)
| VSecret (s : string)
| VIPv4 (s : string)
| VSet (l : list string)
| VList (l : list value)
| VDict (d : list (string * value)).

(** A JSON object / Python [dict], in insertion order. *)
Definition dict := list (string * value).

(** Settings objects are records of named fields. *)
Definition obj := list (string * value).

(** Exceptions raised by the plugin and its collaborators. *)
Inductive exn : Type :=
| KeyError (key : string)
| AttributeError (attr : string)
| TypeError (msg : string)
| RuntimeError (msg : string)
| MissingRemoteField (name : string)
| LidarrAPIError (msg : string) (status_code : Z)
| ValueError (msg : string).

Inductive result (A : Type) : Type :=
| Ok (a : A)
| Err (e : exn).
Arguments Ok {A} a.
Arguments Err {A} e.

(* --------------------------------------------------------------------- *)
(** ** Strings: the [str] methods used by the codec lambdas *)
(* --------------------------------------------------------------------- *)

Module PyStr.

(** A Python [str] is a sequence of Unicode characters; a [string] here is
    its UTF-8 encoding, one [ascii] per byte.  A comma and the ASCII
    whitespace are one byte each and occur in no longer encoding, and the
    order of the encodings is the order of the strings.

    [str.isspace] on a character of one byte: U+0009 to U+000D, U+001C to
    U+001F and the space. *)
Definition is_space (c : ascii) : bool :=
  let n := nat_of_ascii c in
  (((9 <=? n) && (n <=? 13)) || ((28 <=? n) && (n <=? 32)))%nat.

(** ... of two bytes: U+0085 (C2 85) and U+00A0 (C2 A0). *)
Definition is_space2 (a b : ascii) : bool :=
  let x := nat_of_ascii a in
  let y := nat_of_ascii b in
  ((x =? 194) && ((y =? 133) || (y =? 160)))%nat.

(** ... of three bytes: U+1680 (E1 9A 80), U+2000 to U+200A (E2 80 80 to
    E2 80 8A), U+2028, U+2029 and U+202F (E2 80 A8, A9 and AF), U+205F
    (E2 81 9F) and U+3000 (E3 80 80). *)
Definition is_space3 (a b c : ascii) : bool :=
  let x := nat_of_ascii a in
  let y := nat_of_ascii b in
  let z := nat_of_ascii c in
  (((x =? 225) && (y =? 154) && (z =? 128))
   || ((x =? 226) && (y =? 128)
       && (((128 <=? z) && (z <=? 138)) || (z =? 168) || (z =? 169) || (z =? 175)))
   || ((x =? 226) && (y =? 129) && (z =? 159))
   || ((x =? 227) && (y =? 128) && (z =? 128)))%nat.


(** [s.lstrip()] *)
Fixpoint lstrip (s : string) : string :=
  match s with
  | EmptyString => EmptyString
  | String a r =>
      if is_space a then lstrip r
      else match r with
           | EmptyString => s
           | String b r2 =>
               if is_space2 a b then lstrip r2
               else match r2 with
                    | EmptyString => s
                    | String c r3 => if is_space3 a b c then lstrip r3 else s
                    end
           end
  end.

(** The string is one whitespace character. *)
Definition space_char (s : string) : bool :=
  match s with
  | String a EmptyString => is_space a
  | String a (String b EmptyString) => is_space2 a b
  | String a (String b (String c EmptyString)) => is_space3 a b c
  | _ => false
  end.

(** [s.rstrip()]: the rest is stripped first; what is left of it, behind
    [a], is empty or ends in a character that is no whitespace, so [a]
    goes only when it starts a whitespace character that ends the
    string. *)
Fixpoint rstrip (s : string) : string :=
  match s with
  | EmptyString => EmptyString
  | String a s' =>
      let r := rstrip s' in
      if space_char (String a r) then EmptyString else String a r
  end.

(** [s.strip()] *)
Definition strip (s : string) : string := rstrip (lstrip s).

(** [s.split(c)] for a one-character separator. *)
Fixpoint split (c : ascii) (s : string) : list string :=
  match s with
  | EmptyString => [EmptyString]
  | String a s' =>
      if Ascii.eqb a c then EmptyString :: split c s'
      else match split c s' with
           | [] => [String a EmptyString]
           | h :: t => String a h :: t
           end
  end.

(** [s.replace(a, b)] for two characters of one byte. *)
Fixpoint replace (a b : ascii) (s : string) : string :=
  match s with
  | EmptyString => EmptyString
  | String c s' => String (if Ascii.eqb c a then b else c) (replace a b s')
  end.

(** [sep.join(l)] *)
Definition join (sep : string) (l : list string) : string := String.concat sep l.


(** [sorted(l)] on strings: the ascending rearrangement of [l]. *)
Fixpoint insert (x : string) (l : list string) : list string :=
  match l with
  | [] => [x]
  | y :: l' => if String.leb x y then x :: l else y :: insert x l'
  end.

Fixpoint sorted (l : list string) : list string :=
  match l with
  | [] => []
  | x :: l' => insert x (sorted l')
  end.

Definition mem (x : string) (l : list string) : bool :=
  existsb (String.eqb x) l.

(** [set(l)]: duplicates removed. *)
Fixpoint dedup (l : list string) : list string :=
  match l with
  | [] => []
  | x :: l' => if mem x l' then dedup l' else x :: dedup l'
  end.

Definition subset (a b : list string) : bool :=
  forallb (fun x => mem x b) a.

(** Equality of two sets. *)
Definition set_eqb (a b : list string) : bool := subset a b && subset b a.

End PyStr.

(* --------------------------------------------------------------------- *)
(** ** Truthiness and equality *)
(* --------------------------------------------------------------------- *)

(** [bool(v)] *)
Definition truthy (v : value) : bool :=
  match v with
  | VNone => false
  | VBool b => b
  | VInt z => negb (Z.eqb z 0)
  | VStr s => negb (String.eqb s EmptyString)
  | VSecret s => negb (String.eqb s EmptyString)
  | VIPv4 _ => true
  | VSet l => match l with [] => false | _ => true end
  | VList l => match l with [] => false | _ => true end
  | VDict d => match d with [] => false | _ => true end
  end.

(** [a or b] *)
Definition py_or (a b : value) : value := if truthy a then a else b.

(** [a == b].  Sets compare by membership, everything else
    structurally. *)
Fixpoint py_eq (a b : value) {struct a} : bool :=
  match a, b with
  | VNone, VNone => true
  | VBool x, VBool y => Bool.eqb x y
  | VInt x, VInt y => Z.eqb x y
  | VStr x, VStr y => String.eqb x y
  | VSecret x, VSecret y => String.eqb x y
  | VIPv4 x, VIPv4 y => String.eqb x y
  | VSet x, VSet y => PyStr.set_eqb x y
  | VList x, VList y =>
      (fix go (l1 l2 : list value) {struct l1} : bool :=
         match l1, l2 with
         | [], [] => true
         | v1 :: t1, v2 :: t2 => py_eq v1 v2 && go t1 t2
         | _, _ => false
         end) x y
  | VDict x, VDict y =>
      (fix go (l1 l2 : list (string * value)) {struct l1} : bool :=
         match l1, l2 with
         | [], [] => true
         | (k1, v1) :: t1, (k2, v2) :: t2 =>
             String.eqb k1 k2 && py_eq v1 v2 && go t1 t2
         | _, _ => false
         end) x y
  | _, _ => false
  end.

(* --------------------------------------------------------------------- *)
(** ** Dictionaries *)
(* --------------------------------------------------------------------- *)

Module Dict.

(** [d.get(k)] *)
Fixpoint get (k : string) (d : dict) : option value :=
  match d with
  | [] => None
  | (k', v) :: d' => if String.eqb k k' then Some v else get k d'
  end.

(** [d[k] = v]: an existing key keeps its position. *)
Fixpoint set (k : string) (v : value) (d : dict) : dict :=
  match d with
  | [] => [(k, v)]
  | (k', v') :: d' =>
      if String.eqb k k' then (k', v) :: d' else (k', v') :: set k v d'
  end.

(** [del d[k]] *)
Fixpoint remove (k : string) (d : dict) : dict :=
  match d with
  | [] => []
  | (k', v') :: d' =>
      if String.eqb k k' then remove k d' else (k', v') :: remove k d'
  end.

(** [{**a, **b}] *)
Definition merge (a b : dict) : dict :=
  fold_left (fun acc kv => set (fst kv) (snd kv) acc) b a.

Definition keys (d : dict) : list string := map fst d.

Definition mem (k : string) (d : dict) : bool :=
  match get k d with Some _ => true | None => false end.

(** [d[k]] *)
Definition index (d : dict) (k : string) : result value :=
  match get k d with
  | Some v => Ok v
  | None => Err (KeyError k)
  end.

End Dict.

(** [v[k]] on an arbitrary value. *)
Definition subscript (v : value) (k : string) : result value :=
  match v with
  | VDict d => Dict.index d k
  | _ => Err (TypeError "object is not subscriptable")
  end.

(** [getattr(o, name)] on a settings object. *)
Definition getattr (o : obj) (name : string) : result value :=
  match Dict.get name o with
  | Some v => Ok v
  | None => Err (AttributeError name)
  end.

(* ===================================================================== *)
(** * The Lidarr instance and the API client *)
(* ===================================================================== *)

(** Logging levels. *)
Inductive level : Type := DEBUG | INFO.

(** What a log line says about its subject: the change of a field from
    [old] to [new], or the marker put after a collection entry. *)
Inductive note : Type :=
| Changed (old new : value)
| Exists
| Created
| Deleted
| Unmanaged.

(** One call of the API client, or one line written to the logger.  A
    path with an identifier, as in [f"/api/v1/metadata/{id}"], is the pair
    of the collection's path and the identifier. *)
Inductive event : Type :=
| ApiGet (path : string)
| ApiPost (path : string) (body : dict)
| ApiPut (path : string) (id : value) (body : dict)
| ApiDelete (path : string) (id : value)
| Log (lvl : level) (tree : string) (index : option Z) (subject : value) (n : note).

(** The remote instance as the plugin sees it: the resources behind each
    API path, the identifier the server assigns next, the outcome the
    server has in store for each forthcoming call ([Some status] is a
    non-2xx response), and everything done so far. *)
Record world : Type := World {
  store : dict;
  next_id : Z;
  faults : list (option Z);
  trace : list event
}.

(** Computations that talk to the instance and may raise. *)
Definition M (A : Type) : Type := world -> result A * world.

Definition ret {A} (a : A) : M A := fun w => (Ok a, w).

Definition raise {A} (e : exn) : M A := fun w => (Err e, w).

Definition bind {A B} (m : M A) (f : A -> M B) : M B :=
  fun w =>
    match m w with
    | (Ok a, w') => f a w'
    | (Err e, w') => (Err e, w')
    end.

Definition lift {A} (r : result A) : M A := fun w => (r, w).

Declare Scope py_scope.
Delimit Scope py_scope with py.
Notation "x <- m ;; k" := (bind m (fun x => k))
  (at level 61, m at next level, right associativity) : py_scope.
Notation "' p <- m ;; k" := (bind m (fun x => let 'p := x in k))
  (at level 61, p pattern, m at next level, right associativity) : py_scope.
Notation "m ;; k" := (bind m (fun _ => k))
  (at level 61, right associativity) : py_scope.
Local Open Scope py_scope.

(** Exceptions inside pure code (the codec lambdas). *)
Definition rbind {A B} (r : result A) (f : A -> result B) : result B :=
  match r with
  | Ok a => f a
  | Err e => Err e
  end.

Definition emit (e : event) : M unit :=
  fun w => (Ok tt, World (store w) (next_id w) (faults w) (trace w ++ [e])).

Definition log (lvl : level) (tree : string) (index : option Z)
    (subject : value) (n : note) : M unit :=
  emit (Log lvl tree index subject n).

(** [any(l)] over a list that has already been built. *)
Definition py_any (l : list bool) : bool := existsb (fun b => b) l.

Module Api.

(** The outcome of the next call: consumes one entry of [faults]. *)
Definition respond : M unit :=
  fun w =>
    match faults w with
    | Some status :: rest =>
        (Err (LidarrAPIError "Unexpected response from Lidarr" status),
         World (store w) (next_id w) rest (trace w))
    | None :: rest => (Ok tt, World (store w) (next_id w) rest (trace w))
    | [] => (Ok tt, w)
    end.

Definition write (path : string) (v : value) : M unit :=
  fun w => (Ok tt, World (Dict.set path v (store w)) (next_id w) (faults w) (trace w)).

Definition fresh_id : M Z :=
  fun w => (Ok (next_id w), World (store w) (next_id w + 1) (faults w) (trace w)).

Definition read (path : string) : M value :=
  fun w =>
    match Dict.get path (store w) with
    | Some v => (Ok v, w)
    | None => (Err (LidarrAPIError "Not Found" 404), w)
    end.

Definition has_id (id : value) (v : value) : bool :=
  match v with
  | VDict d => match Dict.get "id" d with Some i => py_eq i id | None => false end
  | _ => false
  end.

(** Modelled from the spec: [api_get] of the [api] module, which is not
    among the sources.  [GET path -> JSON value], raising the typed
    API error on a non-2xx response. *)
Definition api_get (path : string) : M value :=
  emit (ApiGet path) ;;
  respond ;;
  read path.

(** Modelled from the spec: [api_post].  [POST path, body] creates a
    resource in the collection at [path]; the server assigns its
    identifier and answers with the created resource. *)
Definition api_post (path : string) (body : dict) : M value :=
  emit (ApiPost path body) ;;
  respond ;;
  coll <- read path ;;
  match coll with
  | VList l =>
      i <- fresh_id ;;
      let created := VDict (Dict.set "id" (VInt i) body) in
      write path (VList (l ++ [created])) ;;
      ret created
  | _ => raise (LidarrAPIError "Method Not Allowed" 405)
  end.

(** Modelled from the spec: [api_put].  [PUT path/id, body] replaces the
    whole resource object. *)
Definition api_put (path : string) (id : value) (body : dict) : M value :=
  emit (ApiPut path id body) ;;
  respond ;;
  res <- read path ;;
  match res with
  | VList l =>
      write path (VList (map (fun r => if has_id id r then VDict body else r) l)) ;;
      ret (VDict body)
  | _ => write path (VDict body) ;; ret (VDict body)
  end.

(** Modelled from the spec: [api_delete].  [DELETE path/id]. *)
Definition api_delete (path : string) (id : value) : M unit :=
  emit (ApiDelete path id) ;;
  respond ;;
  coll <- read path ;;
  match coll with
  | VList l => write path (VList (filter (fun r => negb (has_id id r)) l))
  | _ => raise (LidarrAPIError "Method Not Allowed" 405)
  end.

End Api.
Import Api.

(** Iterating over a JSON value that must be a list. *)
Definition as_list (v : value) : result (list value) :=
  match v with
  | VList l => Ok l
  | _ => Err (TypeError "object is not iterable")
  end.

(** [enumerate(l)] *)
Fixpoint enumerate_from {A} (i : Z) (l : list A) : list (Z * A) :=
  match l with
  | [] => []
  | x :: l' => (i, x) :: enumerate_from (i + 1) l'
  end.

Definition enumerate {A} (l : list A) : list (Z * A) := enumerate_from 0 l.

(* ===================================================================== *)
(** * Remote maps and the attribute codec *)
(* ===================================================================== *)

(** [RemoteMapEntry]: [(local_name, remote_name, options)] with the options
    the tables of this plugin use. *)
Record RemoteMapEntry : Type := Entry {
  local_name : string;
  remote_name : string;
  decoder : option (value -> result value);
  encoder : option (value -> result value);
  root_encoder : option (obj -> result value);
  optional : bool
}.

(** [(local, remote, {})] *)
Definition plain (l r : string) : RemoteMapEntry :=
  Entry l r None None None false.

(** [(local, remote, {"decoder": d, "encoder": e})] *)
Definition coded (l r : string) (d e : value -> result value) : RemoteMapEntry :=
  Entry l r (Some d) (Some e) None false.

(** Declared type of a model field.  [Optional[SecretStr]],
    [Set[NonEmptyStr]] and [Union[Literal["*"], IPv4Address]] convert what
    they are given; the others are [bool], [Port], [int] with the bounds
    of its [Field] (also [NonNegativeInt]), [NonEmptyStr], [Optional[str]],
    the enumerations, whose members the model writes as their values, and
    [ChmodFolder], the enumeration with a [validate] of its own. *)
Inductive ftype : Type :=
| TAny
| TSecret
| TStrSet
| TBindAddress
| TBool
| TPort
| TInt (ge : Z) (le : option Z)
| TNonEmptyStr
| TOptStr
| TEnum
| TChmodFolder.

Record field : Type := Field {
  fname : string;
  fty : ftype;
  fdefault : value
}.

(** A settings class: its fields with their defaults, and its remote map. *)
Record settings_class : Type := Class {
  fields : list field;
  remote_map : list RemoteMapEntry
}.

Module Codec.

(** [v.get_secret_value()] *)
Definition get_secret_value (v : value) : result value :=
  match v with
  | VSecret s => Ok (VStr s)
  | _ => Err (AttributeError "get_secret_value")
  end.

(** [str(v)] for the values a [bind_address] can hold. *)
Definition py_str (v : value) : result value :=
  match v with
  | VStr s => Ok (VStr s)
  | VIPv4 s => Ok (VStr s)
  | VNone => Ok (VStr "None")
  | VBool true => Ok (VStr "True")
  | VBool false => Ok (VStr "False")
  | _ => Err (TypeError "str() of this value is not modelled")
  end.

(** [lambda v: v or None] *)
Definition or_none (v : value) : result value := Ok (py_or v VNone).

(** [lambda v: v or ''] *)
Definition or_empty (v : value) : result value := Ok (py_or v (VStr EmptyString)).

(** [lambda v: v.get_secret_value() if v else ''] *)
Definition secret_or_empty (v : value) : result value :=
  if truthy v then get_secret_value v else Ok (VStr EmptyString).

(** [lambda self: self.password.get_secret_value()] *)
Definition password_of (self : obj) : result value :=
  rbind (getattr self "password") get_secret_value.

(** [lambda v: str(v)] *)
Definition to_str (v : value) : result value := py_str v.

Definition comma : ascii := ","%char.

(** [lambda v: (set(addr.strip() for addr in v.split(","))
                if v and v.strip() else [])] *)
Definition addresses_decoder (v : value) : result value :=
  if truthy v then
    match v with
    | VStr s =>
        if truthy (VStr (PyStr.strip s))
        then Ok (VSet (PyStr.dedup (map PyStr.strip (PyStr.split comma s))))
        else Ok (VList [])
    | _ => Err (AttributeError "strip")
    end
  else Ok (VList []).

Fixpoint strings_of (l : list value) : result (list string) :=
  match l with
  | [] => Ok []
  | VStr s :: l' => rbind (strings_of l') (fun r => Ok (s :: r))
  | _ => Err (TypeError "sequence item: expected str instance")
  end.

(** [lambda v: ','.join(sorted(v)) if v else ''] *)
Definition addresses_encoder (v : value) : result value :=
  if truthy v then
    match v with
    | VSet l => Ok (VStr (PyStr.join "," (PyStr.sorted l)))
    | VList l =>
        rbind (strings_of l) (fun ss => Ok (VStr (PyStr.join "," (PyStr.sorted ss))))
    | _ => Err (TypeError "sorted() of this value is not modelled")
    end
  else Ok (VStr EmptyString).

(** The decoder of an entry; the identity when the table names none. *)
Definition decode_value (e : RemoteMapEntry) (v : value) : result value :=
  match decoder e with
  | Some f => f v
  | None => Ok v
  end.

(** The remote value of an entry for the local object [self]:
    [root_encoder(self)] when the entry has one, else the encoder (the
    identity when the table names none) on the field's value. *)
Definition encode_entry (e : RemoteMapEntry) (self : obj) : result value :=
  match root_encoder e with
  | Some f => f self
  | None =>
      rbind (getattr self (local_name e)) (fun v =>
        match encoder e with
        | Some f => f v
        | None => Ok v
        end)
  end.


Fixpoint decode_loop (m : list RemoteMapEntry) (remote_attrs : dict)
    (local_attrs : dict) : result dict :=
  match m with
  | [] => Ok local_attrs
  | e :: m' =>
      match Dict.get (remote_name e) remote_attrs with
      | Some v =>
          rbind (decode_value e v) (fun lv =>
            decode_loop m' remote_attrs (Dict.set (local_name e) lv local_attrs))
      | None =>
          if optional e then decode_loop m' remote_attrs local_attrs
          else Err (MissingRemoteField (remote_name e))
      end
  end.

(** Modelled from the spec: [get_local_attrs] of the configuration base
    class, which is not among the sources.  [decode(mapping_table,
    remote_object)]: for each entry read [remote_object[remote_name]];
    if absent and [optional] is set, omit it (the caller's default
    applies), else fail with [MissingRemoteField]; apply the decoder;
    assign to [local_fields[local_name]]. *)
Definition get_local_attrs (m : list RemoteMapEntry) (remote_attrs : dict)
    : result dict :=
  decode_loop m remote_attrs [].

Fixpoint encode_loop (m : list RemoteMapEntry) (self : obj) (acc : dict)
    : result dict :=
  match m with
  | [] => Ok acc
  | e :: m' =>
      rbind (encode_entry e self) (fun rv =>
        encode_loop m' self (Dict.set (remote_name e) rv acc))
  end.

(** Modelled from the spec: [encode(mapping_table, local_object)], the
    map [remote_name -> value]. *)
Definition encode (m : list RemoteMapEntry) (self : obj) : result dict :=
  encode_loop m self [].

End Codec.

(* ===================================================================== *)
(** * config/media_management.py: [ChmodFolder] *)
(* ===================================================================== *)

Module ChmodFolder.

(** The members, each name with its value; a member is written as its
    value. *)
Definition members : list (string * string) :=
  [ ("drwxr_xr_x", "755");
    ("drwxrwxr_x", "775");
    ("drwxrwx___", "770");
    ("drwxr_x___", "750");
    ("drwxrwxrwx", "777") ].

Definition invalid : exn := ValueError "Invalid ChmodFolder name or value".

(** [cls(x)]: the member whose value is [x], and [ValueError] when there
    is none. *)
Definition of_value (x : value) : result value :=
  match x with
  | VStr s =>
      if existsb (fun m => String.eqb (snd m) s) members then Ok (VStr s)
      else Err (ValueError "is not a valid ChmodFolder")
  | _ => Err (ValueError "is not a valid ChmodFolder")
  end.

(** [cls[name]]: the member called [name], and [KeyError] when there is
    none. *)
Definition of_name (name : string) : result value :=
  match find (fun m => String.eqb (fst m) name) members with
  | Some m => Ok (VStr (snd m))
  | None => Err (KeyError name)
  end.

Definition oct_digit (n : N) : ascii := ascii_of_N (48 + n).

Fixpoint oct_digits (fuel : nat) (n : N) (acc : string) : string :=
  match fuel with
  | O => acc
  | S fuel' =>
      let acc' := String (oct_digit (n mod 8)) acc in
      if (n / 8 =? 0)%N then acc' else oct_digits fuel' (n / 8) acc'
  end.

(** [oct(v)[2:]]: [oct] writes [0o] before the digits, and a minus sign
    before that. *)
Definition oct_tail (z : Z) : string :=
  let digits := oct_digits (S (N.to_nat (N.log2 (Z.abs_N z)))) (Z.abs_N z) EmptyString in
  if (z <? 0)%Z then String "o" digits else digits.

(** [v.replace("-", "_")]: only a string has the method. *)
Definition replace (v : value) : result string :=
  match v with
  | VStr s => Ok (PyStr.replace "-" "_" s)
  | _ => Err (AttributeError "replace")
  end.

(** [ChmodFolder.validate]: the inner [except] catches [TypeError] and
    [KeyError] only. *)
Definition validate (v : value) : result value :=
  let arg := match v with
             | VInt z => VStr (oct_tail z)
             | VBool b => VStr (oct_tail (if b then 1 else 0))
             | _ => v
             end in
  match of_value arg with
  | Err (ValueError _) =>
      match rbind (replace v) of_name with
      | Err (TypeError _) | Err (KeyError _) => Err invalid
      | r => r
      end
  | r => r
  end.

End ChmodFolder.

(** What a field of the given declared type stores when it is given [v]:
    a string becomes a secret, a list a set, an address other than [*] an
    [IPv4Address], and a [ChmodFolder] goes through [validate].  A value
    of the declared type is stored as it is.  What the declared type
    refuses is not modelled: such a value is stored as given. *)
Definition coerce (t : ftype) (v : value) : value :=
  match t, v with
  | TSecret, VStr s => VSecret s
  | TStrSet, VList l =>
      match Codec.strings_of l with
      | Ok ss => VSet (PyStr.dedup ss)
      | Err _ => v
      end
  | TBindAddress, VStr s => if String.eqb s "*" then VStr s else VIPv4 s
  | TChmodFolder, _ =>
      match ChmodFolder.validate v with
      | Ok m => m
      | Err _ => v
      end
  | _, _ => v
  end.

(** The constructor of a settings class on keyword arguments [attrs]:
    every declared field, converted from [attrs] when it is given there,
    and the field's declared default otherwise. *)
Definition construct (c : settings_class) (attrs : dict) : obj :=
  map (fun f =>
         (fname f,
          match Dict.get (fname f) attrs with
          | Some v => coerce (fty f) v
          | None => fdefault f
          end))
      (fields c).

(* ===================================================================== *)
(** * The change-set resolver *)
(* ===================================================================== *)

Module Resolver.

Fixpoint resolve_loop (tree : string) (self remote : obj)
    (m : list RemoteMapEntry) (set_unchanged : bool)
    (updated : bool) (remote_attrs : dict) : M (bool * dict) :=
  match m with
  | [] => ret (updated, remote_attrs)
  | e :: m' =>
      local_value <- lift (getattr self (local_name e)) ;;
      remote_value <- lift (getattr remote (local_name e)) ;;
      if negb (py_eq local_value remote_value) then
        log INFO (tree ++ "." ++ local_name e) None (VStr (local_name e))
            (Changed remote_value local_value) ;;
        encoded <- lift (Codec.encode_entry e self) ;;
        resolve_loop tree self remote m' set_unchanged true
          (Dict.set (remote_name e) encoded remote_attrs)
      else if set_unchanged then
        encoded <- lift (Codec.encode_entry e self) ;;
        resolve_loop tree self remote m' set_unchanged updated
          (Dict.set (remote_name e) encoded remote_attrs)
      else
        resolve_loop tree self remote m' set_unchanged updated remote_attrs
  end.

(** Modelled from the spec: [get_update_remote_attrs] of the
    configuration base class, which is not among the sources.
    [resolve(tree_path, local, remote, mapping_table, set_unchanged)]:
    for every entry compare the local and the remote value; if they
    differ mark the result changed, log the change and include the
    encoded new value; if they are equal include the encoded value when
    [set_unchanged] is true and omit it otherwise.  The contract does not
    depend on [check_unmanaged], which the callers pass along. *)
Definition get_update_remote_attrs (self : obj) (tree : string) (remote : obj)
    (m : list RemoteMapEntry) (check_unmanaged set_unchanged : bool)
    : M (bool * dict) :=
  resolve_loop tree self remote m set_unchanged false [].

End Resolver.
Import Resolver.

(** Reading a JSON value as a mapping. *)
Definition as_dict (v : value) : result dict :=
  match v with
  | VDict d => Ok d
  | _ => Err (TypeError "object is not a mapping")
  end.

(* ===================================================================== *)
(** * config/general.py *)
(* ===================================================================== *)

Module General.

Definition HostGeneralSettings : settings_class :=
  Class
    [ Field "bind_address" TBindAddress (VStr "*");
      Field "port" TPort (VInt 8989);
      Field "ssl_port" TPort (VInt 9898);
      Field "use_ssl" TBool (VBool false);
      Field "url_base" TOptStr VNone;
      Field "instance_name" TNonEmptyStr (VStr "Lidarr") ]
    [ Entry "bind_address" "bindAddress" None (Some Codec.to_str) None false;
      plain "port" "port";
      plain "ssl_port" "sslPort";
      plain "use_ssl" "enableSsl";
      coded "url_base" "urlBase" Codec.or_none Codec.or_empty;
      plain "instance_name" "instanceName" ].

Definition SecurityGeneralSettings : settings_class :=
  Class
    [ Field "authentication" TEnum (VStr "none");
      Field "username" TOptStr VNone;
      Field "password" TSecret VNone;
      Field "password_confirmation" TSecret VNone;
      Field "certificate_validation" TEnum (VStr "enabled") ]
    [ plain "authentication" "authenticationMethod";
      Entry "username" "username"
        (Some Codec.or_none) (Some Codec.or_empty) None true;
      Entry "password" "password"
        (Some Codec.or_none) (Some Codec.secret_or_empty) None true;
      Entry "password_confirmation" "passwordConfirmation"
        (Some Codec.or_none) None (Some Codec.password_of) true;
      plain "certificate_validation" "certificateValidation" ].

Definition ProxyGeneralSettings : settings_class :=
  Class
    [ Field "enable" TBool (VBool false);
      Field "proxy_type" TEnum (VStr "http");
      Field "hostname" TOptStr VNone;
      Field "port" TPort (VInt 8080);
      Field "username" TOptStr VNone;
      Field "password" TSecret VNone;
      Field "ignored_addresses" TStrSet (VSet []);
      Field "bypass_proxy_for_local_addresses" TBool (VBool true) ]
    [ plain "enable" "proxyEnabled";
      plain "proxy_type" "proxyType";
      coded "hostname" "proxyHostname" Codec.or_none Codec.or_empty;
      plain "port" "proxyPort";
      coded "username" "proxyUsername" Codec.or_none Codec.or_empty;
      coded "password" "proxyPassword" Codec.or_none Codec.secret_or_empty;
      coded "ignored_addresses" "proxyBypassFilter"
        Codec.addresses_decoder Codec.addresses_encoder;
      plain "bypass_proxy_for_local_addresses" "proxyBypassLocalAddresses" ].

Definition LoggingGeneralSettings : settings_class :=
  Class
    [ Field "log_level" TEnum (VStr "info") ]
    [ plain "log_level" "logLevel" ].

Definition AnalyticsGeneralSettings : settings_class :=
  Class
    [ Field "send_anonymous_usage_data" TBool (VBool true) ]
    [ plain "send_anonymous_usage_data" "analyticsEnabled" ].

Definition UpdatesGeneralSettings : settings_class :=
  Class
    [ Field "branch" TNonEmptyStr (VStr "main");
      Field "automatic" TBool (VBool false);
      Field "mechanism" TEnum (VStr "docker");
      Field "script_path" TOptStr VNone ]
    [ plain "branch" "branch";
      plain "automatic" "updateAutomatically";
      plain "mechanism" "updateMechanism";
      coded "script_path" "updateScriptPath" Codec.or_none Codec.or_empty ].

Definition BackupGeneralSettings : settings_class :=
  Class
    [ Field "folder" TNonEmptyStr (VStr "Backups");
      Field "interval" (TInt 1 (Some 7%Z)) (VInt 7);
      Field "retention" (TInt 1 (Some 90%Z)) (VInt 28) ]
    [ plain "folder" "backupFolder";
      plain "interval" "backupInterval";
      plain "retention" "backupRetention" ].

(** [GeneralSettings._from_remote] *)
Definition _from_remote (cls : settings_class) (remote_attrs : dict) : result obj :=
  rbind (Codec.get_local_attrs (remote_map cls) remote_attrs) (fun attrs =>
    Ok (construct cls attrs)).

(** [GeneralSettings._update_remote_attrs] *)
Definition _update_remote_attrs (cls : settings_class) (self : obj)
    (tree : string) (remote : obj) (check_unmanaged : bool) : M (bool * dict) :=
  get_update_remote_attrs self tree remote (remote_map cls) check_unmanaged true.

(** [LidarrGeneralSettingsConfig] *)
Record LidarrGeneralSettingsConfig : Type := Config {
  host : obj;
  security : obj;
  proxy : obj;
  logging : obj;
  analytics : obj;
  updates : obj;
  backup : obj
}.

Definition config_host : string := "/api/v1/config/host".

(** [LidarrGeneralSettingsConfig.from_remote] *)
Definition from_remote : M LidarrGeneralSettingsConfig :=
  got <- api_get config_host ;;
  settings <- lift (as_dict got) ;;
  h <- lift (_from_remote HostGeneralSettings settings) ;;
  s <- lift (_from_remote SecurityGeneralSettings settings) ;;
  p <- lift (_from_remote ProxyGeneralSettings settings) ;;
  l <- lift (_from_remote LoggingGeneralSettings settings) ;;
  a <- lift (_from_remote AnalyticsGeneralSettings settings) ;;
  u <- lift (_from_remote UpdatesGeneralSettings settings) ;;
  b <- lift (_from_remote BackupGeneralSettings settings) ;;
  ret (Config h s p l a u b).

(** The body of the PUT:
    [{**remote_config, **host_attrs, ..., **backup_attrs}]. *)
Definition put_body (remote_config host_attrs security_attrs proxy_attrs
    logging_attrs analytics_attrs updates_attrs backup_attrs : dict) : dict :=
  Dict.merge (Dict.merge (Dict.merge (Dict.merge (Dict.merge (Dict.merge
    (Dict.merge remote_config host_attrs) security_attrs) proxy_attrs)
    logging_attrs) analytics_attrs) updates_attrs) backup_attrs.

(** [LidarrGeneralSettingsConfig.update_remote] *)
Definition update_remote (self : LidarrGeneralSettingsConfig) (tree : string)
    (remote : LidarrGeneralSettingsConfig) (check_unmanaged : bool) : M bool :=
  '(host_updated, host_attrs) <-
    _update_remote_attrs HostGeneralSettings (host self)
      (tree ++ ".host") (host remote) check_unmanaged ;;
  '(security_updated, security_attrs) <-
    _update_remote_attrs SecurityGeneralSettings (security self)
      (tree ++ ".security") (security remote) check_unmanaged ;;
  '(proxy_updated, proxy_attrs) <-
    _update_remote_attrs ProxyGeneralSettings (proxy self)
      (tree ++ ".proxy") (proxy remote) check_unmanaged ;;
  '(logging_updated, logging_attrs) <-
    _update_remote_attrs LoggingGeneralSettings (logging self)
      (tree ++ ".logging") (logging remote) check_unmanaged ;;
  '(analytics_updated, analytics_attrs) <-
    _update_remote_attrs AnalyticsGeneralSettings (analytics self)
      (tree ++ ".analytics") (analytics remote) check_unmanaged ;;
  '(updates_updated, updates_attrs) <-
    _update_remote_attrs UpdatesGeneralSettings (updates self)
      (tree ++ ".updates") (updates remote) check_unmanaged ;;
  '(backup_updated, backup_attrs) <-
    _update_remote_attrs BackupGeneralSettings (backup self)
      (tree ++ ".backup") (backup remote) check_unmanaged ;;
  if py_any [host_updated; security_updated; proxy_updated; logging_updated;
             analytics_updated; updates_updated; backup_updated]
  then
    got <- api_get config_host ;;
    id <- lift (subscript got "id") ;;
    remote_config <- lift (as_dict got) ;;
    api_put config_host id
      (put_body remote_config host_attrs security_attrs proxy_attrs
         logging_attrs analytics_attrs updates_attrs backup_attrs) ;;
    ret true
  else ret false.

End General.

(* ===================================================================== *)
(** * config/tags.py *)
(* ===================================================================== *)

Module Tags.

Definition tag_path : string := "/api/v1/tag".

(** [{tag["label"]: tag["id"] for tag in tags}] *)
Fixpoint index_by (key : string) (items : list value) (acc : dict) : result dict :=
  match items with
  | [] => Ok acc
  | item :: rest =>
      rbind (subscript item key) (fun k =>
      rbind (subscript item "id") (fun i =>
        match k with
        | VStr name => index_by key rest (Dict.set name i acc)
        | _ => Err (TypeError "unmodelled dictionary key")
        end))
  end.

Fixpoint labels (items : list value) : result (list string) :=
  match items with
  | [] => Ok []
  | item :: rest =>
      rbind (subscript item "label") (fun k =>
        match k with
        | VStr name => rbind (labels rest) (fun r => Ok (name :: r))
        | _ => Err (TypeError "unmodelled set element")
        end)
  end.

(** [LidarrTagsSettingsConfig.from_remote]: the [definitions] read from
    the instance. *)
Definition from_remote : M (list string) :=
  got <- api_get tag_path ;;
  items <- lift (as_list got) ;;
  ls <- lift (labels items) ;;
  ret (PyStr.dedup ls).

(** One turn of the loop over [enumerate(sorted(self.definitions))];
    [changed] is the loop's running flag. *)
Fixpoint create_missing (tree : string) (current_tags : dict)
    (todo : list (Z * string)) (changed : bool) : M bool :=
  match todo with
  | [] => ret changed
  | (i, tag) :: rest =>
      if Dict.mem tag current_tags then
        log DEBUG (tree ++ ".definitions") (Some i) (VStr tag) Exists ;;
        create_missing tree current_tags rest changed
      else
        log INFO (tree ++ ".definitions") (Some i) (VStr tag) Created ;;
        api_post tag_path [("label", VStr tag)] ;;
        create_missing tree current_tags rest true
  end.

(** [LidarrTagsSettingsConfig.update_remote]; [definitions] is the set
    in its iteration order. *)
Definition update_remote (definitions : list string) (tree : string)
    (remote : list string) (check_unmanaged : bool) : M bool :=
  got <- api_get tag_path ;;
  items <- lift (as_list got) ;;
  current_tags <- lift (index_by "label" items []) ;;
  if truthy (VSet definitions) then
    create_missing tree current_tags (enumerate (PyStr.sorted definitions)) false
  else ret false.

End Tags.

(* ===================================================================== *)
(** * config/media_management.py *)
(* ===================================================================== *)

Module MediaManagement.

Definition _naming_remote_map : list RemoteMapEntry :=
  [ plain "rename_tracks" "renameTracks" ].

Definition _mediamanagement_remote_map : list RemoteMapEntry :=
  [ plain "delete_empty_folders" "deleteEmptyFolders";
    plain "skip_free_space_check" "skipFreeSpaceCheckWhenImporting";
    plain "minimum_free_space" "minimumFreeSpaceWhenImporting";
    plain "use_hardlinks" "copyUsingHardlinks";
    plain "import_extra_files" "importExtraFiles";
    plain "propers_and_repacks" "downloadPropersAndRepacks";
    plain "rescan_artist_folder_after_refresh" "rescanAfterRefresh";
    plain "change_file_date" "fileDate";
    coded "recycling_bin" "recycleBin" Codec.or_none Codec.or_empty;
    plain "recycling_bin_cleanup" "recycleBinCleanupDays";
    plain "set_permissions" "setPermissionsLinux";
    plain "chmod_folder" "chmodFolder";
    coded "chown_group" "chownGroup" Codec.or_none Codec.or_empty ].

(** The scalar fields of [LidarrMediaManagementSettingsConfig]. *)
Definition settings : settings_class :=
  Class
    [ Field "rename_tracks" TBool (VBool false);
      Field "replace_illegal_characters" TBool (VBool true);
      Field "delete_empty_folders" TBool (VBool false);
      Field "skip_free_space_check" TBool (VBool false);
      Field "minimum_free_space" (TInt 100 None) (VInt 100);
      Field "use_hardlinks" TBool (VBool true);
      Field "import_extra_files" TBool (VBool false);
      Field "propers_and_repacks" TEnum (VStr "doNotPrefer");
      Field "analyze_video_files" TBool (VBool true);
      Field "rescan_artist_folder_after_refresh" TEnum (VStr "always");
      Field "change_file_date" TEnum (VStr "none");
      Field "recycling_bin" TOptStr VNone;
      Field "recycling_bin_cleanup" (TInt 0 None) (VInt 7);
      Field "set_permissions" TBool (VBool false);
      Field "chmod_folder" TChmodFolder (VStr "755");
      Field "chown_group" TOptStr VNone ]
    (_naming_remote_map ++ _mediamanagement_remote_map).

(** [LidarrMediaManagementSettingsConfig]: the scalar fields, the set
    [root_folders] in its iteration order, and
    [delete_unmanaged_root_folders]. *)
Record LidarrMediaManagementSettingsConfig : Type := Config {
  attrs : obj;
  root_folders : list string;
  delete_unmanaged_root_folders : bool
}.

Definition naming_path : string := "/api/v1/config/naming".
Definition mediamanagement_path : string := "/api/v1/config/mediamanagement".
Definition rootfolder_path : string := "/api/v1/rootfolder".

Fixpoint paths (items : list value) : result (list string) :=
  match items with
  | [] => Ok []
  | item :: rest =>
      rbind (subscript item "path") (fun k =>
        match k with
        | VStr name => rbind (paths rest) (fun r => Ok (name :: r))
        | _ => Err (TypeError "unmodelled set element")
        end)
  end.

(** [LidarrMediaManagementSettingsConfig.from_remote] *)
Definition from_remote : M LidarrMediaManagementSettingsConfig :=
  naming_got <- api_get naming_path ;;
  naming <- lift (as_dict naming_got) ;;
  naming_attrs <- lift (Codec.get_local_attrs _naming_remote_map naming) ;;
  mm_got <- api_get mediamanagement_path ;;
  mm <- lift (as_dict mm_got) ;;
  mm_attrs <- lift (Codec.get_local_attrs _mediamanagement_remote_map mm) ;;
  rf_got <- api_get rootfolder_path ;;
  rfs <- lift (as_list rf_got) ;;
  ps <- lift (paths rfs) ;;
  ret (Config (construct settings (Dict.merge naming_attrs mm_attrs))
              (PyStr.dedup ps) false).

(** [_update_remote_naming] *)
Definition _update_remote_naming (self : LidarrMediaManagementSettingsConfig)
    (tree : string) (remote : LidarrMediaManagementSettingsConfig)
    (check_unmanaged : bool) : M bool :=
  '(updated, remote_attrs) <-
    get_update_remote_attrs (attrs self) tree (attrs remote)
      _naming_remote_map check_unmanaged true ;;
  if (updated : bool) then
    got <- api_get naming_path ;;
    config_id <- lift (subscript got "id") ;;
    api_put naming_path config_id (Dict.merge [("id", config_id)] remote_attrs) ;;
    ret true
  else ret false.

(** [_update_remote_mediamanagement] *)
Definition _update_remote_mediamanagement (self : LidarrMediaManagementSettingsConfig)
    (tree : string) (remote : LidarrMediaManagementSettingsConfig)
    (check_unmanaged : bool) : M bool :=
  '(updated, remote_attrs) <-
    get_update_remote_attrs (attrs self) tree (attrs remote)
      _mediamanagement_remote_map check_unmanaged true ;;
  if (updated : bool) then
    got <- api_get mediamanagement_path ;;
    config_id <- lift (subscript got "id") ;;
    api_put mediamanagement_path config_id
      (Dict.merge [("id", config_id)] remote_attrs) ;;
    ret true
  else ret false.

(** The payload of a root folder creation. *)
Definition rootfolder_body (root_folder : string) : dict :=
  [ ("path", VStr root_folder);
    ("name", VStr root_folder);
    ("defaultQualityProfileId", VInt 1);
    ("defaultMetadataProfileId", VInt 1) ].

(** The loop over [enumerate(self.root_folders)]. *)
Fixpoint create_missing (tree : string) (current_root_folders : dict)
    (todo : list (Z * string)) (changed : bool) : M bool :=
  match todo with
  | [] => ret changed
  | (i, root_folder) :: rest =>
      if Dict.mem root_folder current_root_folders then
        log DEBUG tree (Some i) (VStr root_folder) Exists ;;
        create_missing tree current_root_folders rest changed
      else
        log INFO tree (Some i) (VStr root_folder) Created ;;
        api_post rootfolder_path (rootfolder_body root_folder) ;;
        create_missing tree current_root_folders rest true
  end.

(** [_update_remote_rootfolder] *)
Definition _update_remote_rootfolder (self : LidarrMediaManagementSettingsConfig)
    (tree : string) (remote : LidarrMediaManagementSettingsConfig)
    (check_unmanaged : bool) : M bool :=
  got <- api_get rootfolder_path ;;
  items <- lift (as_list got) ;;
  current_root_folders <- lift (Tags.index_by "path" items []) ;;
  create_missing tree current_root_folders (enumerate (root_folders self)) false.

(** [LidarrMediaManagementSettingsConfig.update_remote]: the list handed
    to [any] is built first, element by element. *)
Definition update_remote (self : LidarrMediaManagementSettingsConfig)
    (tree : string) (remote : LidarrMediaManagementSettingsConfig)
    (check_unmanaged : bool) : M bool :=
  naming <- _update_remote_naming self tree remote check_unmanaged ;;
  mediamanagement <- _update_remote_mediamanagement self tree remote check_unmanaged ;;
  rootfolder <- _update_remote_rootfolder self (tree ++ ".root_folders")
                  remote check_unmanaged ;;
  ret (py_any [naming; mediamanagement; rootfolder]).

(** The loop over [current_root_folders.items()]; [i] counts down from
    [-1] over the unexpected entries. *)
Fixpoint delete_unexpected (tree : string) (delete_unmanaged : bool)
    (expected_root_folders : list string) (items : dict) (i : Z)
    (changed : bool) : M bool :=
  match items with
  | [] => ret changed
  | (root_folder, root_folder_id) :: rest =>
      if negb (PyStr.mem root_folder expected_root_folders) then
        if delete_unmanaged then
          log INFO tree (Some i) (VStr root_folder) Deleted ;;
          api_delete rootfolder_path root_folder_id ;;
          delete_unexpected tree delete_unmanaged expected_root_folders rest (i - 1) true
        else
          log INFO tree (Some i) (VStr root_folder) Unmanaged ;;
          delete_unexpected tree delete_unmanaged expected_root_folders rest (i - 1) changed
      else
        delete_unexpected tree delete_unmanaged expected_root_folders rest i changed
  end.

(** [_delete_remote_rootfolder] *)
Definition _delete_remote_rootfolder (self : LidarrMediaManagementSettingsConfig)
    (tree : string) (remote : LidarrMediaManagementSettingsConfig) : M bool :=
  got <- api_get rootfolder_path ;;
  items <- lift (as_list got) ;;
  current_root_folders <- lift (Tags.index_by "path" items []) ;;
  delete_unexpected tree (delete_unmanaged_root_folders self)
    (root_folders self) current_root_folders (-1) false.

(** [delete_remote] *)
Definition delete_remote (self : LidarrMediaManagementSettingsConfig)
    (tree : string) (remote : LidarrMediaManagementSettingsConfig) : M bool :=
  _delete_remote_rootfolder self (tree ++ ".root_folders") remote.

End MediaManagement.

(* ===================================================================== *)
(** * config/metadata.py *)
(* ===================================================================== *)

Module Metadata.

(** A metadata class: [_implementation] and [_remote_map]; every one of
    them has the single field [enable]. *)
Record metadata_class : Type := MetaClass {
  _implementation : string;
  _remote_map : list RemoteMapEntry
}.

Definition _base_remote_map : list RemoteMapEntry := [ plain "enable" "enable" ].

Definition KodiEmbyMetadata : metadata_class := MetaClass "XbmcMetadata" [].
Definition RoksboxMetadata : metadata_class := MetaClass "RoksboxMetadata" [].
Definition WdtvMetadata : metadata_class := MetaClass "WdtvMetadata" [].

Definition METADATA_TYPES : list metadata_class :=
  [ KodiEmbyMetadata; RoksboxMetadata; WdtvMetadata ].

Definition as_settings (c : metadata_class) : settings_class :=
  Class [ Field "enable" TBool (VBool false) ] (_base_remote_map ++ _remote_map c).

(** [Metadata._from_remote] *)
Definition _from_remote (c : metadata_class) (metadata : dict) : result obj :=
  rbind (Codec.get_local_attrs (_base_remote_map ++ _remote_map c) metadata)
    (fun attrs => Ok (construct (as_settings c) attrs)).

(** [d.pop(k)] *)
Definition pop (d : dict) (k : string) : result (value * dict) :=
  match Dict.get k d with
  | Some v => Ok (v, Dict.remove k d)
  | None => Err (KeyError k)
  end.

(** [{f["name"]: f["value"] for f in fs}] *)
Fixpoint name_values (fs : list value) (acc : dict) : result dict :=
  match fs with
  | [] => Ok acc
  | f :: rest =>
      rbind (subscript f "name") (fun n =>
      rbind (subscript f "value") (fun v =>
        match n with
        | VStr name => name_values rest (Dict.set name v acc)
        | _ => Err (TypeError "unmodelled dictionary key")
        end))
  end.

(** The list comprehension rebuilding [api_metadata["fields"]]. *)
Fixpoint merge_fields (updated_fields : dict) (fs : list value) : result (list value) :=
  match fs with
  | [] => Ok []
  | f :: rest =>
      rbind (subscript f "name") (fun n =>
        let k := match n with VStr name => Dict.get name updated_fields | _ => None end in
        rbind (match k with
               | Some v => rbind (as_dict f) (fun d => Ok (VDict (Dict.merge d [("value", v)])))
               | None => Ok f
               end) (fun f' =>
        rbind (merge_fields updated_fields rest) (fun r => Ok (f' :: r))))
  end.

Definition metadata_path : string := "/api/v1/metadata".

(** [Metadata._update_remote] *)
Definition _update_remote (c : metadata_class) (self : obj) (tree : string)
    (remote : obj) (api_metadata : dict) (check_unmanaged : bool) : M bool :=
  '(updated, remote_attrs) <-
    get_update_remote_attrs self tree remote (_base_remote_map ++ _remote_map c)
      check_unmanaged true ;;
  if (updated : bool) then
    '(popped, remote_attrs') <- lift (pop remote_attrs "fields") ;;
    popped_list <- lift (as_list popped) ;;
    updated_fields <- lift (name_values popped_list []) ;;
    api_fields <- lift (Dict.index api_metadata "fields") ;;
    api_fields_list <- lift (as_list api_fields) ;;
    fields <- lift (merge_fields updated_fields api_fields_list) ;;
    id <- lift (Dict.index api_metadata "id") ;;
    api_put metadata_path id
      (Dict.merge (Dict.merge api_metadata remote_attrs') [("fields", VList fields)]) ;;
    ret true
  else ret false.

(** [LidarrMetadataSettingsConfig] *)
Record LidarrMetadataSettingsConfig : Type := Config {
  kodi_emby : obj;
  roksbox : obj;
  wdtv : obj
}.

(** The loop that picks the three metadata resources by
    [metadata["implementation"]]; a later match replaces an earlier
    one. *)
Fixpoint pick (items : list value)
    (kodi_emby_metadata roksbox_metadata wdtv_metadata : option value)
    : result (option value * option value * option value) :=
  match items with
  | [] => Ok (kodi_emby_metadata, roksbox_metadata, wdtv_metadata)
  | metadata :: rest =>
      rbind (subscript metadata "implementation") (fun impl =>
        if py_eq impl (VStr (_implementation KodiEmbyMetadata)) then
          pick rest (Some metadata) roksbox_metadata wdtv_metadata
        else if py_eq impl (VStr (_implementation RoksboxMetadata)) then
          pick rest kodi_emby_metadata (Some metadata) wdtv_metadata
        else if py_eq impl (VStr (_implementation WdtvMetadata)) then
          pick rest kodi_emby_metadata roksbox_metadata (Some metadata)
        else
          pick rest kodi_emby_metadata roksbox_metadata wdtv_metadata)
  end.

Definition kodi_emby_missing : string :=
  "Unable to find Kodi (XBMC)/Emby metadata on Lidarr, database might be corrupt".
Definition roksbox_missing : string :=
  "Unable to find Roksbox metadata on Lidarr, database might be corrupt".
Definition wdtv_missing : string :=
  "Unable to find WDTV metadata on Lidarr, database might be corrupt".

(** The fetch and the three [is None] checks shared by [from_remote] and
    [update_remote]. *)
Definition fetch : M (value * value * value) :=
  got <- api_get metadata_path ;;
  items <- lift (as_list got) ;;
  picked <- lift (pick items None None None) ;;
  match picked with
  | (None, _, _) => raise (RuntimeError kodi_emby_missing)
  | (Some _, None, _) => raise (RuntimeError roksbox_missing)
  | (Some _, Some _, None) => raise (RuntimeError wdtv_missing)
  | (Some k, Some r, Some w) => ret (k, r, w)
  end.

(** [LidarrMetadataSettingsConfig.from_remote] *)
Definition from_remote : M LidarrMetadataSettingsConfig :=
  '(k, r, w) <- fetch ;;
  kd <- lift (as_dict k) ;;
  ko <- lift (_from_remote KodiEmbyMetadata kd) ;;
  rd <- lift (as_dict r) ;;
  ro <- lift (_from_remote RoksboxMetadata rd) ;;
  wd <- lift (as_dict w) ;;
  wo <- lift (_from_remote WdtvMetadata wd) ;;
  ret (Config ko ro wo).

(** [LidarrMetadataSettingsConfig.update_remote] *)
Definition update_remote (self : LidarrMetadataSettingsConfig) (tree : string)
    (remote : LidarrMetadataSettingsConfig) (check_unmanaged : bool) : M bool :=
  '(k, r, w) <- fetch ;;
  kd <- lift (as_dict k) ;;
  kodi_emby_updated <-
    _update_remote KodiEmbyMetadata (kodi_emby self) (tree ++ ".kodi_emby")
      (kodi_emby remote) kd check_unmanaged ;;
  rd <- lift (as_dict r) ;;
  roksbox_updated <-
    _update_remote RoksboxMetadata (roksbox self) (tree ++ ".roksbox")
      (roksbox remote) rd check_unmanaged ;;
  wd <- lift (as_dict w) ;;
  wdtv_updated <-
    _update_remote WdtvMetadata (wdtv self) (tree ++ ".wdtv")
      (wdtv remote) wd check_unmanaged ;;
  ret (py_any [kodi_emby_updated; roksbox_updated; wdtv_updated]).

End Metadata.

(* ===================================================================== *)
(** * Observations on traces, and the instances used in examples *)
(* ===================================================================== *)

Definition is_put (e : event) : bool :=
  match e with
  | ApiPut _ _ _ => true
  | _ => false
  end.

(** The bodies posted to [path], in the order of the calls. *)
Definition posts_to (path : string) (t : list event) : list dict :=
  flat_map (fun e => match e with
                     | ApiPost p b => if String.eqb p path then [b] else []
                     | _ => []
                     end) t.

(** Local and remote hold equal values on every entry of the table. *)
Definition agree (m : list RemoteMapEntry) (self remote : obj) : Prop :=
  forall e, In e m ->
    exists lv rv,
      getattr self (local_name e) = Ok lv
      /\ getattr remote (local_name e) = Ok rv
      /\ py_eq lv rv = true.

(** Local and remote hold equal values on every entry of the table, and
    every entry encodes. *)
Definition in_sync (m : list RemoteMapEntry) (self remote : obj) : Prop :=
  forall e, In e m ->
    exists lv rv ev,
      getattr self (local_name e) = Ok lv
      /\ getattr remote (local_name e) = Ok rv
      /\ py_eq lv rv = true
      /\ Codec.encode_entry e self = Ok ev.

Module NamingExample.

Definition snapshot : dict :=
  [ ("id", VInt 1);
    ("renameTracks", VBool false);
    ("standardTrackFormat", VStr "{Album Title}/{track:00} - {Track Title}") ].

Definition instance0 : world :=
  World [ (MediaManagement.naming_path, VDict snapshot) ] 2 [] [].

Definition local : MediaManagement.LidarrMediaManagementSettingsConfig :=
  MediaManagement.Config
    (construct MediaManagement.settings [ ("rename_tracks", VBool true) ]) [] false.

Definition remote : MediaManagement.LidarrMediaManagementSettingsConfig :=
  MediaManagement.Config (construct MediaManagement.settings []) [] false.

Definition sent : dict := [ ("id", VInt 1); ("renameTracks", VBool true) ].

End NamingExample.

Module MetadataExample.

Definition local : obj := [ ("enable", VBool true) ].
Definition remote : obj := [ ("enable", VBool false) ].

Definition api_metadata : dict :=
  [ ("id", VInt 1); ("implementation", VStr "XbmcMetadata");
    ("enable", VBool false); ("fields", VList []) ].

Definition instance0 : world :=
  World [ (Metadata.metadata_path, VList [VDict api_metadata]) ] 2 [] [].

Definition logged : world :=
  World [ (Metadata.metadata_path, VList [VDict api_metadata]) ] 2 []
    [ Log INFO "lidarr.settings.metadata.kodi_emby.enable" None (VStr "enable")
        (Changed (VBool false) (VBool true)) ].

End MetadataExample.

Module GeneralExample.

Definition host : obj :=
  construct General.HostGeneralSettings [ ("url_base", VStr "/lidarr") ].

Definition security : obj :=
  construct General.SecurityGeneralSettings
    [ ("authentication", VStr "forms"); ("username", VStr "admin");
      ("password", VStr "hunter2"); ("password_confirmation", VStr "hunter2") ].

Definition proxy : obj :=
  construct General.ProxyGeneralSettings
    [ ("ignored_addresses", VList [VStr "b.example"; VStr "a.example"]) ].

Definition config : General.LidarrGeneralSettingsConfig :=
  General.Config host security proxy
    (construct General.LoggingGeneralSettings [])
    (construct General.AnalyticsGeneralSettings [])
    (construct General.UpdatesGeneralSettings [])
    (construct General.BackupGeneralSettings []).

(** Every field at its declared default: no authentication, no
    password. *)
Definition defaults : General.LidarrGeneralSettingsConfig :=
  General.Config
    (construct General.HostGeneralSettings [])
    (construct General.SecurityGeneralSettings [])
    (construct General.ProxyGeneralSettings [])
    (construct General.LoggingGeneralSettings [])
    (construct General.AnalyticsGeneralSettings [])
    (construct General.UpdatesGeneralSettings [])
    (construct General.BackupGeneralSettings []).

Definition instance0 : world :=
  World [ (General.config_host, VDict [ ("id", VInt 1) ]) ] 2 [] [].

End GeneralExample.

(** The fetch and the PUT that end [update_remote] of the general
    settings when a sub-resolver reported a change. *)
Definition general_put (host_attrs security_attrs proxy_attrs logging_attrs
    analytics_attrs updates_attrs backup_attrs : dict) : M bool :=
  got <- api_get General.config_host ;;
  id <- lift (subscript got "id") ;;
  remote_config <- lift (as_dict got) ;;
  api_put General.config_host id
    (General.put_body remote_config host_attrs security_attrs proxy_attrs
       logging_attrs analytics_attrs updates_attrs backup_attrs) ;;
  ret true.

(** The metadata list has an entry whose [implementation] is [impl]. *)
Definition has_implementation (impl : string) (items : list value) : bool :=
  existsb (fun m => match subscript m "implementation" with
                    | Ok v => py_eq v (VStr impl)
                    | Err _ => false
                    end) items.

(** Every entry of the metadata list is an object with an
    [implementation] field. *)
Definition metadata_resources (items : list value) : Prop :=
  Forall (fun m => exists v, subscript m "implementation" = Ok v) items.

Definition is_runtime_error {A} (r : result A) : bool :=
  match r with
  | Err (RuntimeError _) => true
  | _ => false
  end.

Module MetadataCorrupt.

Definition kodi : value :=
  VDict [ ("id", VInt 1); ("implementation", VStr "XbmcMetadata");
          ("enable", VBool false); ("fields", VList []) ].

Definition roksbox : value :=
  VDict [ ("id", VInt 2); ("implementation", VStr "RoksboxMetadata");
          ("enable", VBool false); ("fields", VList []) ].

Definition wdtv : value :=
  VDict [ ("id", VInt 3); ("implementation", VStr "WdtvMetadata");
          ("enable", VBool false); ("fields", VList []) ].

(** An instance that has lost its WDTV metadata resource. *)
Definition instance0 : world :=
  World [ (Metadata.metadata_path, VList [kodi; roksbox]) ] 4 [] [].

Definition fetched : world :=
  World [ (Metadata.metadata_path, VList [kodi; roksbox]) ] 4 []
    [ ApiGet Metadata.metadata_path ].

Definition local : Metadata.LidarrMetadataSettingsConfig :=
  Metadata.Config [ ("enable", VBool true) ] [ ("enable", VBool false) ]
    [ ("enable", VBool false) ].

Definition remote : Metadata.LidarrMetadataSettingsConfig :=
  Metadata.Config [ ("enable", VBool false) ] [ ("enable", VBool false) ]
    [ ("enable", VBool false) ].

End MetadataCorrupt.

Module MetadataChange.

(** An instance with the three resources, none enabled. *)
Definition instance0 : world :=
  World [ (Metadata.metadata_path,
           VList [ MetadataCorrupt.kodi; MetadataCorrupt.roksbox;
                   MetadataCorrupt.wdtv ]) ] 4 [] [].

(** Kodi and Roksbox are to be enabled. *)
Definition local : Metadata.LidarrMetadataSettingsConfig :=
  Metadata.Config [ ("enable", VBool true) ] [ ("enable", VBool true) ]
    [ ("enable", VBool false) ].

Definition remote : Metadata.LidarrMetadataSettingsConfig :=
  Metadata.Config [ ("enable", VBool false) ] [ ("enable", VBool false) ]
    [ ("enable", VBool false) ].

(** The instance after the GET and the one line the Kodi resolver
    logs. *)
Definition stopped : world :=
  World (store instance0) 4 []
    [ ApiGet Metadata.metadata_path;
      Log INFO "lidarr.settings.metadata.kodi_emby.enable" None (VStr "enable")
        (Changed (VBool false) (VBool true)) ].

End MetadataChange.


(** The declaration of the field called [name]. *)
Definition find_field (c : settings_class) (name : string) : option field :=
  find (fun f => String.eqb (fname f) name) (fields c).

Module SecurityExample.




End SecurityExample.

(** The order [sorted] arranges strings in. *)
Definition str_le (a b : string) : Prop := String.leb a b = true.

(** What the server has in store for the next call, and for the ones
    after it. *)
Definition next_fault (fs : list (option Z)) : option Z * list (option Z) :=
  match fs with
  | f :: rest => (f, rest)
  | [] => (None, [])
  end.

(** The instance after a call has been made and answered, before the call
    takes effect. *)
Definition called (e : event) (w : world) : world :=
  World (store w) (next_id w) (snd (next_fault (faults w))) (trace w ++ [e]).

Definition api_error (status : Z) : exn :=
  LidarrAPIError "Unexpected response from Lidarr" status.

(** The absent entries of a list of local entries, given the index of the
    remote ones. *)
Definition absent (current : dict) (entries : list string) : list string :=
  filter (fun t => negb (Dict.mem t current)) entries.

(** The body of the POST that creates a tag, and the resource the server
    answers with. *)
Definition tag_body (tag : string) : dict := [ ("label", VStr tag) ].

Definition created_tag (i : Z) (tag : string) : value :=
  VDict [ ("label", VStr tag); ("id", VInt i) ].

Fixpoint created_tags (i : Z) (tags : list string) : list value :=
  match tags with
  | [] => []
  | t :: rest => created_tag i t :: created_tags (i + 1) rest
  end.

Definition nonempty {A} (l : list A) : bool :=
  match l with
  | [] => false
  | _ => true
  end.

(** The identifiers deleted under [path], in the order of the calls. *)
Definition deletes_of (path : string) (t : list event) : list value :=
  flat_map (fun e => match e with
                     | ApiDelete p i => if String.eqb p path then [i] else []
                     | _ => []
                     end) t.

(** The resources of a collection once those with the identifiers [ids]
    are gone. *)
Definition remaining (ids : list value) (l : list value) : list value :=
  filter (fun r => negb (existsb (fun i => Api.has_id i r) ids)) l.

(** The [(name, id)] pairs of the resources of a collection, one per
    resource. *)
Fixpoint resource_entries (key : string) (items : list value)
    : result (list (string * value)) :=
  match items with
  | [] => Ok []
  | item :: rest =>
      rbind (subscript item key) (fun k =>
      rbind (subscript item "id") (fun i =>
        match k with
        | VStr name => rbind (resource_entries key rest) (fun r => Ok ((name, i) :: r))
        | _ => Err (TypeError "unmodelled dictionary key")
        end))
  end.

(** The remote entries that the local set does not name. *)
Definition unexpected (expected : list string) (entries : list (string * value))
    : list (string * value) :=
  filter (fun kv => negb (PyStr.mem (fst kv) expected)) entries.

(** The resource the server answers a root folder creation with. *)
Definition created_rootfolder (i : Z) (root_folder : string) : value :=
  VDict (MediaManagement.rootfolder_body root_folder ++ [ ("id", VInt i) ]).

Fixpoint created_rootfolders (i : Z) (root_folders : list string) : list value :=
  match root_folders with
  | [] => []
  | p :: rest => created_rootfolder i p :: created_rootfolders (i + 1) rest
  end.

Module TagsExample.

(** An instance without tags that answers the third call with a 500. *)
Definition instance0 : world :=
  World [ (Tags.tag_path, VList []) ] 1 [ None; None; Some 500%Z ] [].

Definition definitions : list string := [ "c"; "a"; "b" ].

(** A healthy instance without tags and without root folders. *)
Definition empty0 : world :=
  World [ (Tags.tag_path, VList []);
          (MediaManagement.rootfolder_path, VList []) ] 1 [] [].

End TagsExample.

Module RootFolderExample.

Definition folder (i : Z) (path : string) : value :=
  VDict [ ("id", VInt i); ("path", VStr path); ("name", VStr path) ].

(** An instance with the root folders a, b and c. *)
Definition instance0 : world :=
  World [ (MediaManagement.rootfolder_path,
           VList [ folder 1 "a"; folder 2 "b"; folder 3 "c" ]) ] 4 [] [].

Definition entries : list (string * value) :=
  [ ("a", VInt 1); ("b", VInt 2); ("c", VInt 3) ].

Definition keep (delete_unmanaged : bool)
    : MediaManagement.LidarrMediaManagementSettingsConfig :=
  MediaManagement.Config [] [ "a" ] delete_unmanaged.

End RootFolderExample.

(* --------------------------------------------------------------------- *)
(** ** The codecs of the tables, by kind *)
(* --------------------------------------------------------------------- *)

(** The five codecs found in the tables on entries without
    [root_encoder]: no option at all; [v or None] with [v or ''];
    [v or None] with [get_secret_value]; [str(v)]; and the comma-separated
    address list. *)
Inductive codec_kind : Type :=
| Identity
| OptionalText
| Secret
| BindAddress
| Addresses.

Definition has_kind (e : RemoteMapEntry) (k : codec_kind) : Prop :=
  match k with
  | Identity => decoder e = None /\ encoder e = None
  | OptionalText =>
      decoder e = Some Codec.or_none /\ encoder e = Some Codec.or_empty
  | Secret =>
      decoder e = Some Codec.or_none /\ encoder e = Some Codec.secret_or_empty
  | BindAddress => decoder e = None /\ encoder e = Some Codec.to_str
  | Addresses =>
      decoder e = Some Codec.addresses_decoder
      /\ encoder e = Some Codec.addresses_encoder
  end.

(** The declared types each codec is found on.  An entry without options
    is found on fields of many types. *)
Definition fits (k : codec_kind) (t : ftype) : Prop :=
  match k with
  | Identity => True
  | OptionalText => t = TOptStr
  | Secret => t = TSecret
  | BindAddress => t = TBindAddress
  | Addresses => t = TStrSet
  end.










(** Every table of the plugin, with the class that declares its fields. *)
Definition all_tables : list settings_class :=
  [ General.HostGeneralSettings; General.SecurityGeneralSettings;
    General.ProxyGeneralSettings; General.LoggingGeneralSettings;
    General.AnalyticsGeneralSettings; General.UpdatesGeneralSettings;
    General.BackupGeneralSettings; MediaManagement.settings;
    Metadata.as_settings Metadata.KodiEmbyMetadata;
    Metadata.as_settings Metadata.RoksboxMetadata;
    Metadata.as_settings Metadata.WdtvMetadata ].

(** The codec of an entry, read off its options. *)
Definition kind_of (e : RemoteMapEntry) (t : ftype) : codec_kind :=
  match decoder e, encoder e, t with
  | None, None, _ => Identity
  | None, Some _, _ => BindAddress
  | Some _, _, TSecret => Secret
  | Some _, _, TStrSet => Addresses
  | Some _, _, _ => OptionalText
  end.

Definition field_type (c : settings_class) (name : string) : ftype :=
  match find_field c name with
  | Some f => fty f
  | None => TAny
  end.






Module MediaExample.

Definition instance0 : world :=
  World [ (MediaManagement.naming_path,
           VDict [ ("id", VInt 1); ("renameTracks", VBool false) ]);
          (MediaManagement.mediamanagement_path, VDict [ ("id", VInt 1) ]);
          (MediaManagement.rootfolder_path, VList []) ] 2 [] [].

Definition local : MediaManagement.LidarrMediaManagementSettingsConfig :=
  MediaManagement.Config
    (construct MediaManagement.settings [ ("rename_tracks", VBool true) ])
    [ "/music" ] false.

Definition remote : MediaManagement.LidarrMediaManagementSettingsConfig :=
  MediaManagement.Config (construct MediaManagement.settings []) [] false.

End MediaExample.

(** The remote names that the general settings manage. *)
Definition general_remote_names : list string :=
  flat_map (fun c => map remote_name (remote_map c))
    [ General.HostGeneralSettings; General.SecurityGeneralSettings;
      General.ProxyGeneralSettings; General.LoggingGeneralSettings;
      General.AnalyticsGeneralSettings; General.UpdatesGeneralSettings;
      General.BackupGeneralSettings ].

Module LoggingExample.

Definition local : obj := [ ("log_level", VStr "debug") ].
Definition remote : obj := [ ("log_level", VStr "info") ].

Definition instance0 : world := World [] 1 [] [].

End LoggingExample.

(* ===================================================================== *)
(** * Further observations *)
(* ===================================================================== *)

(** Calls that replace or remove something on the instance. *)
Definition is_destructive (e : event) : bool :=
  match e with
  | ApiPut _ _ _ | ApiDelete _ _ => true
  | _ => false
  end.

(** Calls that change the instance in any way. *)
Definition is_mutation (e : event) : bool :=
  match e with
  | ApiPost _ _ | ApiPut _ _ _ | ApiDelete _ _ => true
  | _ => false
  end.

(** The entries of the security table for the two password fields. *)
Definition password_entry : RemoteMapEntry :=
  Entry "password" "password"
    (Some Codec.or_none) (Some Codec.secret_or_empty) None true.

Definition password_confirmation_entry : RemoteMapEntry :=
  Entry "password_confirmation" "passwordConfirmation"
    (Some Codec.or_none) None (Some Codec.password_of) true.

(** The identifier of the last resource of [items] whose [key] field is
    [name]; [found] when there is none. *)
Fixpoint last_named (key name : string) (items : list value)
    (found : option value) : option value :=
  match items with
  | [] => found
  | item :: rest =>
      match subscript item key, subscript item "id" with
      | Ok (VStr n), Ok i =>
          last_named key name rest (if String.eqb name n then Some i else found)
      | _, _ => last_named key name rest found
      end
  end.

(** The last resource of [items] whose [implementation] is [impl];
    [found] when there is none. *)
Fixpoint last_with (impl : string) (items : list value) (found : option value)
    : option value :=
  match items with
  | [] => found
  | m :: rest =>
      match subscript m "implementation" with
      | Ok v =>
          if py_eq v (VStr impl) then last_with impl rest (Some m)
          else last_with impl rest found
      | Err _ => last_with impl rest found
      end
  end.

(** The two sides of a metadata definition agree on [enable]. *)
Definition same_enable (self remote : obj) : Prop :=
  exists lv rv,
    getattr self "enable" = Ok lv /\ getattr remote "enable" = Ok rv
    /\ py_eq lv rv = true.

Module MetadataInSync.

Definition older_kodi : value :=
  VDict [ ("id", VInt 7); ("implementation", VStr "XbmcMetadata");
          ("enable", VBool false) ].

Definition kodi : value :=
  VDict [ ("id", VInt 1); ("implementation", VStr "XbmcMetadata");
          ("enable", VBool true); ("fields", VList []) ].

Definition items : list value :=
  [ older_kodi; MetadataCorrupt.wdtv; kodi; MetadataCorrupt.roksbox ].

Definition instance0 : world :=
  World [ (Metadata.metadata_path, VList items) ] 8 [] [].

Definition fetched : world :=
  World [ (Metadata.metadata_path, VList items) ] 8 []
    [ ApiGet Metadata.metadata_path ].

Definition config : Metadata.LidarrMetadataSettingsConfig :=
  Metadata.Config [ ("enable", VBool true) ] [ ("enable", VBool false) ]
    [ ("enable", VBool false) ].

End MetadataInSync.

(** What a PUT of one of the two configuration resources looks like, given
    the table [m] the resolver ran on: one write, of a body that has the
    identifier of the fresh snapshot under [id] and a value for each
    remote name of the table, and no other key; the resource stored
    afterwards is that body. *)
Definition whole_table_put (path : string) (m : list RemoteMapEntry)
    (w w' : world) : Prop :=
  exists snapshot id body,
    Dict.get path (store w) = Some (VDict snapshot)
    /\ Dict.get "id" snapshot = Some id
    /\ filter is_mutation (trace w')
       = filter is_mutation (trace w) ++ [ ApiPut path id body ]
    /\ Dict.get "id" body = Some id
    /\ (forall k, In k (Dict.keys body) <-> k = "id" \/ In k (map remote_name m))
    /\ Dict.get path (store w') = Some (VDict body).


Module GeneralChange.

(** The host configuration of an instance, with a field that no table
    names. *)
Definition snapshot : dict :=
  [ ("id", VInt 1); ("logLevel", VStr "info"); ("undocumented", VInt 42) ].

Definition instance0 : world :=
  World [ (General.config_host, VDict snapshot) ] 2 [] [].

(** The configuration of [GeneralExample], with the log level raised. *)
Definition local : General.LidarrGeneralSettingsConfig :=
  General.Config GeneralExample.host GeneralExample.security GeneralExample.proxy
    (construct General.LoggingGeneralSettings [ ("log_level", VStr "debug") ])
    (construct General.AnalyticsGeneralSettings [])
    (construct General.UpdatesGeneralSettings [])
    (construct General.BackupGeneralSettings []).

End GeneralChange.

(** The writes of a trace, in order. *)
Definition mutations (t : list event) : list event := filter is_mutation t.

Module RootFolderFailure.

(** The instance of [RootFolderExample], answering the third call with a
    500. *)
Definition instance0 : world :=
  World [ (MediaManagement.rootfolder_path,
           VList [ RootFolderExample.folder 1 "a"; RootFolderExample.folder 2 "b";
                   RootFolderExample.folder 3 "c" ]) ] 4
    [ None; None; Some 500%Z ] [].

Definition keep_none : MediaManagement.LidarrMediaManagementSettingsConfig :=
  MediaManagement.Config [] [] true.

End RootFolderFailure.

(** The identifiers of the entries are integers, no two the same. *)
Definition distinct_ids (entries : list (string * value)) : Prop :=
  NoDup (map snd entries)
  /\ Forall (fun kv => exists z, snd kv = VInt z) entries.

(** The names among [names] that the local set has. *)
Definition kept (expected names : list string) : list string :=
  filter (fun p => PyStr.mem p expected) names.

(** The [(path, id)] pairs of the root folders the server creates for
    [paths], the first of them under the identifier [i]. *)
Fixpoint created_entries (i : Z) (paths : list string) : list (string * value) :=
  match paths with
  | [] => []
  | p :: rest => (p, VInt i) :: created_entries (i + 1) rest
  end.

(** Every identifier of the entries is an integer below [n]. *)
Definition ids_below (n : Z) (entries : list (string * value)) : Prop :=
  Forall (fun kv => exists z, snd kv = VInt z /\ (z < n)%Z) entries.

Module RootFolderSync.

(** The local set: a is kept, d is new; b and c of the instance are not
    named. *)
Definition local : MediaManagement.LidarrMediaManagementSettingsConfig :=
  MediaManagement.Config [] [ "d"; "a" ] true.

End RootFolderSync.

Module MediaInSync.

(** The defaults of every field, and the root folders a and c, all of
    which [RootFolderExample.instance0] has. *)
Definition local : MediaManagement.LidarrMediaManagementSettingsConfig :=
  MediaManagement.Config (construct MediaManagement.settings []) [ "c"; "a" ] false.

End MediaInSync.

(** The text is the value of a [ChmodFolder] member. *)
Definition chmod_value (s : string) : bool :=
  existsb (fun m => String.eqb (snd m) s) ChmodFolder.members.
(* ===================================================================== *)
(** * Strings and sorting *)
(* ===================================================================== *)

Section Sorting.

Import PyStr.

Lemma ascii_compare_lt_trans (a b c : ascii) :
  Ascii.compare a b = Lt -> Ascii.compare b c = Lt -> Ascii.compare a c = Lt.
Proof.
  unfold Ascii.compare. rewrite !N.compare_lt_iff. apply N.lt_trans.
Qed.

Lemma str_le_refl (a : string) : str_le a a.
Proof.
  unfold str_le. destruct (String.leb_total a a); assumption.
Qed.

Lemma str_le_trans (a b c : string) : str_le a b -> str_le b c -> str_le a c.
Proof.
  unfold str_le, String.leb. revert b c.
  induction a as [|x a IH]; intros b c Hab Hbc.
  - destruct c; reflexivity.
  - destruct b as [|y b]; [discriminate|].
    destruct c as [|z c]; [discriminate|].
    simpl in *.
    destruct (Ascii.compare x y) eqn:Exy; try discriminate.
    + apply Ascii.compare_eq_iff in Exy. subst y.
      destruct (Ascii.compare x z); try discriminate; [|reflexivity].
      apply (IH b c); assumption.
    + destruct (Ascii.compare y z) eqn:Eyz; try discriminate.
      * apply Ascii.compare_eq_iff in Eyz. subst z. now rewrite Exy.
      * now rewrite (ascii_compare_lt_trans x y z Exy Eyz).
Qed.

Lemma insert_perm (x : string) (l : list string) :
  Permutation (insert x l) (x :: l).
Proof.
  induction l as [|y l IH]; simpl; [reflexivity|].
  destruct (String.leb x y); [reflexivity|].
  rewrite IH. apply perm_swap.
Qed.

Lemma sorted_perm (l : list string) : Permutation (sorted l) l.
Proof.
  induction l as [|x l IH]; simpl; [reflexivity|].
  rewrite insert_perm. now constructor.
Qed.

Lemma insert_sorted (x : string) (l : list string) :
  StronglySorted str_le l -> StronglySorted str_le (insert x l).
Proof.
  induction 1 as [|y l Hs IH Hy]; simpl.
  - repeat constructor.
  - destruct (String.leb x y) eqn:E.
    + constructor; [now constructor|].
      constructor; [exact E|].
      eapply Forall_impl; [|exact Hy].
      intros z Hz. eapply str_le_trans; eassumption.
    + constructor; [exact IH|].
      eapply Permutation_Forall; [symmetry; apply insert_perm|].
      constructor; [|exact Hy].
      destruct (String.leb_total x y); [congruence | assumption].
Qed.

Lemma sorted_sorted (l : list string) : StronglySorted str_le (sorted l).
Proof.
  induction l as [|x l IH]; simpl; [constructor | now apply insert_sorted].
Qed.

(** An ascending list is determined by its elements. *)
Lemma sorted_unique (l1 : list string) :
  forall l2,
    StronglySorted str_le l1 -> StronglySorted str_le l2 ->
    Permutation l1 l2 -> l1 = l2.
Proof.
  induction l1 as [|x l1 IH]; intros l2 H1 H2 Hp.
  - apply Permutation_nil in Hp. now subst.
  - destruct l2 as [|y l2];
      [apply Permutation_sym, Permutation_nil in Hp; discriminate|].
    inversion H1 as [|? ? H1' Hx]; subst.
    inversion H2 as [|? ? H2' Hy]; subst.
    assert (x = y).
    { assert (Hxin : In x (y :: l2))
        by (eapply Permutation_in; [exact Hp | now left]).
      assert (Hyin : In y (x :: l1))
        by (eapply Permutation_in; [symmetry; exact Hp | now left]).
      destruct Hxin as [->|Hxin]; [reflexivity|].
      destruct Hyin as [->|Hyin]; [reflexivity|].
      rewrite Forall_forall in Hx, Hy.
      apply String.leb_antisym; [apply Hx, Hyin | apply Hy, Hxin]. }
    subst y. f_equal. apply IH; auto.
    eapply Permutation_cons_inv; exact Hp.
Qed.

(** [sorted] does not depend on the order its argument comes in. *)
Lemma sorted_permutation (l1 l2 : list string) :
  Permutation l1 l2 -> sorted l1 = sorted l2.
Proof.
  intros Hp. apply sorted_unique; try apply sorted_sorted.
  rewrite !sorted_perm. exact Hp.
Qed.

Lemma mem_in (x : string) (l : list string) : mem x l = true <-> In x l.
Proof.
  unfold mem. rewrite existsb_exists. split.
  - intros (y & Hy & E). apply String.eqb_eq in E. now subst.
  - intros H. exists x. split; [exact H | apply String.eqb_refl].
Qed.

Lemma dedup_in (x : string) (l : list string) : In x (dedup l) <-> In x l.
Proof.
  induction l as [|y l IH]; simpl; [tauto|].
  destruct (mem y l) eqn:E.
  - rewrite IH. apply mem_in in E. split; [tauto|]. intros [->|H]; auto.
  - simpl. rewrite IH. tauto.
Qed.

Lemma dedup_nodup (l : list string) : NoDup (dedup l).
Proof.
  induction l as [|y l IH]; simpl; [constructor|].
  destruct (mem y l) eqn:E; [exact IH|].
  constructor; [|exact IH].
  rewrite dedup_in, <- mem_in. congruence.
Qed.


Lemma subset_incl (a b : list string) : subset a b = true <-> incl a b.
Proof.
  unfold subset, incl. rewrite forallb_forall.
  split; intros H x Hx; [apply mem_in | apply mem_in]; auto.
Qed.

Lemma set_eqb_spec (a b : list string) :
  set_eqb a b = true <-> (forall x, In x a <-> In x b).
Proof.
  unfold set_eqb. rewrite andb_true_iff, !subset_incl. unfold incl.
  split; [intros [H1 H2] x; split; auto | intros H; split; intros x; apply H].
Qed.

Lemma filter_strongly_sorted (f : string -> bool) (l : list string) :
  StronglySorted str_le l -> StronglySorted str_le (filter f l).
Proof.
  induction 1 as [|x l Hs IH Hx]; simpl; [constructor|].
  destruct (f x); [|exact IH].
  constructor; [exact IH|].
  rewrite Forall_forall in *. intros y Hy.
  apply filter_In in Hy. apply Hx, Hy.
Qed.

End Sorting.

Section SplitJoinStrip.

Import PyStr.
















End SplitJoinStrip.
(* ===================================================================== *)
(** * Properties *)
(* ===================================================================== *)

(** ** Dictionaries *)

Lemma dict_get_set (k k' : string) (v : value) (d : dict) :
  Dict.get k (Dict.set k' v d) = if String.eqb k k' then Some v else Dict.get k d.
Proof.
  induction d as [|[k0 v0] d IH]; simpl; [reflexivity|].
  destruct (String.eqb_spec k' k0); subst; simpl.
  - destruct (String.eqb_spec k k0); reflexivity.
  - destruct (String.eqb_spec k k0); subst.
    + destruct (String.eqb_spec k0 k'); congruence.
    + rewrite IH. reflexivity.
Qed.

Lemma dict_keys_set (k : string) (v : value) (d : dict) (x : string) :
  In x (Dict.keys (Dict.set k v d)) <-> x = k \/ In x (Dict.keys d).
Proof.
  unfold Dict.keys. induction d as [|[k0 v0] d IH]; simpl.
  - intuition.
  - destruct (String.eqb_spec k k0); subst; simpl; [intuition|].
    rewrite IH. intuition.
Qed.

Lemma dict_get_none_keys (k : string) (d : dict) :
  Dict.get k d = None <-> ~ In k (Dict.keys d).
Proof.
  unfold Dict.keys. induction d as [|[k0 v0] d IH]; simpl; [intuition|].
  destruct (String.eqb_spec k k0); subst.
  - split; [discriminate | intros H; exfalso; apply H; now left].
  - rewrite IH. intuition.
Qed.

(** A key that [b] does not bind is read from [a] in [{**a, **b}]. *)
Lemma dict_get_merge_other (k : string) (a b : dict) :
  ~ In k (Dict.keys b) -> Dict.get k (Dict.merge a b) = Dict.get k a.
Proof.
  unfold Dict.merge, Dict.keys. revert a.
  induction b as [|[k0 v0] b IH]; simpl; intros a Hk; [reflexivity|].
  rewrite IH by tauto. rewrite dict_get_set.
  destruct (String.eqb_spec k k0); [subst; tauto | reflexivity].
Qed.

(** The keys of [{**a, **b}] are those of [a] and those of [b]. *)
Lemma dict_keys_merge (a b : dict) (x : string) :
  In x (Dict.keys (Dict.merge a b)) <-> In x (Dict.keys a) \/ In x (Dict.keys b).
Proof.
  unfold Dict.merge. revert a.
  induction b as [|[k0 v0] b IH]; simpl; intros a; [intuition|].
  rewrite IH, dict_keys_set. unfold Dict.keys; simpl. intuition.
Qed.

(** ** The monad *)

Ltac munfold :=
  unfold bind, lift, ret, raise, log, emit in *; simpl in *.

(** ** The resolver *)

Section ResolverFacts.

Variables (tree : string) (self remote : obj) (set_unchanged : bool).

(** Every key of the resolver's [remote_attrs] is a key it started from
    or the remote name of an entry of the table. *)
Lemma resolve_loop_keys (m : list RemoteMapEntry) :
  forall updated acc w updated' attrs w',
    resolve_loop tree self remote m set_unchanged updated acc w
      = (Ok (updated', attrs), w') ->
    forall k, In k (Dict.keys attrs) ->
      In k (Dict.keys acc) \/ In k (map remote_name m).
Proof.
  induction m as [|e m IH]; simpl; intros updated acc w updated' attrs w' H k Hk.
  - munfold. inversion H; subst. now left.
  - munfold.
    destruct (getattr self (local_name e)) as [lv|]; [|discriminate].
    destruct (getattr remote (local_name e)) as [rv|]; [|discriminate].
    destruct (py_eq lv rv); simpl in H.
    + destruct set_unchanged.
      * destruct (Codec.encode_entry e self) as [ev|]; [|discriminate].
        destruct (IH _ _ _ _ _ _ H k Hk) as [Hin|Hin]; [|tauto].
        apply dict_keys_set in Hin. intuition.
      * destruct (IH _ _ _ _ _ _ H k Hk); tauto.
    + destruct (Codec.encode_entry e self) as [ev|]; [|discriminate].
      destruct (IH _ _ _ _ _ _ H k Hk) as [Hin|Hin]; [|tauto].
      apply dict_keys_set in Hin. intuition.
Qed.

(** A resolver that reports no change has logged nothing: the instance
    and the trace are as before. *)
Lemma resolve_loop_unchanged (m : list RemoteMapEntry) :
  forall updated acc w attrs w',
    resolve_loop tree self remote m set_unchanged updated acc w
      = (Ok (false, attrs), w') ->
    updated = false /\ w' = w.
Proof.
  induction m as [|e m IH]; simpl; intros updated acc w attrs w' H.
  - munfold. inversion H; subst. auto.
  - munfold.
    destruct (getattr self (local_name e)) as [lv|]; [|discriminate].
    destruct (getattr remote (local_name e)) as [rv|]; [|discriminate].
    destruct (py_eq lv rv); simpl in H.
    + destruct set_unchanged.
      * destruct (Codec.encode_entry e self) as [ev|]; [|discriminate].
        eapply IH; eassumption.
      * eapply IH; eassumption.
    + destruct (Codec.encode_entry e self) as [ev|]; [|discriminate].
      apply IH in H. destruct H; discriminate.
Qed.

(** The resolver makes no API call: it leaves the instance alone and
    only appends log lines to the trace. *)
Lemma resolve_loop_logs_only (m : list RemoteMapEntry) :
  forall updated acc w r w',
    resolve_loop tree self remote m set_unchanged updated acc w = (r, w') ->
    store w' = store w /\ next_id w' = next_id w /\ faults w' = faults w /\
    exists logs, trace w' = trace w ++ logs /\
                 Forall (fun e => exists l t i s n, e = Log l t i s n) logs.
Proof.
  induction m as [|e m IH]; simpl; intros updated acc w r w' H.
  - munfold. inversion H; subst. repeat split; auto.
    exists []. rewrite app_nil_r. auto.
  - munfold.
    destruct (getattr self (local_name e)) as [lv|];
      [|inversion H; subst; repeat split; auto; exists []; rewrite app_nil_r; auto].
    destruct (getattr remote (local_name e)) as [rv|];
      [|inversion H; subst; repeat split; auto; exists []; rewrite app_nil_r; auto].
    destruct (py_eq lv rv); simpl in H.
    + destruct set_unchanged.
      * destruct (Codec.encode_entry e self) as [ev|];
          [|inversion H; subst; repeat split; auto; exists []; rewrite app_nil_r; auto].
        eapply IH; eassumption.
      * eapply IH; eassumption.
    + destruct (Codec.encode_entry e self) as [ev|].
      * apply IH in H. simpl in H.
        destruct H as (Hs & Hn & Hf & logs & Ht & Hl).
        repeat split; auto.
        eexists (_ :: logs). rewrite Ht, <- app_assoc. split; [reflexivity|].
        constructor; [repeat eexists | exact Hl].
      * inversion H; subst; simpl. repeat split; auto.
        eexists [_]. split; [reflexivity|]. constructor; [repeat eexists | constructor].
Qed.

End ResolverFacts.

(** With [set_unchanged = true] the resolver's [remote_attrs] has a value
    for the remote name of every entry of the table. *)
Lemma resolve_loop_covers (tree : string) (self remote : obj)
    (m : list RemoteMapEntry) :
  forall updated acc w updated' attrs w',
    resolve_loop tree self remote m true updated acc w
      = (Ok (updated', attrs), w') ->
    forall k, In k (Dict.keys acc) \/ In k (map remote_name m) ->
      In k (Dict.keys attrs).
Proof.
  induction m as [|e m IH]; simpl; intros updated acc w updated' attrs w' H k Hk.
  - munfold. inversion H; subst. tauto.
  - munfold.
    destruct (getattr self (local_name e)) as [lv|]; [|discriminate].
    destruct (getattr remote (local_name e)) as [rv|]; [|discriminate].
    destruct (py_eq lv rv); simpl in H;
      (destruct (Codec.encode_entry e self) as [ev|]; [|discriminate]);
      (eapply IH; [eassumption|]);
      rewrite dict_keys_set; intuition.
Qed.

Lemma existsb_app_logs (p : event -> bool) (t logs : list event) :
  (forall l tr i s n, p (Log l tr i s n) = false) ->
  Forall (fun e => exists l tr i s n, e = Log l tr i s n) logs ->
  existsb p (t ++ logs) = existsb p t.
Proof.
  intros Hp Hl. rewrite existsb_app.
  replace (existsb p logs) with false; [apply orb_false_r|].
  induction Hl as [|e logs (l & tr & i & s & n & ->) _ IH]; simpl; [reflexivity|].
  now rewrite Hp.
Qed.

(** ** General settings: what the PUT body keeps of the fresh snapshot *)

(** In [LidarrGeneralSettingsConfig.update_remote] every field of the
    fresh snapshot that no sub-resolver assigned reaches the PUT body
    unchanged. *)
Lemma general_put_body_passthrough
    (remote_config a1 a2 a3 a4 a5 a6 a7 : dict) (k : string) :
  ~ In k (Dict.keys a1) -> ~ In k (Dict.keys a2) -> ~ In k (Dict.keys a3) ->
  ~ In k (Dict.keys a4) -> ~ In k (Dict.keys a5) -> ~ In k (Dict.keys a6) ->
  ~ In k (Dict.keys a7) ->
  Dict.get k (General.put_body remote_config a1 a2 a3 a4 a5 a6 a7)
    = Dict.get k remote_config.
Proof.
  intros. unfold General.put_body.
  repeat (rewrite dict_get_merge_other by assumption). reflexivity.
Qed.

(** ** Media management: the naming PUT *)


(** C1.  [_update_remote_naming] does not merge [remote_attrs] over the
    fresh snapshot: it sends the snapshot's [id] and [remote_attrs] only.
    On an instance whose naming resource carries the field
    [standardTrackFormat], which no mapping entry names, a change of
    [rename_tracks] makes it PUT a body without that field, and the
    resource stored afterwards has lost it. *)
Theorem naming_put_drops_unmanaged_field :
  exists w',
    MediaManagement._update_remote_naming NamingExample.local
        "lidarr.settings.media_management" NamingExample.remote false
        NamingExample.instance0 = (Ok true, w')
    /\ Dict.get "standardTrackFormat" NamingExample.snapshot
         = Some (VStr "{Album Title}/{track:00} - {Track Title}")
    /\ ~ In "standardTrackFormat"
           (map remote_name MediaManagement._naming_remote_map)
    /\ filter is_put (trace w')
         = [ ApiPut MediaManagement.naming_path (VInt 1) NamingExample.sent ]
    /\ Dict.get "standardTrackFormat" NamingExample.sent = None
    /\ Dict.get MediaManagement.naming_path (store w')
         = Some (VDict NamingExample.sent).
Proof.
  eexists. split; [vm_compute; reflexivity|].
  split; [reflexivity|].
  split; [simpl; intros [H|[]]; discriminate|].
  repeat split; reflexivity.
Qed.

(** ** Metadata *)

(** C3.  For each of the three metadata types the table is
    [("enable", "enable", {})] alone, so a resolver that reports an update
    hands back [remote_attrs] without the key [fields]: the unconditional
    [remote_attrs.pop("fields")] raises [KeyError], [_update_remote] ends
    there, and no PUT is issued. *)
Theorem metadata_update_pop_fields_raises
    (c : Metadata.metadata_class) (self remote : obj) (tree : string)
    (api_metadata : dict) (check_unmanaged : bool) (w w' : world) (attrs : dict) :
  In c Metadata.METADATA_TYPES ->
  get_update_remote_attrs self tree remote
    (Metadata._base_remote_map ++ Metadata._remote_map c) check_unmanaged true w
    = (Ok (true, attrs), w') ->
  Dict.get "fields" attrs = None
  /\ Metadata._update_remote c self tree remote api_metadata check_unmanaged w
       = (Err (KeyError "fields"), w')
  /\ existsb is_put (trace w') = existsb is_put (trace w).
Proof.
  intros Hc H.
  assert (Hmap : Metadata._base_remote_map ++ Metadata._remote_map c
                 = [plain "enable" "enable"]).
  { simpl in Hc. destruct Hc as [<-|[<-|[<-|[]]]]; reflexivity. }
  assert (Hnone : Dict.get "fields" attrs = None).
  { apply dict_get_none_keys. intros Hin.
    unfold get_update_remote_attrs in H.
    destruct (resolve_loop_keys _ _ _ _ _ _ _ _ _ _ _ H _ Hin) as [[]|Hin'].
    rewrite Hmap in Hin'. simpl in Hin'. destruct Hin' as [E|[]]. discriminate. }
  split; [exact Hnone|]. split.
  - unfold Metadata._update_remote, bind. rewrite H.
    unfold lift, Metadata.pop. rewrite Hnone. reflexivity.
  - unfold get_update_remote_attrs in H.
    destruct (resolve_loop_logs_only _ _ _ _ _ _ _ _ _ _ H) as (_ & _ & _ & logs & -> & Hl).
    apply existsb_app_logs; auto.
Qed.


Lemma metadata_update_pop_fields_raises_witness :
  Dict.get "fields" [ ("enable", VBool true) ] = None
  /\ Metadata._update_remote Metadata.KodiEmbyMetadata MetadataExample.local
       "lidarr.settings.metadata.kodi_emby" MetadataExample.remote
       MetadataExample.api_metadata false MetadataExample.instance0
       = (Err (KeyError "fields"), MetadataExample.logged)
  /\ existsb is_put (trace MetadataExample.logged)
       = existsb is_put (trace MetadataExample.instance0).
Proof.
  apply (metadata_update_pop_fields_raises Metadata.KodiEmbyMetadata
           MetadataExample.local MetadataExample.remote
           "lidarr.settings.metadata.kodi_emby" MetadataExample.api_metadata false
           MetadataExample.instance0 MetadataExample.logged
           [ ("enable", VBool true) ]).
  - simpl. left. reflexivity.
  - reflexivity.
Defined.

(** ** Sequencing *)

Lemma bind_ok_inv {A B} (m : M A) (f : A -> M B) (w w' : world) (b : B) :
  bind m f w = (Ok b, w') ->
  exists a w1, m w = (Ok a, w1) /\ f a w1 = (Ok b, w').
Proof.
  unfold bind. destruct (m w) as [[a|e] w1]; [eauto | discriminate].
Qed.

Lemma bind_ok {A B} (m : M A) (f : A -> M B) (w w1 : world) (a : A) :
  m w = (Ok a, w1) -> bind m f w = f a w1.
Proof. unfold bind. now intros ->. Qed.

Lemma bind_err {A B} (m : M A) (f : A -> M B) (w w1 : world) (e : exn) :
  m w = (Err e, w1) -> bind m f w = (Err e, w1).
Proof. unfold bind. now intros ->. Qed.

Ltac bind_inv H :=
  let a := fresh "a" in
  let w := fresh "w" in
  let E := fresh "E" in
  apply bind_ok_inv in H; destruct H as (a & w & E & H).

(** ** The orchestrators *)

Section Orchestrators.

Import General.

Lemma resolve_loop_in_sync tree self remote m set_unchanged :
  in_sync m self remote ->
  forall updated acc w,
    exists attrs,
      resolve_loop tree self remote m set_unchanged updated acc w
        = (Ok (updated, attrs), w).
Proof.
  induction m as [|e m IH]; intros Hs updated acc w; simpl.
  - eexists. reflexivity.
  - destruct (Hs e (or_introl eq_refl)) as (lv & rv & ev & Hl & Hr & Heq & Hen).
    munfold. rewrite Hl, Hr, Heq, Hen. simpl.
    assert (Hs' : in_sync m self remote) by (intros e' He'; apply Hs; now right).
    destruct set_unchanged; apply IH; assumption.
Qed.

(** When local and remote are equal and every entry encodes, the
    sub-resolver reports no change and leaves no trace. *)
Lemma in_sync_run cls self remote tree cu w :
  in_sync (remote_map cls) self remote ->
  exists attrs,
    _update_remote_attrs cls self tree remote cu w = (Ok (false, attrs), w).
Proof.
  intros Hs. unfold _update_remote_attrs, get_update_remote_attrs.
  exact (resolve_loop_in_sync tree self remote (remote_map cls) true Hs false [] w).
Qed.

(** When local and remote are equal, a resolver run with
    [set_unchanged = True] encodes every entry in turn and logs nothing:
    it ends with the first encoder that raises. *)
Lemma resolve_loop_agree tree self remote m :
  agree m self remote ->
  forall updated acc w,
    resolve_loop tree self remote m true updated acc w
    = (rbind (Codec.encode_loop m self acc) (fun attrs => Ok (updated, attrs)), w).
Proof.
  induction m as [|e m IH]; intros Hs updated acc w; simpl.
  - reflexivity.
  - destruct (Hs e (or_introl eq_refl)) as (lv & rv & Hl & Hr & Heq).
    assert (Hs' : agree m self remote) by (intros e' He'; apply Hs; now right).
    munfold. rewrite Hl, Hr, Heq. simpl.
    destruct (Codec.encode_entry e self) as [ev|x]; simpl; [|reflexivity].
    apply IH. exact Hs'.
Qed.

(** With no password the security table does not encode: the
    [root_encoder] of [password_confirmation] calls [get_secret_value] on
    [None]. *)
Lemma security_encode_raises (self : obj) (acc : dict) (a u : value) :
  getattr self "authentication" = Ok a ->
  getattr self "username" = Ok u ->
  getattr self "password" = Ok VNone ->
  Codec.encode_loop (remote_map SecurityGeneralSettings) self acc
  = Err (AttributeError "get_secret_value").
Proof.
  intros Ha Hu Hp.
  cbn [remote_map SecurityGeneralSettings Codec.encode_loop].
  unfold Codec.encode_entry, plain.
  cbn [root_encoder encoder local_name remote_name].
  rewrite Ha. cbn [rbind]. rewrite Hu. cbn [rbind Codec.or_empty].
  rewrite Hp. cbn [rbind Codec.secret_or_empty truthy].
  unfold Codec.password_of. rewrite Hp. reflexivity.
Qed.

End Orchestrators.

(** C6.  Local and remote general settings that are equal on every entry
    of the seven tables.  Where every entry encodes, [update_remote]
    returns [False] without any API call: the instance and the trace are
    exactly as before, so nothing is PUT.  Where the password is [None],
    as it is by default, it does not return: the resolver, run with
    [set_unchanged = True], encodes the unchanged [password_confirmation]
    too, whose [root_encoder] raises [AttributeError].  Whatever a
    sub-resolver reports, its [remote_attrs] has a value for the remote
    name of every entry of its table. *)
Theorem general_update_remote_noop :
  (forall (self remote : General.LidarrGeneralSettingsConfig) tree cu w,
      in_sync (remote_map General.HostGeneralSettings)
        (General.host self) (General.host remote) ->
      in_sync (remote_map General.SecurityGeneralSettings)
        (General.security self) (General.security remote) ->
      in_sync (remote_map General.ProxyGeneralSettings)
        (General.proxy self) (General.proxy remote) ->
      in_sync (remote_map General.LoggingGeneralSettings)
        (General.logging self) (General.logging remote) ->
      in_sync (remote_map General.AnalyticsGeneralSettings)
        (General.analytics self) (General.analytics remote) ->
      in_sync (remote_map General.UpdatesGeneralSettings)
        (General.updates self) (General.updates remote) ->
      in_sync (remote_map General.BackupGeneralSettings)
        (General.backup self) (General.backup remote) ->
      General.update_remote self tree remote cu w = (Ok false, w))
  /\ (forall (self remote : General.LidarrGeneralSettingsConfig) tree cu w,
        in_sync (remote_map General.HostGeneralSettings)
          (General.host self) (General.host remote) ->
        agree (remote_map General.SecurityGeneralSettings)
          (General.security self) (General.security remote) ->
        getattr (General.security self) "password" = Ok VNone ->
        General.update_remote self tree remote cu w
        = (Err (AttributeError "get_secret_value"), w))
  /\ (forall cls s t r cu w1 updated attrs w2,
        General._update_remote_attrs cls s t r cu w1 = (Ok (updated, attrs), w2) ->
        forall e, In e (remote_map cls) -> In (remote_name e) (Dict.keys attrs)).
Proof.
  split; [|split].
  - intros self remote tree cu w H1 H2 H3 H4 H5 H6 H7.
    destruct (in_sync_run _ _ _ (tree ++ ".host") cu w H1) as [a1 E1].
    destruct (in_sync_run _ _ _ (tree ++ ".security") cu w H2) as [a2 E2].
    destruct (in_sync_run _ _ _ (tree ++ ".proxy") cu w H3) as [a3 E3].
    destruct (in_sync_run _ _ _ (tree ++ ".logging") cu w H4) as [a4 E4].
    destruct (in_sync_run _ _ _ (tree ++ ".analytics") cu w H5) as [a5 E5].
    destruct (in_sync_run _ _ _ (tree ++ ".updates") cu w H6) as [a6 E6].
    destruct (in_sync_run _ _ _ (tree ++ ".backup") cu w H7) as [a7 E7].
    unfold General.update_remote.
    rewrite (bind_ok _ _ _ _ _ E1). simpl.
    rewrite (bind_ok _ _ _ _ _ E2). simpl.
    rewrite (bind_ok _ _ _ _ _ E3). simpl.
    rewrite (bind_ok _ _ _ _ _ E4). simpl.
    rewrite (bind_ok _ _ _ _ _ E5). simpl.
    rewrite (bind_ok _ _ _ _ _ E6). simpl.
    rewrite (bind_ok _ _ _ _ _ E7). simpl.
    reflexivity.
  - intros self remote tree cu w H1 H2 Hp.
    destruct (in_sync_run _ _ _ (tree ++ ".host") cu w H1) as [a1 E1].
    destruct (H2 (plain "authentication" "authenticationMethod"))
      as (a & _ & Ha & _); [simpl; tauto|].
    destruct (H2 (Entry "username" "username" (Some Codec.or_none)
                    (Some Codec.or_empty) None true))
      as (u & _ & Hu & _); [simpl; tauto|].
    cbn [local_name plain] in Ha, Hu.
    unfold General.update_remote.
    rewrite (bind_ok _ _ _ _ _ E1). simpl.
    apply bind_err.
    unfold General._update_remote_attrs, get_update_remote_attrs.
    rewrite (resolve_loop_agree _ _ _ _ H2).
    now rewrite (security_encode_raises _ _ a u Ha Hu Hp).
  - intros cls s t r cu w1 updated attrs w2 H e He.
    unfold General._update_remote_attrs, get_update_remote_attrs in H.
    eapply resolve_loop_covers; [eassumption|].
    right. now apply in_map.
Qed.

Lemma general_update_remote_noop_witness :
  General.update_remote GeneralExample.config "lidarr.settings.general"
    GeneralExample.config false GeneralExample.instance0
    = (Ok false, GeneralExample.instance0)
  /\ General.update_remote GeneralExample.defaults "lidarr.settings.general"
       GeneralExample.defaults false GeneralExample.instance0
     = (Err (AttributeError "get_secret_value"), GeneralExample.instance0).
Proof.
  split.
  - apply (proj1 general_update_remote_noop GeneralExample.config
             GeneralExample.config "lidarr.settings.general" false
             GeneralExample.instance0);
      intros e He; cbn in He;
      repeat (destruct He as [<-|He];
              [do 3 eexists; repeat split; vm_compute; reflexivity|]);
      contradiction.
  - apply (proj1 (proj2 general_update_remote_noop) GeneralExample.defaults
             GeneralExample.defaults "lidarr.settings.general" false
             GeneralExample.instance0).
    + intros e He; cbn in He;
        repeat (destruct He as [<-|He];
                [do 3 eexists; repeat split; vm_compute; reflexivity|]);
        contradiction.
    + intros e He; cbn in He;
        repeat (destruct He as [<-|He];
                [do 2 eexists; repeat split; vm_compute; reflexivity|]);
        contradiction.
    + reflexivity.
Defined.

Lemma py_any_3 (a b c : bool) : py_any [a; b; c] = a || b || c.
Proof. unfold py_any. simpl. now rewrite orb_false_r, orb_assoc. Qed.

Lemma py_any_7 (a b c d e f g : bool) :
  py_any [a; b; c; d; e; f; g] = a || b || c || d || e || f || g.
Proof. unfold py_any. simpl. rewrite orb_false_r. now rewrite !orb_assoc. Qed.

(** A metadata sub-resolver whose resolver reports an update ends in
    [KeyError], in the world the resolver left. *)
Lemma metadata_changed_raises (c : Metadata.metadata_class) (self remote : obj)
    (tree : string) (api_metadata : dict) (cu : bool) (w w' : world) (attrs : dict) :
  In c Metadata.METADATA_TYPES ->
  get_update_remote_attrs self tree remote
    (Metadata._base_remote_map ++ Metadata._remote_map c) cu true w
    = (Ok (true, attrs), w') ->
  Metadata._update_remote c self tree remote api_metadata cu w
  = (Err (KeyError "fields"), w').
Proof.
  intros Hc H.
  assert (Hmap : Metadata._base_remote_map ++ Metadata._remote_map c
                 = [plain "enable" "enable"]).
  { simpl in Hc. destruct Hc as [<-|[<-|[<-|[]]]]; reflexivity. }
  assert (Hnone : Dict.get "fields" attrs = None).
  { apply dict_get_none_keys. intros Hin.
    unfold get_update_remote_attrs in H.
    destruct (resolve_loop_keys _ _ _ _ _ _ _ _ _ _ _ H _ Hin) as [[]|Hin'].
    rewrite Hmap in Hin'. simpl in Hin'. destruct Hin' as [E|[]]. discriminate. }
  unfold Metadata._update_remote, bind. rewrite H.
  unfold lift, Metadata.pop. now rewrite Hnone.
Qed.

(** A metadata sub-resolver never returns [True]. *)
Lemma metadata_update_returns_false (c : Metadata.metadata_class) (self remote : obj)
    (tree : string) (api_metadata : dict) (cu : bool) (w w' : world) (b : bool) :
  In c Metadata.METADATA_TYPES ->
  Metadata._update_remote c self tree remote api_metadata cu w = (Ok b, w') ->
  b = false.
Proof.
  intros Hc H.
  destruct (get_update_remote_attrs self tree remote
              (Metadata._base_remote_map ++ Metadata._remote_map c) cu true w)
    as [[[[|] attrs]|x] w1] eqn:E.
  - rewrite (metadata_changed_raises _ _ _ _ api_metadata _ _ _ _ Hc E) in H.
    discriminate.
  - unfold Metadata._update_remote, bind in H. rewrite E in H.
    unfold ret in H. now inversion H.
  - unfold Metadata._update_remote, bind in H. rewrite E in H. discriminate.
Qed.

(** C7.  The general and the media management settings run every
    sub-resolver, one after the other, each on the instance as the one
    before left it and whatever the ones before reported, and return the
    disjunction of the results: for the general settings after the one
    fetch and PUT that a change calls for.  The metadata settings do so
    only while nothing changes: a sub-resolver that finds a change raises
    [KeyError] (see C3), the ones after it are not run, and [True] is
    never returned. *)
Theorem update_remote_runs_every_resolver :
  (forall self tree remote cu w
          u1 a1 w1 u2 a2 w2 u3 a3 w3 u4 a4 w4 u5 a5 w5 u6 a6 w6 u7 a7 w7,
      General._update_remote_attrs General.HostGeneralSettings
        (General.host self) (tree ++ ".host") (General.host remote) cu w
        = (Ok (u1, a1), w1) ->
      General._update_remote_attrs General.SecurityGeneralSettings
        (General.security self) (tree ++ ".security") (General.security remote) cu w1
        = (Ok (u2, a2), w2) ->
      General._update_remote_attrs General.ProxyGeneralSettings
        (General.proxy self) (tree ++ ".proxy") (General.proxy remote) cu w2
        = (Ok (u3, a3), w3) ->
      General._update_remote_attrs General.LoggingGeneralSettings
        (General.logging self) (tree ++ ".logging") (General.logging remote) cu w3
        = (Ok (u4, a4), w4) ->
      General._update_remote_attrs General.AnalyticsGeneralSettings
        (General.analytics self) (tree ++ ".analytics") (General.analytics remote) cu w4
        = (Ok (u5, a5), w5) ->
      General._update_remote_attrs General.UpdatesGeneralSettings
        (General.updates self) (tree ++ ".updates") (General.updates remote) cu w5
        = (Ok (u6, a6), w6) ->
      General._update_remote_attrs General.BackupGeneralSettings
        (General.backup self) (tree ++ ".backup") (General.backup remote) cu w6
        = (Ok (u7, a7), w7) ->
      General.update_remote self tree remote cu w
      = (if u1 || u2 || u3 || u4 || u5 || u6 || u7
         then general_put a1 a2 a3 a4 a5 a6 a7
         else ret false) w7)
  /\ (forall a1 a2 a3 a4 a5 a6 a7 w b w',
        general_put a1 a2 a3 a4 a5 a6 a7 w = (Ok b, w') -> b = true)
  /\ (forall self tree remote cu w b w',
        General.update_remote self tree remote cu w = (Ok b, w') ->
        exists u1 a1 w1 u2 a2 w2 u3 a3 w3 u4 a4 w4 u5 a5 w5 u6 a6 w6 u7 a7 w7,
          General._update_remote_attrs General.HostGeneralSettings
            (General.host self) (tree ++ ".host") (General.host remote) cu w
            = (Ok (u1, a1), w1)
          /\ General._update_remote_attrs General.SecurityGeneralSettings
               (General.security self) (tree ++ ".security") (General.security remote) cu w1
               = (Ok (u2, a2), w2)
          /\ General._update_remote_attrs General.ProxyGeneralSettings
               (General.proxy self) (tree ++ ".proxy") (General.proxy remote) cu w2
               = (Ok (u3, a3), w3)
          /\ General._update_remote_attrs General.LoggingGeneralSettings
               (General.logging self) (tree ++ ".logging") (General.logging remote) cu w3
               = (Ok (u4, a4), w4)
          /\ General._update_remote_attrs General.AnalyticsGeneralSettings
               (General.analytics self) (tree ++ ".analytics") (General.analytics remote) cu w4
               = (Ok (u5, a5), w5)
          /\ General._update_remote_attrs General.UpdatesGeneralSettings
               (General.updates self) (tree ++ ".updates") (General.updates remote) cu w5
               = (Ok (u6, a6), w6)
          /\ General._update_remote_attrs General.BackupGeneralSettings
               (General.backup self) (tree ++ ".backup") (General.backup remote) cu w6
               = (Ok (u7, a7), w7)
          /\ b = u1 || u2 || u3 || u4 || u5 || u6 || u7)
  /\ (forall self tree remote cu w b w',
        MediaManagement.update_remote self tree remote cu w = (Ok b, w') <->
        exists b1 w1 b2 w2 b3,
          MediaManagement._update_remote_naming self tree remote cu w = (Ok b1, w1)
          /\ MediaManagement._update_remote_mediamanagement self tree remote cu w1
               = (Ok b2, w2)
          /\ MediaManagement._update_remote_rootfolder self
               (tree ++ ".root_folders") remote cu w2 = (Ok b3, w')
          /\ b = b1 || b2 || b3)
  /\ (forall self tree remote cu w b w',
        Metadata.update_remote self tree remote cu w = (Ok b, w') <->
        exists k r x w0 kd rd xd w1 w2,
          Metadata.fetch w = (Ok (k, r, x), w0)
          /\ as_dict k = Ok kd /\ as_dict r = Ok rd /\ as_dict x = Ok xd
          /\ Metadata._update_remote Metadata.KodiEmbyMetadata
               (Metadata.kodi_emby self) (tree ++ ".kodi_emby")
               (Metadata.kodi_emby remote) kd cu w0 = (Ok false, w1)
          /\ Metadata._update_remote Metadata.RoksboxMetadata
               (Metadata.roksbox self) (tree ++ ".roksbox")
               (Metadata.roksbox remote) rd cu w1 = (Ok false, w2)
          /\ Metadata._update_remote Metadata.WdtvMetadata
               (Metadata.wdtv self) (tree ++ ".wdtv")
               (Metadata.wdtv remote) xd cu w2 = (Ok false, w')
          /\ b = false)
  /\ (forall self tree remote cu w k r x w0 kd attrs w1,
        Metadata.fetch w = (Ok (k, r, x), w0) ->
        as_dict k = Ok kd ->
        get_update_remote_attrs (Metadata.kodi_emby self) (tree ++ ".kodi_emby")
          (Metadata.kodi_emby remote)
          (Metadata._base_remote_map ++ Metadata._remote_map Metadata.KodiEmbyMetadata)
          cu true w0 = (Ok (true, attrs), w1) ->
        Metadata.update_remote self tree remote cu w
        = (Err (KeyError "fields"), w1)).
Proof.
  split; [|split; [|split; [|split; [|split]]]].
  - intros self tree remote cu w u1 a1 w1 u2 a2 w2 u3 a3 w3 u4 a4 w4 u5 a5 w5
      u6 a6 w6 u7 a7 w7 E1 E2 E3 E4 E5 E6 E7.
    unfold General.update_remote.
    rewrite (bind_ok _ _ _ _ _ E1). cbv beta iota.
    rewrite (bind_ok _ _ _ _ _ E2). cbv beta iota.
    rewrite (bind_ok _ _ _ _ _ E3). cbv beta iota.
    rewrite (bind_ok _ _ _ _ _ E4). cbv beta iota.
    rewrite (bind_ok _ _ _ _ _ E5). cbv beta iota.
    rewrite (bind_ok _ _ _ _ _ E6). cbv beta iota.
    rewrite (bind_ok _ _ _ _ _ E7). cbv beta iota.
    rewrite py_any_7. reflexivity.
  - intros a1 a2 a3 a4 a5 a6 a7 w b w' H. unfold general_put in H.
    do 4 bind_inv H. unfold ret in H. now inversion H.
  - intros self tree remote cu w b w' H.
    unfold General.update_remote in H.
    bind_inv H. destruct a as [u1 a1].
    bind_inv H. destruct a as [u2 a2].
    bind_inv H. destruct a as [u3 a3].
    bind_inv H. destruct a as [u4 a4].
    bind_inv H. destruct a as [u5 a5].
    bind_inv H. destruct a as [u6 a6].
    bind_inv H. destruct a as [u7 a7].
    exists u1, a1, w0, u2, a2, w1, u3, a3, w2, u4, a4, w3, u5, a5, w4,
      u6, a6, w5, u7, a7, w6.
    repeat (split; [assumption|]).
    rewrite <- py_any_7.
    destruct (py_any [u1; u2; u3; u4; u5; u6; u7]).
    + do 4 bind_inv H. unfold ret in H. now inversion H.
    + unfold ret in H. now inversion H.
  - intros self tree remote cu w b w'. unfold MediaManagement.update_remote. split.
    + intros H. bind_inv H. bind_inv H. bind_inv H.
      unfold ret in H. inversion H; subst.
      exists a, w0, a0, w1, a1. repeat split; auto. apply py_any_3.
    + intros (b1 & w1 & b2 & w2 & b3 & H1 & H2 & H3 & ->).
      rewrite (bind_ok _ _ _ _ _ H1), (bind_ok _ _ _ _ _ H2), (bind_ok _ _ _ _ _ H3).
      unfold ret. now rewrite py_any_3.
  - intros self tree remote cu w b w'. unfold Metadata.update_remote. split.
    + intros H. bind_inv H. destruct a as [[k r] x].
      bind_inv H. bind_inv H. bind_inv H. bind_inv H. bind_inv H. bind_inv H.
      unfold ret in H. inversion H; subst.
      unfold lift in *.
      repeat match goal with
             | E : (_, _) = (Ok _, _) |- _ => inversion E; subst; clear E
             end.
      repeat match goal with
             | E : Metadata._update_remote ?c _ _ _ _ _ _ = (Ok ?u, _) |- _ =>
                 is_var u;
                 assert (u = false)
                   by (eapply (metadata_update_returns_false c); [|exact E];
                       simpl; tauto);
                 subst u
             end.
      exists k, r, x. do 6 eexists.
      repeat split; eassumption.
    + intros (k & r & x & w0 & kd & rd & xd & w1 & w2
              & Hf & Hk & Hr & Hx & H1 & H2 & H3 & ->).
      rewrite (bind_ok _ _ _ _ _ Hf). simpl.
      unfold lift at 1. unfold bind at 1. rewrite Hk.
      rewrite (bind_ok _ _ _ _ _ H1).
      unfold lift at 1. unfold bind at 1. rewrite Hr.
      rewrite (bind_ok _ _ _ _ _ H2).
      unfold lift at 1. unfold bind at 1. rewrite Hx.
      rewrite (bind_ok _ _ _ _ _ H3).
      reflexivity.
  - intros self tree remote cu w k r x w0 kd attrs w1 Hf Hk H.
    unfold Metadata.update_remote.
    rewrite (bind_ok _ _ _ _ _ Hf). simpl.
    unfold lift at 1. unfold bind at 1. rewrite Hk.
    apply bind_err.
    apply (metadata_changed_raises Metadata.KodiEmbyMetadata _ _ _ _ _ _ _ attrs);
      [simpl; tauto | exact H].
Qed.

Lemma update_remote_runs_every_resolver_witness :
  (exists w',
      General.update_remote GeneralExample.config "lidarr.settings.general"
        GeneralExample.defaults false GeneralExample.instance0 = (Ok true, w')
      /\ existsb is_put (trace w') = true)
  /\ (exists w',
        MediaManagement.update_remote MediaExample.local
          "lidarr.settings.media_management" MediaExample.remote false
          MediaExample.instance0 = (Ok true, w')
        /\ posts_to MediaManagement.rootfolder_path (trace w')
             = [ MediaManagement.rootfolder_body "/music" ])
  /\ Metadata.update_remote MetadataChange.local "lidarr.settings.metadata"
       MetadataChange.remote false MetadataChange.instance0
     = (Err (KeyError "fields"), MetadataChange.stopped).
Proof.
  split; [|split].
  - eexists. split.
    + eapply eq_trans.
      * eapply (proj1 update_remote_runs_every_resolver
                  GeneralExample.config "lidarr.settings.general"
                  GeneralExample.defaults false GeneralExample.instance0);
          vm_compute; reflexivity.
      * vm_compute. reflexivity.
    + reflexivity.
  - eexists. split.
    + apply (proj2 (proj1 (proj2 (proj2 (proj2 update_remote_runs_every_resolver)))
                      MediaExample.local "lidarr.settings.media_management"
                      MediaExample.remote false MediaExample.instance0 true _)).
      exists true. eexists. exists false. eexists. exists true.
      split; [vm_compute; reflexivity|].
      split; [vm_compute; reflexivity|].
      split; [vm_compute; reflexivity|].
      reflexivity.
    + reflexivity.
  - apply (proj2 (proj2 (proj2 (proj2 (proj2 update_remote_runs_every_resolver))))
             MetadataChange.local "lidarr.settings.metadata" MetadataChange.remote
             false MetadataChange.instance0
             MetadataCorrupt.kodi MetadataCorrupt.roksbox MetadataCorrupt.wdtv
             (called (ApiGet Metadata.metadata_path) MetadataChange.instance0)
             MetadataExample.api_metadata [ ("enable", VBool true) ]
             MetadataChange.stopped);
      reflexivity.
Defined.

(** ** Metadata: the three resources must be there *)

Lemma py_eq_str (v : value) (s : string) : py_eq v (VStr s) = true -> v = VStr s.
Proof.
  destruct v; simpl; try discriminate.
  intros H. apply String.eqb_eq in H. now subst.
Qed.

Lemma pick_spec (items : list value) :
  metadata_resources items ->
  forall k r x,
    exists k' r' x',
      Metadata.pick items k r x = Ok (k', r', x')
      /\ (k' = None <-> k = None /\ has_implementation "XbmcMetadata" items = false)
      /\ (r' = None <-> r = None /\ has_implementation "RoksboxMetadata" items = false)
      /\ (x' = None <-> x = None /\ has_implementation "WdtvMetadata" items = false).
Proof.
  induction 1 as [|m items [v Hv] _ IH]; intros k r x.
  - exists k, r, x. simpl. intuition.
  - simpl. rewrite Hv. simpl.
    destruct (py_eq v (VStr "XbmcMetadata")) eqn:E1.
    { apply py_eq_str in E1. subst v. simpl.
      destruct (IH (Some m) r x) as (k' & r' & x' & -> & Hk & Hr & Hx).
      exists k', r', x'. split; [reflexivity|].
      intuition; discriminate. }
    destruct (py_eq v (VStr "RoksboxMetadata")) eqn:E2.
    { apply py_eq_str in E2. subst v. simpl.
      destruct (IH k (Some m) x) as (k' & r' & x' & -> & Hk & Hr & Hx).
      exists k', r', x'. split; [reflexivity|].
      intuition; discriminate. }
    destruct (py_eq v (VStr "WdtvMetadata")) eqn:E3.
    { apply py_eq_str in E3. subst v. simpl.
      destruct (IH k r (Some m)) as (k' & r' & x' & -> & Hk & Hr & Hx).
      exists k', r', x'. split; [reflexivity|].
      intuition; discriminate. }
    simpl.
    destruct (IH k r x) as (k' & r' & x' & -> & Hk & Hr & Hx).
    exists k', r', x'. split; [reflexivity|]. intuition.
Qed.

(** The outcome of the shared fetch when the GET answers with [items]. *)
Lemma fetch_spec (w w0 : world) (items : list value) :
  api_get Metadata.metadata_path w = (Ok (VList items), w0) ->
  metadata_resources items ->
  (has_implementation "XbmcMetadata" items = false ->
     Metadata.fetch w = (Err (RuntimeError Metadata.kodi_emby_missing), w0))
  /\ (has_implementation "XbmcMetadata" items = true ->
      has_implementation "RoksboxMetadata" items = false ->
        Metadata.fetch w = (Err (RuntimeError Metadata.roksbox_missing), w0))
  /\ (has_implementation "XbmcMetadata" items = true ->
      has_implementation "RoksboxMetadata" items = true ->
      has_implementation "WdtvMetadata" items = false ->
        Metadata.fetch w = (Err (RuntimeError Metadata.wdtv_missing), w0))
  /\ (has_implementation "XbmcMetadata" items = true ->
      has_implementation "RoksboxMetadata" items = true ->
      has_implementation "WdtvMetadata" items = true ->
        exists k r x, Metadata.fetch w = (Ok (k, r, x), w0)).
Proof.
  intros Hget Hwf.
  destruct (pick_spec items Hwf None None None) as (k & r & x & Hp & Hk & Hr & Hx).
  assert (Hf : Metadata.fetch w
               = match (k, r, x) with
                 | (None, _, _) => (Err (RuntimeError Metadata.kodi_emby_missing), w0)
                 | (Some _, None, _) => (Err (RuntimeError Metadata.roksbox_missing), w0)
                 | (Some _, Some _, None) => (Err (RuntimeError Metadata.wdtv_missing), w0)
                 | (Some k0, Some r0, Some x0) => (Ok (k0, r0, x0), w0)
                 end).
  { unfold Metadata.fetch. rewrite (bind_ok _ _ _ _ _ Hget).
    unfold bind, lift. simpl. rewrite Hp.
    destruct k, r, x; reflexivity. }
  rewrite Hf. clear Hf Hp Hget.
  repeat split.
  - intros H1. destruct k as [k0|]; [|reflexivity].
    assert (Some k0 = None) by (apply Hk; auto). discriminate.
  - intros H1 H2. destruct k as [k0|].
    + destruct r as [r0|]; [|reflexivity].
      assert (Some r0 = None) by (apply Hr; auto). discriminate.
    + destruct (proj1 Hk eq_refl). congruence.
  - intros H1 H2 H3. destruct k as [k0|].
    + destruct r as [r0|].
      * destruct x as [x0|]; [|reflexivity].
        assert (Some x0 = None) by (apply Hx; auto). discriminate.
      * destruct (proj1 Hr eq_refl). congruence.
    + destruct (proj1 Hk eq_refl). congruence.
  - intros H1 H2 H3. destruct k as [k0|].
    + destruct r as [r0|].
      * destruct x as [x0|]; [eauto|].
        destruct (proj1 Hx eq_refl). congruence.
      * destruct (proj1 Hr eq_refl). congruence.
    + destruct (proj1 Hk eq_refl). congruence.
Qed.

Lemma metadata_from_remote_no_runtime_error (c : Metadata.metadata_class) (d : dict) :
  In c Metadata.METADATA_TYPES ->
  is_runtime_error (Metadata._from_remote c d) = false.
Proof.
  intros Hc. simpl in Hc. destruct Hc as [<-|[<-|[<-|[]]]];
    unfold Metadata._from_remote, Codec.get_local_attrs; simpl;
    destruct (Dict.get "enable" d); reflexivity.
Qed.

Lemma getattr_err (o : obj) (name : string) (e : exn) :
  getattr o name = Err e -> e = AttributeError name.
Proof. unfold getattr. destruct (Dict.get name o); congruence. Qed.

Lemma metadata_update_no_runtime_error (c : Metadata.metadata_class)
    (self remote : obj) (tree : string) (api_metadata : dict) (cu : bool) (w : world) :
  In c Metadata.METADATA_TYPES ->
  is_runtime_error (fst (Metadata._update_remote c self tree remote api_metadata cu w))
    = false.
Proof.
  intros Hc. simpl in Hc. destruct Hc as [<-|[<-|[<-|[]]]];
    unfold Metadata._update_remote, get_update_remote_attrs; simpl;
    munfold; unfold Codec.encode_entry; simpl;
    (destruct (getattr self "enable") as [lv|] eqn:El; simpl;
       [|apply getattr_err in El; subst; reflexivity]);
    (destruct (getattr remote "enable") as [rv|] eqn:Er; simpl;
       [|apply getattr_err in Er; subst; reflexivity]);
    destruct (py_eq lv rv); reflexivity.
Qed.

(** C8.  When the GET of the metadata list answers with a list of metadata
    resources that lacks an entry for [XbmcMetadata], [RoksboxMetadata] or
    [WdtvMetadata], both [from_remote] and [update_remote] raise the
    [RuntimeError] that reports a corrupt database, having made that one
    GET and no write; when all three entries are there, neither raises a
    [RuntimeError]. *)
Theorem metadata_missing_implementation_is_fatal
    (self remote : Metadata.LidarrMetadataSettingsConfig) (tree : string)
    (check_unmanaged : bool) (w w0 : world) (items : list value) :
  api_get Metadata.metadata_path w = (Ok (VList items), w0) ->
  metadata_resources items ->
  (has_implementation "XbmcMetadata" items = false
   \/ has_implementation "RoksboxMetadata" items = false
   \/ has_implementation "WdtvMetadata" items = false ->
   exists msg,
     In msg [ Metadata.kodi_emby_missing; Metadata.roksbox_missing;
              Metadata.wdtv_missing ]
     /\ Metadata.from_remote w = (Err (RuntimeError msg), w0)
     /\ Metadata.update_remote self tree remote check_unmanaged w
          = (Err (RuntimeError msg), w0)
     /\ trace w0 = trace w ++ [ ApiGet Metadata.metadata_path ])
  /\ (has_implementation "XbmcMetadata" items = true ->
      has_implementation "RoksboxMetadata" items = true ->
      has_implementation "WdtvMetadata" items = true ->
      is_runtime_error (fst (Metadata.from_remote w)) = false
      /\ is_runtime_error
           (fst (Metadata.update_remote self tree remote check_unmanaged w)) = false).
Proof.
  intros Hget Hwf.
  destruct (fetch_spec w w0 items Hget Hwf) as (F1 & F2 & F3 & F4).
  assert (Htrace : trace w0 = trace w ++ [ ApiGet Metadata.metadata_path ]).
  { revert Hget. unfold api_get, bind, emit, Api.respond, Api.read. simpl.
    destruct (faults w) as [|[st|] fs]; simpl;
      try discriminate;
      destruct (Dict.get Metadata.metadata_path (store w)); simpl;
      intros E; inversion E; reflexivity. }
  split.
  - intros Hmiss.
    assert (exists msg,
               In msg [ Metadata.kodi_emby_missing; Metadata.roksbox_missing;
                        Metadata.wdtv_missing ]
               /\ Metadata.fetch w = (Err (RuntimeError msg), w0)) as (msg & Hin & Hf).
    { destruct (has_implementation "XbmcMetadata" items) eqn:E1.
      - destruct (has_implementation "RoksboxMetadata" items) eqn:E2.
        + destruct (has_implementation "WdtvMetadata" items) eqn:E3.
          * destruct Hmiss as [H|[H|H]]; discriminate.
          * eexists. split; [|apply F3; reflexivity]. simpl; auto.
        + eexists. split; [|apply F2; reflexivity]. simpl; auto.
      - eexists. split; [|apply F1; reflexivity]. simpl; auto. }
    exists msg. split; [exact Hin|].
    unfold Metadata.from_remote, Metadata.update_remote.
    rewrite !(bind_err _ _ _ _ _ Hf). auto.
  - intros H1 H2 H3. destruct (F4 H1 H2 H3) as (k & r & x & Hf).
    split.
    + unfold Metadata.from_remote. rewrite (bind_ok _ _ _ _ _ Hf). simpl.
      unfold bind, lift, ret.
      destruct (as_dict k) as [kd|] eqn:Ek; simpl.
      2:{ destruct k; simpl in Ek; inversion Ek; reflexivity. }
      pose proof (metadata_from_remote_no_runtime_error Metadata.KodiEmbyMetadata kd
                    (or_introl eq_refl)) as N1.
      destruct (Metadata._from_remote Metadata.KodiEmbyMetadata kd); [|exact N1].
      destruct (as_dict r) as [rd|] eqn:Er; simpl.
      2:{ destruct r; simpl in Er; inversion Er; reflexivity. }
      pose proof (metadata_from_remote_no_runtime_error Metadata.RoksboxMetadata rd
                    (or_intror (or_introl eq_refl))) as N2.
      destruct (Metadata._from_remote Metadata.RoksboxMetadata rd); [|exact N2].
      destruct (as_dict x) as [xd|] eqn:Ex; simpl.
      2:{ destruct x; simpl in Ex; inversion Ex; reflexivity. }
      pose proof (metadata_from_remote_no_runtime_error Metadata.WdtvMetadata xd
                    (or_intror (or_intror (or_introl eq_refl)))) as N3.
      destruct (Metadata._from_remote Metadata.WdtvMetadata xd); [reflexivity|exact N3].
    + unfold Metadata.update_remote. rewrite (bind_ok _ _ _ _ _ Hf). simpl.
      unfold bind at 1. unfold lift at 1.
      destruct (as_dict k) as [kd|] eqn:Ek; simpl.
      2:{ destruct k; simpl in Ek; inversion Ek; reflexivity. }
      unfold bind at 1.
      pose proof (metadata_update_no_runtime_error Metadata.KodiEmbyMetadata
                    (Metadata.kodi_emby self) (Metadata.kodi_emby remote)
                    (tree ++ ".kodi_emby") kd check_unmanaged w0
                    (or_introl eq_refl)) as N1.
      destruct (Metadata._update_remote Metadata.KodiEmbyMetadata _ _ _ _ _ w0)
        as [[b1|e1] w1]; [|exact N1].
      unfold bind at 1. unfold lift at 1.
      destruct (as_dict r) as [rd|] eqn:Er; simpl.
      2:{ destruct r; simpl in Er; inversion Er; reflexivity. }
      unfold bind at 1.
      pose proof (metadata_update_no_runtime_error Metadata.RoksboxMetadata
                    (Metadata.roksbox self) (Metadata.roksbox remote)
                    (tree ++ ".roksbox") rd check_unmanaged w1
                    (or_intror (or_introl eq_refl))) as N2.
      destruct (Metadata._update_remote Metadata.RoksboxMetadata _ _ _ _ _ w1)
        as [[b2|e2] w2]; [|exact N2].
      unfold bind at 1. unfold lift at 1.
      destruct (as_dict x) as [xd|] eqn:Ex; simpl.
      2:{ destruct x; simpl in Ex; inversion Ex; reflexivity. }
      unfold bind at 1.
      pose proof (metadata_update_no_runtime_error Metadata.WdtvMetadata
                    (Metadata.wdtv self) (Metadata.wdtv remote)
                    (tree ++ ".wdtv") xd check_unmanaged w2
                    (or_intror (or_intror (or_introl eq_refl)))) as N3.
      destruct (Metadata._update_remote Metadata.WdtvMetadata _ _ _ _ _ w2)
        as [[b3|e3] w3]; [reflexivity|exact N3].
Qed.

Lemma metadata_missing_implementation_is_fatal_witness :
  exists msg,
    In msg [ Metadata.kodi_emby_missing; Metadata.roksbox_missing;
             Metadata.wdtv_missing ]
    /\ Metadata.from_remote MetadataCorrupt.instance0
         = (Err (RuntimeError msg), MetadataCorrupt.fetched)
    /\ Metadata.update_remote MetadataCorrupt.local "lidarr.settings.metadata"
         MetadataCorrupt.remote false MetadataCorrupt.instance0
         = (Err (RuntimeError msg), MetadataCorrupt.fetched)
    /\ trace MetadataCorrupt.fetched
         = trace MetadataCorrupt.instance0 ++ [ ApiGet Metadata.metadata_path ].
Proof.
  refine (proj1 (metadata_missing_implementation_is_fatal
                   MetadataCorrupt.local MetadataCorrupt.remote
                   "lidarr.settings.metadata" false
                   MetadataCorrupt.instance0 MetadataCorrupt.fetched
                   [ MetadataCorrupt.kodi; MetadataCorrupt.roksbox ] _ _) _).
  - reflexivity.
  - repeat constructor; eexists; reflexivity.
  - right. right. reflexivity.
Defined.

(** ** Decoding a remote object *)



Lemma NoDup_map_inj {A B} (f : A -> B) (l : list A) (x y : A) :
  NoDup (map f l) -> In x l -> In y l -> f x = f y -> x = y.
Proof.
  induction l as [|a l IH]; simpl; intros Hnd Hx Hy Hf; [contradiction|].
  inversion Hnd as [|? ? Hnotin Hnd']; subst.
  destruct Hx as [->|Hx], Hy as [->|Hy]; auto.
  - exfalso. apply Hnotin. rewrite Hf. now apply in_map.
  - exfalso. apply Hnotin. rewrite <- Hf. now apply in_map.
Qed.

Lemma getattr_construct (c : settings_class) (attrs : dict) (name : string) (f : field) :
  find_field c name = Some f ->
  getattr (construct c attrs) name
    = Ok (match Dict.get name attrs with
          | Some v => coerce (fty f) v
          | None => fdefault f
          end).
Proof.
  unfold find_field, construct, getattr.
  induction (fields c) as [|f0 fs IH]; simpl; [discriminate|].
  rewrite (String.eqb_sym name (fname f0)).
  destruct (String.eqb_spec (fname f0) name) as [<-|Hne].
  - intros E. inversion E; subst. reflexivity.
  - exact IH.
Qed.




(** ** One API call *)

Lemma api_get_run (path : string) (w : world) :
  api_get path w
  = match fst (next_fault (faults w)) with
    | Some status => (Err (api_error status), called (ApiGet path) w)
    | None =>
        (match Dict.get path (store w) with
         | Some v => Ok v
         | None => Err (LidarrAPIError "Not Found" 404)
         end, called (ApiGet path) w)
    end.
Proof.
  unfold api_get, bind, emit, Api.respond, Api.read, called. simpl.
  destruct (faults w) as [|[st|] fs]; simpl;
    try reflexivity; destruct (Dict.get path (store w)); reflexivity.
Qed.

Lemma api_post_run (path : string) (body : dict) (w : world) (l : list value) :
  Dict.get path (store w) = Some (VList l) ->
  api_post path body w
  = match fst (next_fault (faults w)) with
    | Some status => (Err (api_error status), called (ApiPost path body) w)
    | None =>
        let created := VDict (Dict.set "id" (VInt (next_id w)) body) in
        (Ok created,
         World (Dict.set path (VList (l ++ [created])) (store w))
               (next_id w + 1)
               (snd (next_fault (faults w)))
               (trace w ++ [ApiPost path body]))
    end.
Proof.
  intros Hget.
  unfold api_post, bind, emit, Api.respond, Api.read, Api.fresh_id, Api.write,
    ret, called. simpl.
  destruct (faults w) as [|[st|] fs]; simpl; try reflexivity;
    rewrite Hget; reflexivity.
Qed.

Lemma api_delete_run (path : string) (id : value) (w : world) (l : list value) :
  Dict.get path (store w) = Some (VList l) ->
  api_delete path id w
  = match fst (next_fault (faults w)) with
    | Some status => (Err (api_error status), called (ApiDelete path id) w)
    | None =>
        (Ok tt,
         World (Dict.set path (VList (filter (fun r => negb (Api.has_id id r)) l))
                  (store w))
               (next_id w)
               (snd (next_fault (faults w)))
               (trace w ++ [ApiDelete path id]))
    end.
Proof.
  intros Hget.
  unfold api_delete, bind, emit, Api.respond, Api.read, Api.write, ret, called.
  simpl.
  destruct (faults w) as [|[st|] fs]; simpl; try reflexivity;
    rewrite Hget; reflexivity.
Qed.

Lemma posts_to_app (path : string) (t1 t2 : list event) :
  posts_to path (t1 ++ t2) = posts_to path t1 ++ posts_to path t2.
Proof. unfold posts_to. apply flat_map_app. Qed.

Lemma dict_get_set_same (k : string) (v : value) (d : dict) :
  Dict.get k (Dict.set k v d) = Some v.
Proof. now rewrite dict_get_set, String.eqb_refl. Qed.

Lemma dict_get_set_other (k k' : string) (v : value) (d : dict) :
  k <> k' -> Dict.get k (Dict.set k' v d) = Dict.get k d.
Proof.
  intros Hne. rewrite dict_get_set.
  destruct (String.eqb_spec k k'); [contradiction | reflexivity].
Qed.

(** ** Tags: the creation loop *)

Section TagLoop.

Variables (tree : string) (current : dict).

(** Without a failing call: every absent tag is created, in the order of
    the list, and the loop reports whether there was one. *)
Lemma tags_create_missing_ok (todo : list (Z * string)) :
  forall changed w items,
    Dict.get Tags.tag_path (store w) = Some (VList items) ->
    faults w = [] ->
    exists w',
      Tags.create_missing tree current todo changed w
        = (Ok (changed || nonempty (absent current (map snd todo))), w')
      /\ Dict.get Tags.tag_path (store w')
           = Some (VList (items ++ created_tags (next_id w)
                                     (absent current (map snd todo))))
      /\ faults w' = []
      /\ posts_to Tags.tag_path (trace w')
           = posts_to Tags.tag_path (trace w)
               ++ map tag_body (absent current (map snd todo)).
Proof.
  induction todo as [|[i tag] todo IH]; intros changed w items Hget Hf.
  - exists w. simpl. unfold ret.
    rewrite orb_false_r, !app_nil_r. auto.
  - simpl. unfold absent in *. simpl.
    destruct (Dict.mem tag current) eqn:Em; simpl.
    + unfold log, emit, bind at 1. simpl.
      destruct (IH changed
                  (World (store w) (next_id w) (faults w)
                     (trace w ++ [Log DEBUG (tree ++ ".definitions") (Some i)
                                    (VStr tag) Exists]))
                  items Hget Hf) as (w' & Hrun & Hst & Hfs & Hps).
      exists w'. simpl in *. rewrite Hrun. repeat split; auto.
      rewrite Hps, posts_to_app. simpl. now rewrite app_nil_r.
    + unfold log, emit, bind at 1. simpl.
      unfold bind at 1.
      erewrite api_post_run by (simpl; exact Hget).
      simpl. rewrite Hf. simpl.
      match goal with
      | |- context [Tags.create_missing _ _ _ true ?W] =>
          destruct (IH true W (items ++ [created_tag (next_id w) tag])) as
            (w' & Hrun & Hst & Hfs & Hps)
      end.
      { simpl. apply dict_get_set_same. }
      { reflexivity. }
      exists w'. simpl in *. rewrite Hrun.
      rewrite orb_true_r. repeat split; auto.
      * rewrite Hst, <- app_assoc. reflexivity.
      * rewrite Hps, !posts_to_app. simpl. rewrite <- !app_assoc. reflexivity.
Qed.

End TagLoop.

Section TagLoopFailure.

Variables (tree : string) (current : dict).

(** With a failing POST: the error comes out of the loop, the tags created
    before it are on the instance, and no call follows the failed one. *)
Lemma tags_create_missing_fail (todo : list (Z * string)) :
  forall changed w items j status rest,
    Dict.get Tags.tag_path (store w) = Some (VList items) ->
    faults w = repeat None j ++ Some status :: rest ->
    (j < length (absent current (map snd todo)))%nat ->
    exists w',
      Tags.create_missing tree current todo changed w = (Err (api_error status), w')
      /\ Dict.get Tags.tag_path (store w')
           = Some (VList (items ++ created_tags (next_id w)
                                     (firstn j (absent current (map snd todo)))))
      /\ faults w' = rest
      /\ posts_to Tags.tag_path (trace w')
           = posts_to Tags.tag_path (trace w)
               ++ map tag_body (firstn (S j) (absent current (map snd todo))).
Proof.
  induction todo as [|[i tag] todo IH]; intros changed w items j status rest Hget Hf Hj.
  - simpl in Hj. lia.
  - simpl. unfold absent in *. simpl in *.
    destruct (Dict.mem tag current) eqn:Em; simpl in *.
    + unfold log, emit, bind at 1. simpl.
      destruct (IH changed
                  (World (store w) (next_id w) (faults w)
                     (trace w ++ [Log DEBUG (tree ++ ".definitions") (Some i)
                                    (VStr tag) Exists]))
                  items j status rest Hget Hf Hj) as (w' & Hrun & Hst & Hfs & Hps).
      exists w'. simpl in *. rewrite Hrun. repeat split; auto.
      rewrite Hps, posts_to_app. simpl. now rewrite app_nil_r.
    + unfold log, emit, bind at 1. simpl.
      unfold bind at 1.
      erewrite api_post_run by (simpl; exact Hget).
      simpl. rewrite Hf.
      destruct j as [|j]; simpl.
      * eexists. split; [reflexivity|]. simpl.
        rewrite app_nil_r, !posts_to_app. simpl.
        rewrite <- app_assoc. auto.
      * match goal with
        | |- context [Tags.create_missing _ _ _ true ?W] =>
            destruct (IH true W (items ++ [created_tag (next_id w) tag])
                        j status rest) as (w' & Hrun & Hst & Hfs & Hps)
        end.
        { simpl. apply dict_get_set_same. }
        { reflexivity. }
        { lia. }
        exists w'. simpl in *. rewrite Hrun. repeat split; auto.
        -- rewrite Hst, <- app_assoc. reflexivity.
        -- rewrite Hps, !posts_to_app. simpl. rewrite <- !app_assoc. reflexivity.
Qed.

End TagLoopFailure.

Lemma map_snd_enumerate_from {A} (l : list A) (i : Z) :
  map snd (enumerate_from i l) = l.
Proof.
  revert i. induction l as [|x l IH]; intros i; simpl; [reflexivity|].
  now rewrite IH.
Qed.


(** The first call of a reconciler: the GET of the collection. *)
Lemma fetch_collection (path key : string) (w : world) (items : list value)
    (current : dict) {A} (k : dict -> M A) :
  Dict.get path (store w) = Some (VList items) ->
  fst (next_fault (faults w)) = None ->
  Tags.index_by key items [] = Ok current ->
  (got <- api_get path ;;
   its <- lift (as_list got) ;;
   cur <- lift (Tags.index_by key its []) ;;
   k cur) w
  = k current (called (ApiGet path) w).
Proof.
  intros Hget Hf Hidx.
  unfold bind at 1. rewrite api_get_run, Hf, Hget.
  unfold bind, lift. simpl. now rewrite Hidx.
Qed.

(** Tags are created in ascending order of their labels. *)
Lemma tags_update_remote_order (definitions : list string) (tree : string)
    (remote : list string) (cu : bool) (w : world) (items : list value)
    (current : dict) :
  Dict.get Tags.tag_path (store w) = Some (VList items) ->
  faults w = [] ->
  Tags.index_by "label" items [] = Ok current ->
  exists w',
    Tags.update_remote definitions tree remote cu w
      = (Ok (nonempty (absent current (PyStr.sorted definitions))), w')
    /\ posts_to Tags.tag_path (trace w')
         = posts_to Tags.tag_path (trace w)
             ++ map tag_body (absent current (PyStr.sorted definitions))
    /\ StronglySorted str_le (absent current (PyStr.sorted definitions)).
Proof.
  intros Hget Hf Hidx.
  assert (Hs : StronglySorted str_le (absent current (PyStr.sorted definitions))).
  { unfold absent. apply filter_strongly_sorted, sorted_sorted. }
  unfold Tags.update_remote.
  assert (Hnf : fst (next_fault (faults w)) = None) by (rewrite Hf; reflexivity).
  rewrite (fetch_collection _ _ _ _ _ _ Hget Hnf Hidx).
  destruct definitions as [|d ds].
  - simpl. unfold ret. eexists. split; [reflexivity|]. split; [|exact Hs].
    simpl. rewrite posts_to_app. simpl. now rewrite !app_nil_r.
  - cbn [truthy].
    destruct (tags_create_missing_ok tree current
                (enumerate (PyStr.sorted (d :: ds))) false
                (called (ApiGet Tags.tag_path) w) items)
      as (w' & Hrun & _ & _ & Hps).
    { exact Hget. }
    { simpl. now rewrite Hf. }
    unfold enumerate in *. rewrite map_snd_enumerate_from in *.
    exists w'. split; [exact Hrun|]. split; [|exact Hs].
    rewrite Hps. simpl. rewrite posts_to_app. simpl. now rewrite app_nil_r.
Qed.

(** The order of the creations does not depend on the order in which the
    set [definitions] is iterated. *)
Lemma tags_update_remote_order_stable (d1 d2 : list string) (current : dict) :
  Permutation d1 d2 ->
  absent current (PyStr.sorted d1) = absent current (PyStr.sorted d2).
Proof. intros Hp. now rewrite (sorted_permutation d1 d2 Hp). Qed.

(** C9.  When the POST that creates the absent tag number [j] (counting
    from zero, in the order of the loop) is answered with a non-2xx
    status, [update_remote] ends with that [LidarrAPIError]; the tags
    created before it are on the instance, the failed POST has been sent
    once, and nothing was sent after it. *)
Theorem tags_post_failure_is_not_rolled_back
    (definitions : list string) (tree : string) (remote : list string)
    (check_unmanaged : bool) (w : world) (items : list value) (current : dict)
    (j : nat) (status : Z) (rest : list (option Z)) :
  Dict.get Tags.tag_path (store w) = Some (VList items) ->
  Tags.index_by "label" items [] = Ok current ->
  faults w = repeat None (S j) ++ Some status :: rest ->
  (j < length (absent current (PyStr.sorted definitions)))%nat ->
  exists w',
    Tags.update_remote definitions tree remote check_unmanaged w
      = (Err (LidarrAPIError "Unexpected response from Lidarr" status), w')
    /\ Dict.get Tags.tag_path (store w')
         = Some (VList (items ++ created_tags (next_id w)
                          (firstn j (absent current (PyStr.sorted definitions)))))
    /\ posts_to Tags.tag_path (trace w')
         = posts_to Tags.tag_path (trace w)
             ++ map tag_body (firstn (S j) (absent current (PyStr.sorted definitions)))
    /\ faults w' = rest.
Proof.
  intros Hget Hidx Hf Hj.
  unfold Tags.update_remote.
  assert (Hnf : fst (next_fault (faults w)) = None) by (rewrite Hf; reflexivity).
  rewrite (fetch_collection _ _ _ _ _ _ Hget Hnf Hidx).
  destruct definitions as [|d ds]; [simpl in Hj; lia|].
  cbn [truthy].
  destruct (tags_create_missing_fail tree current
              (enumerate (PyStr.sorted (d :: ds))) false
              (called (ApiGet Tags.tag_path) w) items j status rest)
    as (w' & Hrun & Hst & Hfs & Hps).
  { exact Hget. }
  { simpl. now rewrite Hf. }
  { unfold enumerate. now rewrite map_snd_enumerate_from. }
  unfold enumerate in *. rewrite map_snd_enumerate_from in *.
  exists w'. split; [exact Hrun|]. repeat split; auto.
  rewrite Hps. simpl. rewrite posts_to_app. simpl. now rewrite app_nil_r.
Qed.

Lemma tags_post_failure_is_not_rolled_back_witness :
  exists w',
    Tags.update_remote TagsExample.definitions "lidarr.settings.tags" [] false
      TagsExample.instance0
      = (Err (LidarrAPIError "Unexpected response from Lidarr" 500), w')
    /\ Dict.get Tags.tag_path (store w') = Some (VList [ created_tag 1 "a" ])
    /\ posts_to Tags.tag_path (trace w') = [ tag_body "a"; tag_body "b" ]
    /\ faults w' = [].
Proof.
  apply (tags_post_failure_is_not_rolled_back TagsExample.definitions
           "lidarr.settings.tags" [] false TagsExample.instance0 [] [] 1 500 []).
  - reflexivity.
  - reflexivity.
  - reflexivity.
  - simpl. lia.
Defined.

(** ** Root folders *)

Section RootFolderCreate.

Variables (tree : string) (current : dict).

(** Without a failing call: every absent root folder is created, in the
    order in which the set [root_folders] is iterated. *)
Lemma rootfolder_create_missing_ok (todo : list (Z * string)) :
  forall changed w items,
    Dict.get MediaManagement.rootfolder_path (store w) = Some (VList items) ->
    faults w = [] ->
    exists w',
      MediaManagement.create_missing tree current todo changed w
        = (Ok (changed || nonempty (absent current (map snd todo))), w')
      /\ Dict.get MediaManagement.rootfolder_path (store w')
           = Some (VList (items ++ created_rootfolders (next_id w)
                                     (absent current (map snd todo))))
      /\ faults w' = []
      /\ posts_to MediaManagement.rootfolder_path (trace w')
           = posts_to MediaManagement.rootfolder_path (trace w)
               ++ map MediaManagement.rootfolder_body (absent current (map snd todo)).
Proof.
  induction todo as [|[i p] todo IH]; intros changed w items Hget Hf.
  - exists w. simpl. unfold ret.
    rewrite orb_false_r, !app_nil_r. auto.
  - simpl. unfold absent in *. simpl.
    destruct (Dict.mem p current) eqn:Em; simpl.
    + unfold log, emit, bind at 1. simpl.
      destruct (IH changed
                  (World (store w) (next_id w) (faults w)
                     (trace w ++ [Log DEBUG tree (Some i) (VStr p) Exists]))
                  items Hget Hf) as (w' & Hrun & Hst & Hfs & Hps).
      exists w'. simpl in *. rewrite Hrun. repeat split; auto.
      rewrite Hps, posts_to_app. simpl. now rewrite app_nil_r.
    + unfold log, emit, bind at 1. simpl.
      unfold bind at 1.
      erewrite api_post_run by (simpl; exact Hget).
      simpl. rewrite Hf. simpl.
      match goal with
      | |- context [MediaManagement.create_missing _ _ _ true ?W] =>
          destruct (IH true W (items ++ [created_rootfolder (next_id w) p])) as
            (w' & Hrun & Hst & Hfs & Hps)
      end.
      { simpl. apply dict_get_set_same. }
      { reflexivity. }
      exists w'. simpl in *. rewrite Hrun.
      rewrite orb_true_r. repeat split; auto.
      * rewrite Hst, <- app_assoc. reflexivity.
      * rewrite Hps, !posts_to_app. simpl. rewrite <- !app_assoc. reflexivity.
Qed.

End RootFolderCreate.

(** Root folders are created in the order in which the set is iterated:
    nothing sorts them. *)
Lemma rootfolder_update_remote_order
    (self remote : MediaManagement.LidarrMediaManagementSettingsConfig)
    (tree : string) (cu : bool) (w : world) (items : list value) (current : dict) :
  Dict.get MediaManagement.rootfolder_path (store w) = Some (VList items) ->
  faults w = [] ->
  Tags.index_by "path" items [] = Ok current ->
  exists w',
    MediaManagement._update_remote_rootfolder self tree remote cu w
      = (Ok (nonempty (absent current (MediaManagement.root_folders self))), w')
    /\ posts_to MediaManagement.rootfolder_path (trace w')
         = posts_to MediaManagement.rootfolder_path (trace w)
             ++ map MediaManagement.rootfolder_body
                  (absent current (MediaManagement.root_folders self)).
Proof.
  intros Hget Hf Hidx.
  unfold MediaManagement._update_remote_rootfolder.
  assert (Hnf : fst (next_fault (faults w)) = None) by (rewrite Hf; reflexivity).
  rewrite (fetch_collection _ _ _ _ _ _ Hget Hnf Hidx).
  destruct (rootfolder_create_missing_ok tree current
              (enumerate (MediaManagement.root_folders self)) false
              (called (ApiGet MediaManagement.rootfolder_path) w) items)
    as (w' & Hrun & _ & _ & Hps).
  { exact Hget. }
  { simpl. now rewrite Hf. }
  unfold enumerate in *. rewrite map_snd_enumerate_from in *.
  exists w'. split; [exact Hrun|].
  rewrite Hps. simpl. rewrite posts_to_app. simpl. now rewrite app_nil_r.
Qed.

(** C2.  The tags reconciler goes through [sorted(self.definitions)]; the
    root folder reconciler goes through [self.root_folders] as the set
    hands its elements out.  For the local entries b, a, c (in this
    order of iteration), none of them on the instance, the tags are
    created in the order a, b, c and the root folders in the order
    b, a, c. *)
Theorem rootfolder_creation_order_is_iteration_order :
  (exists w',
      Tags.update_remote [ "b"; "a"; "c" ] "lidarr.settings.tags" [] false
        TagsExample.empty0 = (Ok true, w')
      /\ posts_to Tags.tag_path (trace w')
           = [ tag_body "a"; tag_body "b"; tag_body "c" ])
  /\ (exists w',
        MediaManagement._update_remote_rootfolder
          (MediaManagement.Config [] [ "b"; "a"; "c" ] false)
          "lidarr.settings.media_management.root_folders"
          (MediaManagement.Config [] [] false) false
          TagsExample.empty0 = (Ok true, w')
        /\ posts_to MediaManagement.rootfolder_path (trace w')
             = [ MediaManagement.rootfolder_body "b";
                 MediaManagement.rootfolder_body "a";
                 MediaManagement.rootfolder_body "c" ]).
Proof.
  split; eexists; (split; [vm_compute; reflexivity | reflexivity]).
Qed.

Lemma dict_set_fresh (k : string) (v : value) (d : dict) :
  ~ In k (Dict.keys d) -> Dict.set k v d = d ++ [(k, v)].
Proof.
  unfold Dict.keys. induction d as [|[k0 v0] d IH]; simpl; intros Hk; [reflexivity|].
  destruct (String.eqb_spec k k0); [subst; tauto|].
  rewrite IH by tauto. reflexivity.
Qed.

(** With distinct names the index built from the GET has one entry per
    resource, in the order of the resources. *)
Lemma index_by_entries (key : string) (items : list value) :
  forall rfs acc,
    resource_entries key items = Ok rfs ->
    NoDup (Dict.keys acc ++ map fst rfs) ->
    Tags.index_by key items acc = Ok (acc ++ rfs).
Proof.
  induction items as [|item items IH]; intros rfs acc He Hnd; simpl in *.
  - inversion He; subst. now rewrite app_nil_r.
  - destruct (subscript item key) as [k|]; simpl in *; [|discriminate].
    destruct (subscript item "id") as [i|]; simpl in *; [|discriminate].
    destruct k; try discriminate.
    destruct (resource_entries key items) as [r|] eqn:Er; simpl in *; [|discriminate].
    inversion He; subst. simpl in Hnd.
    rewrite dict_set_fresh.
    + rewrite (IH r (acc ++ [(s, i)]) eq_refl).
      * now rewrite <- app_assoc.
      * unfold Dict.keys in *. rewrite map_app, <- app_assoc. exact Hnd.
    + apply NoDup_remove_2 in Hnd. intros Hin. apply Hnd.
      apply in_or_app. now left.
Qed.

Lemma deletes_of_app (path : string) (t1 t2 : list event) :
  deletes_of path (t1 ++ t2) = deletes_of path t1 ++ deletes_of path t2.
Proof. unfold deletes_of. apply flat_map_app. Qed.

Lemma remaining_cons (i : value) (ids : list value) (l : list value) :
  remaining ids (filter (fun r => negb (Api.has_id i r)) l) = remaining (i :: ids) l.
Proof.
  unfold remaining. induction l as [|r l IH]; simpl; [reflexivity|].
  destruct (Api.has_id i r); simpl; [exact IH|].
  destruct (existsb (fun i0 => Api.has_id i0 r) ids); simpl; [exact IH|].
  now rewrite IH.
Qed.

Lemma remaining_nil (l : list value) : remaining [] l = l.
Proof.
  induction l as [|r l IH]; [reflexivity|].
  unfold remaining in *. simpl in *. now f_equal.
Qed.

Section RootFolderDelete.

Variables (tree : string) (expected : list string).

(** With [delete_unmanaged_root_folders] set, the loop deletes every entry
    of the index that the local set does not name, and nothing else. *)
Lemma delete_unexpected_on (index : dict) :
  forall i changed w l,
    Dict.get MediaManagement.rootfolder_path (store w) = Some (VList l) ->
    faults w = [] ->
    exists w',
      MediaManagement.delete_unexpected tree true expected index i changed w
        = (Ok (changed || nonempty (unexpected expected index)), w')
      /\ Dict.get MediaManagement.rootfolder_path (store w')
           = Some (VList (remaining (map snd (unexpected expected index)) l))
      /\ deletes_of MediaManagement.rootfolder_path (trace w')
           = deletes_of MediaManagement.rootfolder_path (trace w)
               ++ map snd (unexpected expected index).
Proof.
  induction index as [|[p id] index IH]; intros i changed w l Hget Hf.
  - exists w. simpl. unfold ret.
    rewrite orb_false_r, app_nil_r, remaining_nil. auto.
  - simpl. unfold unexpected in *. simpl.
    destruct (PyStr.mem p expected) eqn:Em; simpl.
    + apply IH; assumption.
    + unfold log, emit, bind at 1. simpl.
      unfold bind at 1.
      erewrite api_delete_run by (simpl; exact Hget).
      simpl. rewrite Hf. simpl.
      match goal with
      | |- context [MediaManagement.delete_unexpected _ _ _ _ _ true ?W] =>
          destruct (IH (i - 1)%Z true W
                      (filter (fun r => negb (Api.has_id id r)) l)) as
            (w' & Hrun & Hst & Hds)
      end.
      { simpl. apply dict_get_set_same. }
      { reflexivity. }
      exists w'. simpl in *. rewrite Hrun.
      rewrite orb_true_r. repeat split; auto.
      * rewrite Hst, remaining_cons. reflexivity.
      * rewrite Hds, !deletes_of_app. simpl. rewrite <- !app_assoc. reflexivity.
Qed.

(** Without it, the loop only logs. *)
Lemma delete_unexpected_off (index : dict) :
  forall i changed w,
    exists w',
      MediaManagement.delete_unexpected tree false expected index i changed w
        = (Ok changed, w')
      /\ store w' = store w
      /\ deletes_of MediaManagement.rootfolder_path (trace w')
           = deletes_of MediaManagement.rootfolder_path (trace w).
Proof.
  induction index as [|[p id] index IH]; intros i changed w.
  - exists w. simpl. unfold ret. auto.
  - simpl. destruct (PyStr.mem p expected); simpl; [apply IH|].
    unfold log, emit, bind at 1. simpl.
    match goal with
    | |- context [MediaManagement.delete_unexpected _ _ _ _ ?I _ ?W] =>
        destruct (IH I changed W) as (w' & Hrun & Hst & Hds)
    end.
    exists w'. simpl in *. rewrite Hrun. repeat split; auto.
    rewrite Hds, deletes_of_app. simpl. now rewrite app_nil_r.
Qed.

End RootFolderDelete.

(** C5.  The deletion pass over the root folders, on an instance whose
    root folders [rfs] have distinct paths and which answers every call:
    without [delete_unmanaged_root_folders] the result is [False], the
    instance is untouched and no DELETE is sent; with it, the DELETE calls
    are exactly those for the identifiers of the root folders whose path
    is not in the local set, these folders are gone afterwards, and the
    result is [True] exactly when there was one. *)
Theorem rootfolder_delete_unmanaged
    (self remote : MediaManagement.LidarrMediaManagementSettingsConfig)
    (tree : string) (w : world) (items : list value) (rfs : list (string * value)) :
  Dict.get MediaManagement.rootfolder_path (store w) = Some (VList items) ->
  faults w = [] ->
  resource_entries "path" items = Ok rfs ->
  NoDup (map fst rfs) ->
  exists w',
    MediaManagement.delete_remote self tree remote w
      = (Ok (MediaManagement.delete_unmanaged_root_folders self
             && nonempty (unexpected (MediaManagement.root_folders self) rfs)), w')
    /\ (MediaManagement.delete_unmanaged_root_folders self = false ->
        store w' = store w
        /\ deletes_of MediaManagement.rootfolder_path (trace w')
             = deletes_of MediaManagement.rootfolder_path (trace w))
    /\ (MediaManagement.delete_unmanaged_root_folders self = true ->
        deletes_of MediaManagement.rootfolder_path (trace w')
          = deletes_of MediaManagement.rootfolder_path (trace w)
              ++ map snd (unexpected (MediaManagement.root_folders self) rfs)
        /\ Dict.get MediaManagement.rootfolder_path (store w')
             = Some (VList (remaining
                              (map snd (unexpected (MediaManagement.root_folders self) rfs))
                              items))).
Proof.
  intros Hget Hf He Hnd.
  assert (Hidx : Tags.index_by "path" items [] = Ok rfs).
  { rewrite (index_by_entries "path" items rfs [] He); [reflexivity | exact Hnd]. }
  assert (Hnf : fst (next_fault (faults w)) = None) by (rewrite Hf; reflexivity).
  unfold MediaManagement.delete_remote, MediaManagement._delete_remote_rootfolder.
  rewrite (fetch_collection _ _ _ _ _ _ Hget Hnf Hidx).
  destruct (MediaManagement.delete_unmanaged_root_folders self) eqn:Ed.
  - destruct (delete_unexpected_on (tree ++ ".root_folders")
                (MediaManagement.root_folders self) rfs (-1)%Z false
                (called (ApiGet MediaManagement.rootfolder_path) w) items)
      as (w' & Hrun & Hst & Hds).
    { exact Hget. }
    { simpl. now rewrite Hf. }
    exists w'. split; [exact Hrun|]. split; [discriminate|].
    intros _. split; [|exact Hst].
    rewrite Hds. simpl. rewrite deletes_of_app. simpl. now rewrite app_nil_r.
  - destruct (delete_unexpected_off (tree ++ ".root_folders")
                (MediaManagement.root_folders self) rfs (-1)%Z false
                (called (ApiGet MediaManagement.rootfolder_path) w))
      as (w' & Hrun & Hst & Hds).
    exists w'. split; [exact Hrun|]. split; [|discriminate].
    intros _. split; [exact Hst|].
    rewrite Hds. simpl. rewrite deletes_of_app. simpl. now rewrite app_nil_r.
Qed.

Lemma rootfolder_delete_unmanaged_witness :
  (exists w',
      MediaManagement.delete_remote (RootFolderExample.keep false)
        "lidarr.settings.media_management" (RootFolderExample.keep false)
        RootFolderExample.instance0 = (Ok false, w')
      /\ store w' = store RootFolderExample.instance0
      /\ deletes_of MediaManagement.rootfolder_path (trace w') = [])
  /\ (exists w',
        MediaManagement.delete_remote (RootFolderExample.keep true)
          "lidarr.settings.media_management" (RootFolderExample.keep true)
          RootFolderExample.instance0 = (Ok true, w')
        /\ deletes_of MediaManagement.rootfolder_path (trace w') = [ VInt 2; VInt 3 ]
        /\ Dict.get MediaManagement.rootfolder_path (store w')
             = Some (VList [ RootFolderExample.folder 1 "a" ])).
Proof.
  assert (Hnd : NoDup (map fst RootFolderExample.entries)).
  { simpl. repeat constructor; simpl; intuition discriminate. }
  split.
  - destruct (rootfolder_delete_unmanaged (RootFolderExample.keep false)
                (RootFolderExample.keep false) "lidarr.settings.media_management"
                RootFolderExample.instance0 _ RootFolderExample.entries
                eq_refl eq_refl eq_refl Hnd) as (w' & Hrun & Hoff & _).
    exists w'. split; [exact Hrun|]. exact (Hoff eq_refl).
  - destruct (rootfolder_delete_unmanaged (RootFolderExample.keep true)
                (RootFolderExample.keep true) "lidarr.settings.media_management"
                RootFolderExample.instance0 _ RootFolderExample.entries
                eq_refl eq_refl eq_refl Hnd) as (w' & Hrun & _ & Hon).
    exists w'. split; [exact Hrun|]. exact (Hon eq_refl).
Defined.

(** ** The codecs *)

Lemma py_eq_refl : forall v : value, py_eq v v = true.
Proof.
  fix IH 1. intros v. destruct v as [| b | z | s | s | s | l | l | d]; simpl.
  - reflexivity.
  - apply Bool.eqb_reflx.
  - apply Z.eqb_refl.
  - apply String.eqb_refl.
  - apply String.eqb_refl.
  - apply String.eqb_refl.
  - apply set_eqb_spec. tauto.
  - induction l as [|x l IHl]; [reflexivity|].
    rewrite (IH x). exact IHl.
  - induction d as [|[k x] d IHd]; [reflexivity|].
    rewrite String.eqb_refl, (IH x). exact IHd.
Qed.

Lemma coerce_bool (v : value) : coerce TBool v = v.
Proof. destruct v; reflexivity. Qed.











(** Every entry without [root_encoder] of every table carries one of the
    five codecs, on a field of a declared type the codec is found on. *)
Lemma tables_classified :
  Forall (fun c =>
            Forall (fun e =>
                      root_encoder e = None ->
                      has_kind e (kind_of e (field_type c (local_name e)))
                      /\ fits (kind_of e (field_type c (local_name e)))
                              (field_type c (local_name e)))
                   (remote_map c))
         all_tables.
Proof.
  repeat constructor; try discriminate.
Qed.





(** ** The resolver against the codec, and the general PUT *)

(** With [set_unchanged = True] the resolver's [remote_attrs] is the
    encoding of the whole local object: changed and unchanged entries
    alike. *)
Lemma resolve_loop_encodes (tree : string) (self remote : obj)
    (m : list RemoteMapEntry) :
  forall updated acc w updated' attrs w',
    resolve_loop tree self remote m true updated acc w
      = (Ok (updated', attrs), w') ->
    Codec.encode_loop m self acc = Ok attrs.
Proof.
  induction m as [|e m IH]; simpl; intros updated acc w updated' attrs w' H.
  - munfold. now inversion H.
  - munfold.
    destruct (getattr self (local_name e)) as [lv|]; [|discriminate].
    destruct (getattr remote (local_name e)) as [rv|]; [|discriminate].
    destruct (py_eq lv rv); simpl in H;
      (destruct (Codec.encode_entry e self) as [ev|]; [|discriminate]);
      simpl; eapply IH; eassumption.
Qed.

(** The scenario of the logging group: the local level is DEBUG, the
    instance has INFO. *)
Example logging_scenario :
  General._update_remote_attrs General.LoggingGeneralSettings
    LoggingExample.local "lidarr.settings.general.logging"
    LoggingExample.remote false LoggingExample.instance0
  = (Ok (true, [ ("logLevel", VStr "debug") ]),
     World [] 1 []
       [ Log INFO "lidarr.settings.general.logging.log_level" None
           (VStr "log_level") (Changed (VStr "info") (VStr "debug")) ]).
Proof. reflexivity. Qed.

Lemma resolver_keys_in_table (cls : settings_class) (self remote : obj)
    (tree : string) (cu : bool) (w w' : world) (u : bool) (attrs : dict) :
  General._update_remote_attrs cls self tree remote cu w = (Ok (u, attrs), w') ->
  store w' = store w
  /\ forall k, In k (Dict.keys attrs) -> In k (map remote_name (remote_map cls)).
Proof.
  unfold General._update_remote_attrs, get_update_remote_attrs. intros H. split.
  - now destruct (resolve_loop_logs_only _ _ _ _ _ _ _ _ _ _ H) as (Hs & _).
  - intros k Hk.
    destruct (resolve_loop_keys _ _ _ _ _ _ _ _ _ _ _ H k Hk) as [[]|Hin].
    exact Hin.
Qed.

(** [LidarrGeneralSettingsConfig.update_remote], when it reports a change,
    has PUT a body in which every field of the fresh snapshot that no
    mapping entry of the seven groups names is as it was in the
    snapshot. *)
Lemma general_update_remote_passthrough
    (self remote : General.LidarrGeneralSettingsConfig) (tree : string)
    (cu : bool) (w w' : world) :
  General.update_remote self tree remote cu w = (Ok true, w') ->
  exists snapshot id body,
    Dict.get General.config_host (store w) = Some (VDict snapshot)
    /\ In (ApiPut General.config_host id body) (trace w')
    /\ forall k, ~ In k general_remote_names ->
                 Dict.get k body = Dict.get k snapshot.
Proof.
  intros H. unfold General.update_remote in H.
  bind_inv H. destruct a as [u1 a1].
  bind_inv H. destruct a as [u2 a2].
  bind_inv H. destruct a as [u3 a3].
  bind_inv H. destruct a as [u4 a4].
  bind_inv H. destruct a as [u5 a5].
  bind_inv H. destruct a as [u6 a6].
  bind_inv H. destruct a as [u7 a7].
  apply resolver_keys_in_table in E, E0, E1, E2, E3, E4, E5.
  destruct E as [S1 K1], E0 as [S2 K2], E1 as [S3 K3], E2 as [S4 K4],
    E3 as [S5 K5], E4 as [S6 K6], E5 as [S7 K7].
  destruct (py_any [u1; u2; u3; u4; u5; u6; u7]);
    [|unfold ret in H; inversion H].
  bind_inv H. rename a into got.
  bind_inv H. rename a into id.
  bind_inv H. rename a into remote_config.
  bind_inv H.
  unfold lift in *.
  rewrite api_get_run in E.
  destruct (fst (next_fault (faults w6))); [discriminate|].
  destruct (Dict.get General.config_host (store w6)) as [v|] eqn:G; [|discriminate].
  inversion E; subst got w7. clear E.
  inversion E0 as [[Hid Hw8]]. subst w8.
  inversion E1 as [[Hcfg Hw9]]. subst w9.
  destruct v as [| | | | | | | |d]; try discriminate.
  simpl in Hcfg. inversion Hcfg; subst remote_config.
  exists d, id, (General.put_body d a1 a2 a3 a4 a5 a6 a7).
  split; [|split].
  - rewrite <- S1, <- S2, <- S3, <- S4, <- S5, <- S6, <- S7. exact G.
  - unfold ret in H. inversion H; subst w'.
    revert E2. unfold api_put, bind, emit, Api.respond, Api.read, Api.write, ret.
    simpl.
    destruct (snd (next_fault (faults w6))) as [|[st|] fs]; simpl;
      try discriminate;
      rewrite G; simpl; intros E; inversion E; simpl;
      apply in_or_app; right; left; reflexivity.
  - intros k Hk. apply general_put_body_passthrough;
      intros Hin; apply Hk; unfold general_remote_names;
      apply in_flat_map; eexists;
      (split;
       [|first [ apply K1; exact Hin | apply K2; exact Hin | apply K3; exact Hin
               | apply K4; exact Hin | apply K5; exact Hin | apply K6; exact Hin
               | apply K7; exact Hin ]]);
      simpl; tauto.
Qed.

(** [_update_remote_naming], when it reports a change, has PUT a body
    that holds the snapshot's [id] and the mapped fields, and nothing else
    of the snapshot. *)
Lemma naming_put_body_keys
    (self remote : MediaManagement.LidarrMediaManagementSettingsConfig)
    (tree : string) (cu : bool) (w w' : world) :
  MediaManagement._update_remote_naming self tree remote cu w = (Ok true, w') ->
  exists id body,
    In (ApiPut MediaManagement.naming_path id body) (trace w')
    /\ forall k,
         k <> "id" ->
         ~ In k (map remote_name MediaManagement._naming_remote_map) ->
         Dict.get k body = None.
Proof.
  intros H. unfold MediaManagement._update_remote_naming in H.
  bind_inv H. destruct a as [updated attrs].
  destruct updated; [|unfold ret in H; inversion H].
  bind_inv H. rename a into got.
  bind_inv H. rename a into config_id.
  bind_inv H.
  unfold ret in H. inversion H; subst w'. clear H.
  exists config_id, (Dict.merge [("id", config_id)] attrs). split.
  - revert E2. unfold api_put, bind, emit, Api.respond, Api.read, Api.write, ret.
    simpl.
    destruct (faults w2) as [|[st|] fs]; simpl; try discriminate;
      destruct (Dict.get MediaManagement.naming_path (store w2)) as [v|];
      simpl; try discriminate;
      try (destruct v; simpl);
      intros E'; inversion E'; simpl;
      apply in_or_app; right; left; reflexivity.
  - intros k Hid Hk.
    apply dict_get_none_keys. intros Hin.
    apply dict_keys_merge in Hin. destruct Hin as [Hin|Hin].
    + simpl in Hin. destruct Hin as [<-|[]]. now apply Hid.
    + unfold get_update_remote_attrs in E.
      destruct (resolve_loop_keys _ _ _ _ _ _ _ _ _ _ _ E k Hin) as [[]|Hin'].
      now apply Hk.
Qed.

(* ===================================================================== *)
(** * Further properties of the settings groups *)
(* ===================================================================== *)

(** ** Reading the instance *)

Lemma api_get_world (path : string) (w : world) :
  snd (api_get path w) = called (ApiGet path) w.
Proof.
  rewrite api_get_run. destruct (fst (next_fault (faults w))); reflexivity.
Qed.

Lemma api_get_inv (path : string) (w w' : world) (r : result value) :
  api_get path w = (r, w') -> w' = called (ApiGet path) w.
Proof. intros H. rewrite <- api_get_world, H. reflexivity. Qed.




(** ** The name-to-identifier index *)

(** Looking a name up in the index built from a collection gives the
    identifier of the last resource with that name: a later resource
    replaces an earlier one of the same name. *)
Theorem index_by_lookup (key : string) (items : list value) :
  forall acc current name,
    Tags.index_by key items acc = Ok current ->
    Dict.get name current = last_named key name items (Dict.get name acc).
Proof.
  induction items as [|item items IH]; intros acc current name H; simpl in *.
  - now inversion H.
  - destruct (subscript item key) as [k|]; simpl in H; [|discriminate].
    destruct (subscript item "id") as [i|]; simpl in H; [|discriminate].
    destruct k; try discriminate.
    rewrite (IH _ _ name H), dict_get_set. reflexivity.
Qed.

Lemma index_by_lookup_witness :
  Dict.get "a" [ ("a", VInt 3); ("b", VInt 2) ] = Some (VInt 3).
Proof.
  exact (index_by_lookup "label"
           [ VDict [ ("id", VInt 1); ("label", VStr "a") ];
             VDict [ ("id", VInt 2); ("label", VStr "b") ];
             VDict [ ("id", VInt 3); ("label", VStr "a") ] ]
           [] [ ("a", VInt 3); ("b", VInt 2) ] "a" eq_refl).
Defined.

Lemma dict_mem_set (k k' : string) (v : value) (d : dict) :
  Dict.mem k (Dict.set k' v d) = String.eqb k k' || Dict.mem k d.
Proof.
  unfold Dict.mem. rewrite dict_get_set.
  destruct (String.eqb k k'); reflexivity.
Qed.

Lemma pystr_mem_cons (k n : string) (l : list string) :
  PyStr.mem k (n :: l) = String.eqb k n || PyStr.mem k l.
Proof. reflexivity. Qed.

Lemma pystr_mem_app (k : string) (l1 l2 : list string) :
  PyStr.mem k (l1 ++ l2) = PyStr.mem k l1 || PyStr.mem k l2.
Proof. unfold PyStr.mem. apply existsb_app. Qed.

(** The names bound in the index are the names it started from and the
    names of the resources. *)
Lemma index_by_mem (key : string) (items : list value) :
  forall acc current,
    Tags.index_by key items acc = Ok current ->
    exists rfs,
      resource_entries key items = Ok rfs
      /\ forall k, Dict.mem k current = Dict.mem k acc || PyStr.mem k (map fst rfs).
Proof.
  induction items as [|item items IH]; intros acc current H; simpl in *.
  - inversion H; subst. exists []. split; [reflexivity|].
    intros k. now rewrite orb_false_r.
  - destruct (subscript item key) as [k0|]; simpl in *; [|discriminate].
    destruct (subscript item "id") as [i|]; simpl in *; [|discriminate].
    destruct k0; try discriminate.
    destruct (IH _ _ H) as (rfs & -> & Hm). simpl.
    exists ((s, i) :: rfs). split; [reflexivity|].
    intros k. rewrite Hm, dict_mem_set. simpl map. rewrite pystr_mem_cons.
    destruct (String.eqb k s), (Dict.mem k acc); reflexivity.
Qed.

Lemma index_by_total (key : string) (items : list value) :
  forall rfs acc,
    resource_entries key items = Ok rfs ->
    exists current, Tags.index_by key items acc = Ok current.
Proof.
  induction items as [|item items IH]; intros rfs acc H; simpl in *.
  - eauto.
  - destruct (subscript item key) as [k0|]; simpl in *; [|discriminate].
    destruct (subscript item "id") as [i|]; simpl in *; [|discriminate].
    destruct k0; try discriminate.
    destruct (resource_entries key items) as [r|] eqn:E; simpl in *; [|discriminate].
    eapply IH. reflexivity.
Qed.

Lemma resource_entries_app (key : string) (l1 l2 : list value)
    (r1 r2 : list (string * value)) :
  resource_entries key l1 = Ok r1 ->
  resource_entries key l2 = Ok r2 ->
  resource_entries key (l1 ++ l2) = Ok (r1 ++ r2).
Proof.
  revert r1. induction l1 as [|item l1 IH]; intros r1 H1 H2; simpl in *.
  - inversion H1; subst. exact H2.
  - destruct (subscript item key) as [k0|]; simpl in *; [|discriminate].
    destruct (subscript item "id") as [i|]; simpl in *; [|discriminate].
    destruct k0; try discriminate.
    destruct (resource_entries key l1) as [r|] eqn:E; simpl in *; [|discriminate].
    inversion H1; subst. rewrite (IH r eq_refl H2). reflexivity.
Qed.

Lemma resource_entries_created_tags (i : Z) (tags : list string) :
  exists r, resource_entries "label" (created_tags i tags) = Ok r /\ map fst r = tags.
Proof.
  revert i. induction tags as [|t tags IH]; intros i; simpl.
  - exists []. auto.
  - destruct (IH (i + 1)%Z) as (r & -> & Hr). simpl.
    eexists. split; [reflexivity|]. simpl. now rewrite Hr.
Qed.

Lemma labels_of_entries (items : list value) (rfs : list (string * value)) :
  resource_entries "label" items = Ok rfs ->
  Tags.labels items = Ok (map fst rfs).
Proof.
  revert rfs. induction items as [|item items IH]; intros rfs H; simpl in *.
  - now inversion H.
  - destruct (subscript item "label") as [k0|]; simpl in *; [|discriminate].
    destruct (subscript item "id") as [i|]; simpl in *; [|discriminate].
    destruct k0; try discriminate.
    destruct (resource_entries "label" items) as [r|] eqn:E; simpl in *; [|discriminate].
    inversion H; subst. rewrite (IH r eq_refl). reflexivity.
Qed.

(** ** Tags *)

Lemma tags_update_remote_ok (definitions : list string) (tree : string)
    (remote : list string) (cu : bool) (w : world) (items : list value)
    (current : dict) :
  Dict.get Tags.tag_path (store w) = Some (VList items) ->
  faults w = [] ->
  Tags.index_by "label" items [] = Ok current ->
  exists w',
    Tags.update_remote definitions tree remote cu w
      = (Ok (nonempty (absent current (PyStr.sorted definitions))), w')
    /\ Dict.get Tags.tag_path (store w')
         = Some (VList (items ++ created_tags (next_id w)
                          (absent current (PyStr.sorted definitions))))
    /\ faults w' = []
    /\ posts_to Tags.tag_path (trace w')
         = posts_to Tags.tag_path (trace w)
             ++ map tag_body (absent current (PyStr.sorted definitions)).
Proof.
  intros Hget Hf Hidx.
  unfold Tags.update_remote.
  assert (Hnf : fst (next_fault (faults w)) = None) by (rewrite Hf; reflexivity).
  rewrite (fetch_collection _ _ _ _ _ _ Hget Hnf Hidx).
  destruct definitions as [|d ds].
  - cbn [truthy PyStr.sorted absent filter nonempty created_tags map].
    unfold ret. eexists. split; [reflexivity|].
    cbn [called store faults trace snd next_fault].
    repeat split.
    + now rewrite app_nil_r.
    + now rewrite Hf.
    + rewrite posts_to_app. reflexivity.
  - cbn [truthy].
    destruct (tags_create_missing_ok tree current
                (enumerate (PyStr.sorted (d :: ds))) false
                (called (ApiGet Tags.tag_path) w) items)
      as (w' & Hrun & Hst & Hfs & Hps).
    { exact Hget. }
    { simpl. now rewrite Hf. }
    unfold enumerate in *. rewrite map_snd_enumerate_from in *.
    exists w'. split; [exact Hrun|]. split; [exact Hst|]. split; [exact Hfs|].
    rewrite Hps. simpl. rewrite posts_to_app. simpl. now rewrite app_nil_r.
Qed.

Lemma filter_none {A} (f : A -> bool) (l : list A) :
  (forall x, In x l -> f x = false) -> filter f l = [].
Proof.
  induction l as [|x l IH]; simpl; intros H; [reflexivity|].
  rewrite (H x (or_introl eq_refl)). apply IH. intros y Hy. apply H. now right.
Qed.

Lemma sorted_in (x : string) (l : list string) : In x (PyStr.sorted l) <-> In x l.
Proof.
  split; apply Permutation_in; [apply sorted_perm | symmetry; apply sorted_perm].
Qed.

(** After an update of the tags that the instance answered throughout,
    the instance has every declared tag and every tag it had before, and
    no other; a second update finds nothing to do and sends no POST. *)
Theorem tags_update_remote_converges
    (definitions : list string) (tree : string) (remote : list string)
    (check_unmanaged : bool) (w : world) (items : list value) (current : dict) :
  Dict.get Tags.tag_path (store w) = Some (VList items) ->
  faults w = [] ->
  Tags.index_by "label" items [] = Ok current ->
  exists b w1,
    Tags.update_remote definitions tree remote check_unmanaged w = (Ok b, w1)
    /\ (exists ls w2,
          Tags.from_remote w1 = (Ok ls, w2)
          /\ forall t, In t ls <-> In t definitions \/ Dict.mem t current = true)
    /\ (exists w3,
          Tags.update_remote definitions tree remote check_unmanaged w1 = (Ok false, w3)
          /\ posts_to Tags.tag_path (trace w3) = posts_to Tags.tag_path (trace w1)).
Proof.
  intros Hget Hf Hidx.
  destruct (tags_update_remote_ok definitions tree remote check_unmanaged
              w items current Hget Hf Hidx) as (w1 & Hrun & Hst & Hfs & _).
  set (new := absent current (PyStr.sorted definitions)) in *.
  destruct (index_by_mem _ _ _ _ Hidx) as (rfs & Hrfs & Hmem).
  destruct (resource_entries_created_tags (next_id w) new) as (r & Hr & Hfst).
  pose proof (resource_entries_app _ _ _ _ _ Hrfs Hr) as Hall.
  assert (Hcur : forall t, Dict.mem t current = PyStr.mem t (map fst rfs))
    by (intros t; now rewrite Hmem).
  assert (Hnew : forall t, In t new <-> In t definitions /\ Dict.mem t current = false).
  { intros t. unfold new, absent. rewrite filter_In, sorted_in, negb_true_iff. tauto. }
  exists (nonempty new), w1. split; [exact Hrun|]. split.
  - unfold Tags.from_remote. unfold bind at 1.
    rewrite api_get_run, Hfs, Hst. cbn [fst next_fault].
    unfold bind, lift, ret. cbn [as_list].
    rewrite (labels_of_entries _ _ Hall).
    eexists. eexists. split; [reflexivity|].
    intros t. rewrite dedup_in, map_app, in_app_iff, Hfst, Hnew.
    rewrite <- mem_in, <- Hcur.
    destruct (Dict.mem t current); intuition congruence.
  - destruct (index_by_total _ _ _ [] Hall) as [current' Hidx'].
    destruct (tags_update_remote_ok definitions tree remote check_unmanaged
                w1 _ current' Hst Hfs Hidx') as (w3 & Hrun' & _ & _ & Hps).
    destruct (index_by_mem _ _ _ _ Hidx') as (rfs' & Hrfs' & Hmem').
    rewrite Hall in Hrfs'. inversion Hrfs'; subst rfs'. clear Hrfs'.
    assert (Hnone : absent current' (PyStr.sorted definitions) = []).
    { apply filter_none. intros t Ht. apply negb_false_iff.
      rewrite Hmem', map_app, pystr_mem_app, Hfst, <- Hcur. simpl.
      destruct (Dict.mem t current) eqn:Et; [reflexivity|].
      apply mem_in, Hnew. split; [now apply sorted_in | exact Et]. }
    rewrite Hnone in *. simpl in *. rewrite app_nil_r in Hps.
    exists w3. split; assumption.
Qed.

Lemma tags_update_remote_converges_witness :
  exists b w1,
    Tags.update_remote [ "b"; "a" ] "lidarr.settings.tags" [] false TagsExample.empty0
      = (Ok b, w1)
    /\ (exists ls w2,
          Tags.from_remote w1 = (Ok ls, w2)
          /\ forall t, In t ls <-> In t [ "b"; "a" ] \/ Dict.mem t [] = true)
    /\ (exists w3,
          Tags.update_remote [ "b"; "a" ] "lidarr.settings.tags" [] false w1
            = (Ok false, w3)
          /\ posts_to Tags.tag_path (trace w3) = posts_to Tags.tag_path (trace w1)).
Proof.
  apply (tags_update_remote_converges [ "b"; "a" ] "lidarr.settings.tags" [] false
           TagsExample.empty0 [] []); reflexivity.
Defined.

Lemma filter_destructive_app_one (t : list event) (e : event) :
  is_destructive e = false ->
  filter is_destructive (t ++ [e]) = filter is_destructive t.
Proof.
  intros He. rewrite filter_app. simpl. rewrite He. apply app_nil_r.
Qed.

Section TagLoopGrows.

Variables (tree : string) (current : dict).

Lemma tags_create_missing_grows (todo : list (Z * string)) :
  forall changed w items r w',
    Dict.get Tags.tag_path (store w) = Some (VList items) ->
    Tags.create_missing tree current todo changed w = (r, w') ->
    (exists created,
        Dict.get Tags.tag_path (store w') = Some (VList (items ++ created)))
    /\ (forall p, p <> Tags.tag_path ->
                  Dict.get p (store w') = Dict.get p (store w))
    /\ filter is_destructive (trace w') = filter is_destructive (trace w).
Proof.
  induction todo as [|[i tag] todo IH]; intros changed w items r w' Hget H.
  - simpl in H. unfold ret in H. inversion H; subst.
    split; [exists []; now rewrite app_nil_r | auto].
  - simpl in H. destruct (Dict.mem tag current).
    + unfold log, emit, bind at 1 in H. simpl in H.
      apply IH with (items := items) in H; [|exact Hget].
      destruct H as (Hc & Hp & Ht). simpl in *.
      split; [exact Hc|]. split; [exact Hp|].
      rewrite Ht. now apply filter_destructive_app_one.
    + unfold log, emit, bind at 1 in H. simpl in H.
      unfold bind at 1 in H.
      erewrite api_post_run in H by (simpl; exact Hget).
      simpl in H.
      destruct (fst (next_fault (faults w))).
      * inversion H; subst. simpl.
        split; [exists []; now rewrite app_nil_r|].
        split; [auto|].
        rewrite !filter_destructive_app_one; reflexivity.
      * apply IH with (items := items ++ [created_tag (next_id w) tag]) in H;
          [|simpl; apply dict_get_set_same].
        destruct H as ((created & Hc) & Hp & Ht). simpl in *.
        split; [|split].
        -- exists (created_tag (next_id w) tag :: created).
           rewrite Hc, <- app_assoc. reflexivity.
        -- intros p Hne. rewrite (Hp p Hne). now apply dict_get_set_other.
        -- rewrite Ht, !filter_destructive_app_one; reflexivity.
Qed.

End TagLoopGrows.

(** Whatever the instance holds and however it answers, an update of the
    tags sends no PUT and no DELETE, leaves every other resource alone,
    and only ever appends to the collection of tags: the tags that were
    there stay, with their identifiers, also when the update fails half
    way. *)
Theorem tags_update_remote_only_adds
    (definitions : list string) (tree : string) (remote : list string)
    (check_unmanaged : bool) (w : world) (items : list value) :
  Dict.get Tags.tag_path (store w) = Some (VList items) ->
  let w' := snd (Tags.update_remote definitions tree remote check_unmanaged w) in
  (exists created,
      Dict.get Tags.tag_path (store w') = Some (VList (items ++ created)))
  /\ (forall p, p <> Tags.tag_path ->
                Dict.get p (store w') = Dict.get p (store w))
  /\ filter is_destructive (trace w') = filter is_destructive (trace w).
Proof.
  intros Hget. cbv zeta.
  set (P := fun w' : world =>
              (exists created,
                  Dict.get Tags.tag_path (store w') = Some (VList (items ++ created)))
              /\ (forall p, p <> Tags.tag_path ->
                            Dict.get p (store w') = Dict.get p (store w))
              /\ filter is_destructive (trace w') = filter is_destructive (trace w)).
  change (P (snd (Tags.update_remote definitions tree remote check_unmanaged w))).
  assert (Hstay : P (called (ApiGet Tags.tag_path) w)).
  { unfold P. simpl. split; [exists []; now rewrite app_nil_r|].
    split; [auto|]. now apply filter_destructive_app_one. }
  unfold Tags.update_remote. unfold bind at 1. rewrite api_get_run.
  destruct (fst (next_fault (faults w))); [exact Hstay|].
  rewrite Hget. unfold bind, lift. cbn [as_list].
  destruct (Tags.index_by "label" items []) as [current|]; [|exact Hstay].
  destruct (truthy (VSet definitions)); [|exact Hstay].
  destruct (Tags.create_missing tree current
              (enumerate (PyStr.sorted definitions)) false
              (called (ApiGet Tags.tag_path) w)) as [r w'] eqn:Hrun.
  destruct (tags_create_missing_grows tree current _ _
              (called (ApiGet Tags.tag_path) w) items _ _ Hget Hrun)
    as (Hc & Hp & Ht).
  unfold P. simpl. split; [exact Hc|]. split; [exact Hp|].
  rewrite Ht. simpl. now apply filter_destructive_app_one.
Qed.

Lemma tags_update_remote_only_adds_witness :
  let w' := snd (Tags.update_remote TagsExample.definitions "lidarr.settings.tags"
                   [] false TagsExample.instance0) in
  (exists created,
      Dict.get Tags.tag_path (store w') = Some (VList ([] ++ created)))
  /\ (forall p, p <> Tags.tag_path ->
                Dict.get p (store w') = Dict.get p (store TagsExample.instance0))
  /\ filter is_destructive (trace w')
     = filter is_destructive (trace TagsExample.instance0).
Proof.
  apply (tags_update_remote_only_adds TagsExample.definitions
           "lidarr.settings.tags" [] false TagsExample.instance0 []).
  reflexivity.
Defined.

(** ** The security group *)

Lemma getattr_set_other (o : obj) (k k' : string) (v : value) :
  k <> k' -> getattr (Dict.set k' v o) k = getattr o k.
Proof. intros Hne. unfold getattr. now rewrite dict_get_set_other. Qed.

(** On the wire [passwordConfirmation] is the password itself: whatever
    the local [password_confirmation] is, the entry encodes to the secret
    value of [password], which is also what the [password] entry encodes
    to.  Without a password the [password] entry encodes to the empty
    string, [passwordConfirmation] raises [AttributeError], and with it the
    encoding of the whole group, as for a freshly constructed
    [SecurityGeneralSettings]. *)
Theorem password_confirmation_is_the_password :
  In password_entry (remote_map General.SecurityGeneralSettings)
  /\ In password_confirmation_entry (remote_map General.SecurityGeneralSettings)
  /\ (forall self s v,
        getattr self "password" = Ok (VSecret s) ->
        Codec.encode_entry password_entry self = Ok (VStr s)
        /\ Codec.encode_entry password_confirmation_entry
             (Dict.set "password_confirmation" v self) = Ok (VStr s))
  /\ (forall self,
        getattr self "password" = Ok VNone ->
        Codec.encode_entry password_entry self = Ok (VStr EmptyString)
        /\ Codec.encode_entry password_confirmation_entry self
           = Err (AttributeError "get_secret_value"))
  /\ (forall attrs,
        Dict.get "password" attrs = None \/ Dict.get "password" attrs = Some VNone ->
        Codec.encode (remote_map General.SecurityGeneralSettings)
          (construct General.SecurityGeneralSettings attrs)
        = Err (AttributeError "get_secret_value")).
Proof.
  split; [simpl; tauto|]. split; [simpl; tauto|]. split; [|split].
  - intros self s v Hp. unfold Codec.encode_entry. simpl. split.
    + rewrite Hp. simpl. unfold Codec.secret_or_empty. simpl.
      destruct (String.eqb_spec s EmptyString) as [->|]; reflexivity.
    + unfold Codec.password_of.
      rewrite getattr_set_other by discriminate. rewrite Hp. reflexivity.
  - intros self Hp. unfold Codec.encode_entry. simpl. split.
    + rewrite Hp. reflexivity.
    + unfold Codec.password_of. rewrite Hp. reflexivity.
  - intros attrs Hp.
    unfold Codec.encode, construct.
    cbn [General.SecurityGeneralSettings fields remote_map map fname fty fdefault].
    destruct Hp as [Hp|Hp]; rewrite Hp; reflexivity.
Qed.

Lemma password_confirmation_is_the_password_witness :
  (Codec.encode_entry password_entry GeneralExample.security = Ok (VStr "hunter2")
   /\ Codec.encode_entry password_confirmation_entry
        (Dict.set "password_confirmation" (VSecret "typo") GeneralExample.security)
      = Ok (VStr "hunter2"))
  /\ Codec.encode (remote_map General.SecurityGeneralSettings)
       (construct General.SecurityGeneralSettings [])
     = Err (AttributeError "get_secret_value").
Proof.
  destruct password_confirmation_is_the_password as (_ & _ & Hset & _ & Hnone).
  split.
  - apply Hset. reflexivity.
  - apply Hnone. left. reflexivity.
Defined.

(** ** Metadata *)

Lemma pick_last (items : list value) :
  forall k r x k' r' x',
    Metadata.pick items k r x = Ok (k', r', x') ->
    k' = last_with "XbmcMetadata" items k
    /\ r' = last_with "RoksboxMetadata" items r
    /\ x' = last_with "WdtvMetadata" items x.
Proof.
  induction items as [|m items IH]; intros k r x k' r' x' H; simpl in *.
  - inversion H; auto.
  - destruct (subscript m "implementation") as [v|]; simpl in H; [|discriminate].
    destruct (py_eq v (VStr "XbmcMetadata")) eqn:E1.
    { apply py_eq_str in E1. subst v. simpl. now apply IH. }
    destruct (py_eq v (VStr "RoksboxMetadata")) eqn:E2.
    { apply py_eq_str in E2. subst v. simpl. now apply IH. }
    destruct (py_eq v (VStr "WdtvMetadata")) eqn:E3.
    { apply py_eq_str in E3. subst v. simpl. now apply IH. }
    now apply IH.
Qed.

Lemma pick_total (items : list value) :
  metadata_resources items ->
  forall k r x, exists p, Metadata.pick items k r x = Ok p.
Proof.
  intros Hwf k r x.
  destruct (pick_spec items Hwf k r x) as (k' & r' & x' & H & _). eauto.
Qed.

(** [from_remote] takes, for each of the three kinds, the last resource of
    the list with that [implementation], and of it the field [enable]
    alone: earlier resources of the same kind, resources of other kinds
    and the other fields play no part. *)
Theorem metadata_from_remote_reads_last
    (w w0 : world) (items : list value) (k r x ke re xe : value) :
  api_get Metadata.metadata_path w = (Ok (VList items), w0) ->
  metadata_resources items ->
  last_with "XbmcMetadata" items None = Some k ->
  last_with "RoksboxMetadata" items None = Some r ->
  last_with "WdtvMetadata" items None = Some x ->
  subscript k "enable" = Ok ke ->
  subscript r "enable" = Ok re ->
  subscript x "enable" = Ok xe ->
  Metadata.from_remote w
  = (Ok (Metadata.Config [ ("enable", ke) ] [ ("enable", re) ] [ ("enable", xe) ]),
     w0).
Proof.
  intros Hget Hwf Hk Hr Hx Hke Hre Hxe.
  destruct (pick_total items Hwf None None None) as [[[k' r'] x'] Hp].
  destruct (pick_last _ _ _ _ _ _ _ Hp) as (Ek & Er & Ex).
  rewrite Hk in Ek. rewrite Hr in Er. rewrite Hx in Ex. subst k' r' x'.
  unfold Metadata.from_remote. unfold bind at 1. unfold Metadata.fetch.
  rewrite (bind_ok _ _ _ _ _ Hget).
  unfold bind, lift, ret. cbn [as_list]. rewrite Hp.
  destruct k as [| | | | | | | |kd]; try discriminate.
  destruct r as [| | | | | | | |rd]; try discriminate.
  destruct x as [| | | | | | | |xd]; try discriminate.
  cbn [as_dict].
  unfold subscript, Dict.index in Hke, Hre, Hxe.
  destruct (Dict.get "enable" kd) as [ke'|] eqn:Gk; [|discriminate].
  destruct (Dict.get "enable" rd) as [re'|] eqn:Gr; [|discriminate].
  destruct (Dict.get "enable" xd) as [xe'|] eqn:Gx; [|discriminate].
  inversion Hke; inversion Hre; inversion Hxe; subst.
  unfold Metadata._from_remote, Codec.get_local_attrs, construct.
  cbn [Codec.decode_loop Metadata._base_remote_map Metadata._remote_map
       Metadata.KodiEmbyMetadata Metadata.RoksboxMetadata Metadata.WdtvMetadata
       app plain remote_name local_name optional].
  rewrite Gk, Gr, Gx. cbn -[coerce]. rewrite !coerce_bool. reflexivity.
Qed.

Lemma metadata_from_remote_reads_last_witness :
  Metadata.from_remote MetadataInSync.instance0
  = (Ok (Metadata.Config [ ("enable", VBool true) ] [ ("enable", VBool false) ]
           [ ("enable", VBool false) ]),
     MetadataInSync.fetched).
Proof.
  apply (metadata_from_remote_reads_last MetadataInSync.instance0
           MetadataInSync.fetched MetadataInSync.items
           MetadataInSync.kodi MetadataCorrupt.roksbox MetadataCorrupt.wdtv);
    try reflexivity.
  repeat constructor; eexists; reflexivity.
Defined.

Lemma filter_mutation_app_one (t : list event) (e : event) :
  is_mutation e = false ->
  filter is_mutation (t ++ [e]) = filter is_mutation t.
Proof.
  intros He. rewrite filter_app. simpl. rewrite He. apply app_nil_r.
Qed.

(** One metadata definition: [_update_remote] either finds [enable] equal
    on both sides and returns [False] without touching anything, or ends
    in an exception; either way the instance is as before and no call has
    been made. *)
Lemma metadata_update_item (c : Metadata.metadata_class)
    (self remote : obj) (tree : string) (api_metadata : dict) (cu : bool) (w : world) :
  In c Metadata.METADATA_TYPES ->
  let out := Metadata._update_remote c self tree remote api_metadata cu w in
  fst out <> Ok true
  /\ store (snd out) = store w
  /\ faults (snd out) = faults w
  /\ filter is_mutation (trace (snd out)) = filter is_mutation (trace w)
  /\ (same_enable self remote -> out = (Ok false, w)).
Proof.
  intros Hc. simpl in Hc. destruct Hc as [<-|[<-|[<-|[]]]];
    cbv zeta;
    unfold Metadata._update_remote, get_update_remote_attrs, same_enable; simpl;
    munfold; unfold Codec.encode_entry; simpl;
    (destruct (getattr self "enable") as [lv|] eqn:El; simpl;
       [|repeat split; try discriminate; auto;
         intros (lv & rv & Hl & _); discriminate]);
    (destruct (getattr remote "enable") as [rv|] eqn:Er; simpl;
       [|repeat split; try discriminate; auto;
         intros (lv' & rv' & _ & Hr & _); discriminate]);
    (destruct (py_eq lv rv) eqn:Eq; simpl;
       [repeat split; try discriminate; auto
       |repeat split; try discriminate; auto;
        [now apply filter_mutation_app_one
        |intros (lv' & rv' & Hl & Hr & Heq);
         inversion Hl; inversion Hr; subst; congruence]]).
Qed.

Ltac done_err :=
  cbv beta delta [fst snd]; simpl;
  split; [discriminate | split; [congruence | congruence]].

(** [LidarrMetadataSettingsConfig.update_remote] never changes the
    instance: whatever the local and the remote state and however the
    instance answers, it sends no POST, PUT or DELETE, leaves every
    resource as it was, and never returns [True].  A definition whose
    [enable] differs ends the update in an exception. *)
Theorem metadata_update_remote_never_writes
    (self remote : Metadata.LidarrMetadataSettingsConfig) (tree : string)
    (check_unmanaged : bool) (w : world) :
  let out := Metadata.update_remote self tree remote check_unmanaged w in
  fst out <> Ok true
  /\ store (snd out) = store w
  /\ filter is_mutation (trace (snd out)) = filter is_mutation (trace w).
Proof.
  cbv zeta.
  set (Q := fun out : result bool * world =>
              fst out <> Ok true
              /\ store (snd out) = store w
              /\ filter is_mutation (trace (snd out)) = filter is_mutation (trace w)).
  change (Q (Metadata.update_remote self tree remote check_unmanaged w)).
  unfold Metadata.update_remote. unfold bind at 1.
  destruct (Metadata.fetch w) as [f w0] eqn:Hf.
  assert (H0 : store w0 = store w
               /\ filter is_mutation (trace w0) = filter is_mutation (trace w)).
  { revert Hf. unfold Metadata.fetch. unfold bind at 1.
    destruct (api_get Metadata.metadata_path w) as [g w1] eqn:G.
    apply api_get_inv in G. subst w1.
    assert (Hc : store (called (ApiGet Metadata.metadata_path) w) = store w
                 /\ filter is_mutation (trace (called (ApiGet Metadata.metadata_path) w))
                    = filter is_mutation (trace w)).
    { simpl. split; [reflexivity | now apply filter_mutation_app_one]. }
    destruct g as [got|]; [|intros E; inversion E; subst; exact Hc].
    unfold bind, lift, raise, ret.
    destruct (as_list got); [|intros E; inversion E; subst; exact Hc].
    destruct (Metadata.pick a None None None) as [[[k r] x]|];
      [|intros E; inversion E; subst; exact Hc].
    destruct k, r, x; intros E; inversion E; subst; exact Hc. }
  destruct H0 as [S0 T0].
  destruct f as [[[k r] x]|]; [|unfold Q; done_err].
  unfold bind at 1. unfold lift at 1.
  destruct (as_dict k) as [kd|]; [|unfold Q; done_err].
  unfold bind at 1.
  pose proof (metadata_update_item Metadata.KodiEmbyMetadata
                (Metadata.kodi_emby self) (Metadata.kodi_emby remote)
                (tree ++ ".kodi_emby") kd check_unmanaged w0 (or_introl eq_refl))
    as (N1 & S1 & _ & T1 & _).
  destruct (Metadata._update_remote Metadata.KodiEmbyMetadata _ _ _ _ _ w0)
    as [[b1|e1] w1]; simpl in N1, S1, T1;
    [|unfold Q; done_err].
  destruct b1; [congruence|].
  unfold bind at 1. unfold lift at 1.
  destruct (as_dict r) as [rd|]; [|unfold Q; done_err].
  unfold bind at 1.
  pose proof (metadata_update_item Metadata.RoksboxMetadata
                (Metadata.roksbox self) (Metadata.roksbox remote)
                (tree ++ ".roksbox") rd check_unmanaged w1
                (or_intror (or_introl eq_refl)))
    as (N2 & S2 & _ & T2 & _).
  destruct (Metadata._update_remote Metadata.RoksboxMetadata _ _ _ _ _ w1)
    as [[b2|e2] w2]; simpl in N2, S2, T2;
    [|unfold Q; done_err].
  destruct b2; [congruence|].
  unfold bind at 1. unfold lift at 1.
  destruct (as_dict x) as [xd|]; [|unfold Q; done_err].
  unfold bind at 1.
  pose proof (metadata_update_item Metadata.WdtvMetadata
                (Metadata.wdtv self) (Metadata.wdtv remote)
                (tree ++ ".wdtv") xd check_unmanaged w2
                (or_intror (or_intror (or_introl eq_refl))))
    as (N3 & S3 & _ & T3 & _).
  destruct (Metadata._update_remote Metadata.WdtvMetadata _ _ _ _ _ w2)
    as [[b3|e3] w3]; simpl in N3, S3, T3;
    [|unfold Q; done_err].
  destruct b3; [congruence|].
  unfold ret, Q. done_err.
Qed.

(** When the three resources are there and each definition has the
    [enable] of its resource, [update_remote] returns [False] after the
    one GET. *)
Theorem metadata_update_remote_in_sync
    (self remote : Metadata.LidarrMetadataSettingsConfig) (tree : string)
    (check_unmanaged : bool) (w w0 : world) (items : list value) :
  api_get Metadata.metadata_path w = (Ok (VList items), w0) ->
  metadata_resources items ->
  has_implementation "XbmcMetadata" items = true ->
  has_implementation "RoksboxMetadata" items = true ->
  has_implementation "WdtvMetadata" items = true ->
  same_enable (Metadata.kodi_emby self) (Metadata.kodi_emby remote) ->
  same_enable (Metadata.roksbox self) (Metadata.roksbox remote) ->
  same_enable (Metadata.wdtv self) (Metadata.wdtv remote) ->
  Metadata.update_remote self tree remote check_unmanaged w = (Ok false, w0).
Proof.
  intros Hget Hwf H1 H2 H3 Sk Sr Sx.
  destruct (fetch_spec w w0 items Hget Hwf) as (_ & _ & _ & F4).
  destruct (F4 H1 H2 H3) as (k & r & x & Hf).
  assert (Hd : exists kd rd xd, k = VDict kd /\ r = VDict rd /\ x = VDict xd).
  { destruct (pick_total items Hwf None None None) as [[[k' r'] x'] Hp].
    revert Hf. unfold Metadata.fetch. rewrite (bind_ok _ _ _ _ _ Hget).
    unfold bind, lift, raise, ret. cbn [as_list]. rewrite Hp.
    destruct (pick_last _ _ _ _ _ _ _ Hp) as (Ek & Er & Ex).
    destruct k' as [k'|], r' as [r'|], x' as [x'|]; try discriminate.
    intros E. inversion E; subst k r x. clear E.
    assert (Hdict : forall impl found m,
               (forall f, found = Some f -> exists d, f = VDict d) ->
               last_with impl items found = Some m -> exists d, m = VDict d).
    { clear. intros impl. induction items as [|i items IH]; intros found m Hfound H.
      - simpl in H. now apply Hfound.
      - simpl in H. destruct (subscript i "implementation") as [v|] eqn:Es.
        + destruct (py_eq v (VStr impl)).
          * eapply IH; [|exact H]. intros f Ef. inversion Ef; subst.
            destruct f; try discriminate. eauto.
          * eapply IH; eassumption.
        + eapply IH; eassumption. }
    destruct (Hdict "XbmcMetadata" None k') as [kd Hkd];
      [intros f Ef; discriminate | symmetry; exact Ek |].
    destruct (Hdict "RoksboxMetadata" None r') as [rd Hrd];
      [intros f Ef; discriminate | symmetry; exact Er |].
    destruct (Hdict "WdtvMetadata" None x') as [xd Hxd];
      [intros f Ef; discriminate | symmetry; exact Ex |].
    exists kd, rd, xd. auto. }
  destruct Hd as (kd & rd & xd & -> & -> & ->).
  unfold Metadata.update_remote. rewrite (bind_ok _ _ _ _ _ Hf). cbn beta iota.
  unfold lift at 1. unfold bind at 1. cbn [as_dict].
  pose proof (metadata_update_item Metadata.KodiEmbyMetadata
                (Metadata.kodi_emby self) (Metadata.kodi_emby remote)
                (tree ++ ".kodi_emby") kd check_unmanaged w0 (or_introl eq_refl))
    as (_ & _ & _ & _ & E1).
  rewrite (bind_ok _ _ _ _ _ (E1 Sk)).
  unfold lift at 1. unfold bind at 1. cbn [as_dict].
  pose proof (metadata_update_item Metadata.RoksboxMetadata
                (Metadata.roksbox self) (Metadata.roksbox remote)
                (tree ++ ".roksbox") rd check_unmanaged w0
                (or_intror (or_introl eq_refl)))
    as (_ & _ & _ & _ & E2).
  rewrite (bind_ok _ _ _ _ _ (E2 Sr)).
  unfold lift at 1. unfold bind at 1. cbn [as_dict].
  pose proof (metadata_update_item Metadata.WdtvMetadata
                (Metadata.wdtv self) (Metadata.wdtv remote)
                (tree ++ ".wdtv") xd check_unmanaged w0
                (or_intror (or_intror (or_introl eq_refl))))
    as (_ & _ & _ & _ & E3).
  rewrite (bind_ok _ _ _ _ _ (E3 Sx)).
  reflexivity.
Qed.

Lemma metadata_update_remote_in_sync_witness :
  Metadata.update_remote MetadataInSync.config "lidarr.settings.metadata"
    MetadataInSync.config false MetadataInSync.instance0
  = (Ok false, MetadataInSync.fetched).
Proof.
  apply (metadata_update_remote_in_sync MetadataInSync.config MetadataInSync.config
           "lidarr.settings.metadata" false MetadataInSync.instance0
           MetadataInSync.fetched MetadataInSync.items);
    try reflexivity.
  - repeat constructor; eexists; reflexivity.
  - do 2 eexists. repeat split; reflexivity.
  - do 2 eexists. repeat split; reflexivity.
  - do 2 eexists. repeat split; reflexivity.
Defined.

(** ** Media management: the two configuration resources *)

Lemma api_put_run (path : string) (id : value) (body : dict) (w : world) (d : dict) :
  Dict.get path (store w) = Some (VDict d) ->
  api_put path id body w
  = match fst (next_fault (faults w)) with
    | Some status => (Err (api_error status), called (ApiPut path id body) w)
    | None =>
        (Ok (VDict body),
         World (Dict.set path (VDict body) (store w))
               (next_id w)
               (snd (next_fault (faults w)))
               (trace w ++ [ApiPut path id body]))
    end.
Proof.
  intros Hget.
  unfold api_put, bind, emit, Api.respond, Api.read, Api.write, ret, called.
  simpl.
  destruct (faults w) as [|[st|] fs]; simpl; try reflexivity;
    rewrite Hget; reflexivity.
Qed.

Lemma filter_mutation_logs (t logs : list event) :
  Forall (fun e => exists l tr i s n, e = Log l tr i s n) logs ->
  filter is_mutation (t ++ logs) = filter is_mutation t.
Proof.
  intros Hl. rewrite filter_app.
  replace (filter is_mutation logs) with (@nil event); [apply app_nil_r|].
  induction Hl as [|e logs (l & tr & i & s & n & ->) _ IH]; simpl; auto.
Qed.

Lemma whole_table_put_run (path : string) (m : list RemoteMapEntry)
    (self remote : obj) (tree : string) (cu : bool) (w w' : world) :
  ('(updated, remote_attrs) <-
     get_update_remote_attrs self tree remote m cu true ;;
   if (updated : bool) then
     got <- api_get path ;;
     config_id <- lift (subscript got "id") ;;
     api_put path config_id (Dict.merge [("id", config_id)] remote_attrs) ;;
     ret true
   else ret false) w = (Ok true, w') ->
  ~ In "id" (map remote_name m) ->
  whole_table_put path m w w'.
Proof.
  intros H Hnoid.
  bind_inv H. destruct a as [updated attrs].
  destruct updated; [|unfold ret in H; inversion H].
  bind_inv H. rename a into got.
  bind_inv H. rename a into id.
  bind_inv H.
  unfold ret in H. inversion H; subst w'. clear H.
  unfold get_update_remote_attrs in E.
  pose proof (resolve_loop_logs_only _ _ _ _ _ _ _ _ _ _ E)
    as (Hs & _ & _ & logs & Ht & Hl).
  pose proof (resolve_loop_keys _ _ _ _ _ _ _ _ _ _ _ E) as Hsub.
  pose proof (resolve_loop_covers _ _ _ _ _ _ _ _ _ _ E) as Hsup.
  rewrite api_get_run in E0.
  destruct (fst (next_fault (faults w0))); [discriminate|].
  destruct (Dict.get path (store w0)) as [v|] eqn:Gs; [|discriminate].
  inversion E0; subst got w1. clear E0.
  unfold lift in E1. inversion E1 as [[Hid Hw2]]. subst w2. clear E1.
  destruct v as [| | | | | | | |d]; try discriminate.
  unfold subscript, Dict.index in Hid.
  destruct (Dict.get "id" d) as [i|] eqn:Gid; [|discriminate].
  inversion Hid; subst i. clear Hid.
  erewrite api_put_run in E2 by (simpl; exact Gs).
  simpl in E2.
  destruct (fst (next_fault (snd (next_fault (faults w0))))); [discriminate|].
  inversion E2; subst a w3. clear E2.
  exists d, id, (Dict.merge [("id", id)] attrs). simpl.
  split; [rewrite <- Hs; exact Gs|].
  split; [exact Gid|].
  split.
  { rewrite Ht, !filter_app. simpl.
    rewrite <- (app_nil_l logs), (filter_mutation_logs [] logs Hl). simpl.
    rewrite !app_nil_r. reflexivity. }
  split.
  { rewrite dict_get_merge_other; [reflexivity|].
    intros Hin. destruct (Hsub _ Hin) as [[]|Hin']. contradiction. }
  split; [|apply dict_get_set_same].
  intros k. rewrite dict_keys_merge. simpl. split.
  - intros [[<-|[]]|Hin]; [now left|].
    right. destruct (Hsub _ Hin) as [[]|Hin']. exact Hin'.
  - intros [->|Hin]; [left; now left|].
    right. eapply Hsup. now right.
Qed.

(** [_update_remote_naming] and [_update_remote_mediamanagement], when
    they return [True], have made exactly one write: the PUT of a body
    made of the identifier of the fresh snapshot and of one value for each
    entry of their table, which then is the whole resource on the
    instance. *)
Theorem media_management_put_is_whole_table
    (self remote : MediaManagement.LidarrMediaManagementSettingsConfig)
    (tree : string) (cu : bool) (w w' : world) :
  (MediaManagement._update_remote_naming self tree remote cu w = (Ok true, w') ->
   whole_table_put MediaManagement.naming_path
     MediaManagement._naming_remote_map w w')
  /\ (MediaManagement._update_remote_mediamanagement self tree remote cu w
        = (Ok true, w') ->
      whole_table_put MediaManagement.mediamanagement_path
        MediaManagement._mediamanagement_remote_map w w').
Proof.
  split; intros H.
  - apply (whole_table_put_run _ _ _ _ _ _ _ _ H).
    simpl. intuition discriminate.
  - apply (whole_table_put_run _ _ _ _ _ _ _ _ H).
    simpl. intuition discriminate.
Qed.

Lemma media_management_put_is_whole_table_witness :
  exists w',
    MediaManagement._update_remote_naming NamingExample.local
      "lidarr.settings.media_management" NamingExample.remote false
      NamingExample.instance0 = (Ok true, w')
    /\ whole_table_put MediaManagement.naming_path
         MediaManagement._naming_remote_map NamingExample.instance0 w'.
Proof.
  eexists. split.
  - vm_compute. reflexivity.
  - apply (proj1 (media_management_put_is_whole_table NamingExample.local
                    NamingExample.remote "lidarr.settings.media_management" false
                    NamingExample.instance0 _)).
    vm_compute. reflexivity.
Defined.

(** ** General settings: the PUT *)

Lemma resolver_frame (cls : settings_class) (self remote : obj)
    (tree : string) (cu : bool) (w w' : world) (u : bool) (attrs : dict) :
  General._update_remote_attrs cls self tree remote cu w = (Ok (u, attrs), w') ->
  store w' = store w
  /\ filter is_mutation (trace w') = filter is_mutation (trace w)
  /\ (forall k, In k (Dict.keys attrs) <-> In k (map remote_name (remote_map cls))).
Proof.
  unfold General._update_remote_attrs, get_update_remote_attrs. intros H.
  destruct (resolve_loop_logs_only _ _ _ _ _ _ _ _ _ _ H)
    as (Hs & _ & _ & logs & Ht & Hl).
  split; [exact Hs|]. split.
  - rewrite Ht. now apply filter_mutation_logs.
  - intros k. split.
    + intros Hk.
      destruct (resolve_loop_keys _ _ _ _ _ _ _ _ _ _ _ H k Hk) as [[]|Hin].
      exact Hin.
    + intros Hk. eapply resolve_loop_covers; [exact H | now right].
Qed.

(** [LidarrGeneralSettingsConfig.update_remote], when it returns [True],
    has made exactly one write: the PUT, under the identifier of the fresh
    snapshot, of that snapshot with the values of the seven groups laid
    over it.  Every field of the snapshot that no table names is in the
    body as it was, every remote name of the seven tables has a value
    there, and the body is the resource afterwards. *)
Theorem general_put_merges_over_snapshot
    (self remote : General.LidarrGeneralSettingsConfig) (tree : string)
    (cu : bool) (w w' : world) :
  General.update_remote self tree remote cu w = (Ok true, w') ->
  exists snapshot id body,
    Dict.get General.config_host (store w) = Some (VDict snapshot)
    /\ Dict.get "id" snapshot = Some id
    /\ filter is_mutation (trace w')
       = filter is_mutation (trace w) ++ [ ApiPut General.config_host id body ]
    /\ (forall k, ~ In k general_remote_names ->
                  Dict.get k body = Dict.get k snapshot)
    /\ (forall k, In k general_remote_names -> In k (Dict.keys body))
    /\ Dict.get General.config_host (store w') = Some (VDict body).
Proof.
  intros H. unfold General.update_remote in H.
  bind_inv H. destruct a as [u1 a1].
  bind_inv H. destruct a as [u2 a2].
  bind_inv H. destruct a as [u3 a3].
  bind_inv H. destruct a as [u4 a4].
  bind_inv H. destruct a as [u5 a5].
  bind_inv H. destruct a as [u6 a6].
  bind_inv H. destruct a as [u7 a7].
  apply resolver_frame in E, E0, E1, E2, E3, E4, E5.
  destruct E as (S1 & T1 & K1), E0 as (S2 & T2 & K2), E1 as (S3 & T3 & K3),
    E2 as (S4 & T4 & K4), E3 as (S5 & T5 & K5), E4 as (S6 & T6 & K6),
    E5 as (S7 & T7 & K7).
  assert (Sw : store w6 = store w) by congruence.
  assert (Tw : filter is_mutation (trace w6) = filter is_mutation (trace w))
    by congruence.
  destruct (py_any [u1; u2; u3; u4; u5; u6; u7]);
    [|unfold ret in H; inversion H].
  bind_inv H. rename a into got.
  bind_inv H. rename a into id.
  bind_inv H. rename a into remote_config.
  bind_inv H.
  unfold ret in H. inversion H; subst w'. clear H.
  rewrite api_get_run in E.
  destruct (fst (next_fault (faults w6))); [discriminate|].
  destruct (Dict.get General.config_host (store w6)) as [v|] eqn:G; [|discriminate].
  inversion E; subst got w7. clear E.
  unfold lift in E0, E1.
  inversion E0 as [[Hid Hw8]]. subst w8. clear E0.
  inversion E1 as [[Hcfg Hw9]]. subst w9. clear E1.
  destruct v as [| | | | | | | |d]; try discriminate.
  simpl in Hcfg. inversion Hcfg; subst remote_config. clear Hcfg.
  unfold subscript, Dict.index in Hid.
  destruct (Dict.get "id" d) as [i|] eqn:Gid; [|discriminate].
  inversion Hid; subst i. clear Hid.
  erewrite api_put_run in E2 by (simpl; exact G).
  simpl in E2.
  destruct (fst (next_fault (snd (next_fault (faults w6))))); [discriminate|].
  inversion E2; subst a w10. clear E2.
  exists d, id, (General.put_body d a1 a2 a3 a4 a5 a6 a7).
  split; [rewrite <- Sw; exact G|].
  split; [exact Gid|].
  split.
  { cbn [trace called]. rewrite !filter_app. simpl.
    rewrite Tw, app_nil_r. reflexivity. }
  split.
  { intros k Hk. apply general_put_body_passthrough;
      intros Hin; apply Hk; unfold general_remote_names;
      apply in_flat_map; eexists;
      (split;
       [|first [ apply (proj1 (K1 k)); exact Hin | apply (proj1 (K2 k)); exact Hin
               | apply (proj1 (K3 k)); exact Hin | apply (proj1 (K4 k)); exact Hin
               | apply (proj1 (K5 k)); exact Hin | apply (proj1 (K6 k)); exact Hin
               | apply (proj1 (K7 k)); exact Hin ]]);
      simpl; tauto. }
  split; [|cbn [store]; apply dict_get_set_same].
  intros k Hk. unfold general_remote_names in Hk.
  apply in_flat_map in Hk. destruct Hk as (c & Hc & Hk).
  unfold General.put_body. rewrite !dict_keys_merge.
  simpl in Hc.
  destruct Hc as [<-|[<-|[<-|[<-|[<-|[<-|[<-|[]]]]]]]].
  - apply K1 in Hk. tauto.
  - apply K2 in Hk. tauto.
  - apply K3 in Hk. tauto.
  - apply K4 in Hk. tauto.
  - apply K5 in Hk. tauto.
  - apply K6 in Hk. tauto.
  - apply K7 in Hk. tauto.
Qed.

Lemma general_put_merges_over_snapshot_witness :
  exists w' body,
    General.update_remote GeneralChange.local "lidarr.settings.general"
      GeneralExample.config false GeneralChange.instance0 = (Ok true, w')
    /\ filter is_mutation (trace w') = [ ApiPut General.config_host (VInt 1) body ]
    /\ Dict.get "undocumented" body = Some (VInt 42)
    /\ Dict.get "logLevel" body = Some (VStr "debug").
Proof.
  destruct (General.update_remote GeneralChange.local "lidarr.settings.general"
              GeneralExample.config false GeneralChange.instance0) as [r w'] eqn:Hrun.
  assert (Hr : r = Ok true) by (vm_compute in Hrun; congruence).
  subst r.
  destruct (general_put_merges_over_snapshot _ _ _ _ _ _ Hrun)
    as (snapshot & id & body & Hs & Hid & Ht & Hpass & _ & Hst).
  inversion Hs; subst snapshot. inversion Hid; subst id.
  exists w', body. split; [reflexivity|]. split; [exact Ht|]. split.
  - rewrite Hpass; [reflexivity|]. vm_compute. intuition discriminate.
  - vm_compute in Hrun. inversion Hrun as [Hw]. rewrite <- Hw in Hst.
    vm_compute in Hst. inversion Hst. reflexivity.
Defined.

(** ** Root folders: creation and deletion *)

Lemma mutations_app (t1 t2 : list event) :
  mutations (t1 ++ t2) = mutations t1 ++ mutations t2.
Proof. unfold mutations. apply filter_app. Qed.

Section RootFolderLoops.

Variables (tree : string).

Lemma rootfolder_create_missing_writes (current : dict) (todo : list (Z * string)) :
  forall changed w items,
    Dict.get MediaManagement.rootfolder_path (store w) = Some (VList items) ->
    faults w = [] ->
    exists w',
      MediaManagement.create_missing tree current todo changed w
        = (Ok (changed || nonempty (absent current (map snd todo))), w')
      /\ Dict.get MediaManagement.rootfolder_path (store w')
           = Some (VList (items ++ created_rootfolders (next_id w)
                                     (absent current (map snd todo))))
      /\ faults w' = []
      /\ mutations (trace w')
           = mutations (trace w)
               ++ map (fun p => ApiPost MediaManagement.rootfolder_path
                                  (MediaManagement.rootfolder_body p))
                    (absent current (map snd todo)).
Proof.
  induction todo as [|[i p] todo IH]; intros changed w items Hget Hf.
  - exists w. simpl. unfold ret.
    rewrite orb_false_r, !app_nil_r. auto.
  - simpl. unfold absent in *. simpl.
    destruct (Dict.mem p current) eqn:Em; simpl.
    + unfold log, emit, bind at 1. simpl.
      destruct (IH changed
                  (World (store w) (next_id w) (faults w)
                     (trace w ++ [Log DEBUG tree (Some i) (VStr p) Exists]))
                  items Hget Hf) as (w' & Hrun & Hst & Hfs & Hps).
      exists w'. simpl in *. rewrite Hrun. repeat split; auto.
      rewrite Hps, mutations_app. simpl. now rewrite app_nil_r.
    + unfold log, emit, bind at 1. simpl.
      unfold bind at 1.
      erewrite api_post_run by (simpl; exact Hget).
      simpl. rewrite Hf. simpl.
      match goal with
      | |- context [MediaManagement.create_missing _ _ _ true ?W] =>
          destruct (IH true W (items ++ [created_rootfolder (next_id w) p])) as
            (w' & Hrun & Hst & Hfs & Hps)
      end.
      { simpl. apply dict_get_set_same. }
      { reflexivity. }
      exists w'. simpl in *. rewrite Hrun.
      rewrite orb_true_r. repeat split; auto.
      * rewrite Hst, <- app_assoc. reflexivity.
      * rewrite Hps, !mutations_app. simpl. rewrite <- !app_assoc. reflexivity.
Qed.

(** With a failing DELETE: the error comes out of the loop, the root
    folders deleted before it are gone, and no call follows the failed
    one. *)
Lemma delete_unexpected_fail (expected : list string) (index : dict) :
  forall i changed w l j status rest,
    Dict.get MediaManagement.rootfolder_path (store w) = Some (VList l) ->
    faults w = repeat None j ++ Some status :: rest ->
    (j < length (unexpected expected index))%nat ->
    exists w',
      MediaManagement.delete_unexpected tree true expected index i changed w
        = (Err (api_error status), w')
      /\ Dict.get MediaManagement.rootfolder_path (store w')
           = Some (VList (remaining
                            (firstn j (map snd (unexpected expected index))) l))
      /\ faults w' = rest
      /\ deletes_of MediaManagement.rootfolder_path (trace w')
           = deletes_of MediaManagement.rootfolder_path (trace w)
               ++ firstn (S j) (map snd (unexpected expected index)).
Proof.
  induction index as [|[p id] index IH]; intros i changed w l j status rest Hget Hf Hj.
  - simpl in Hj. lia.
  - simpl. unfold unexpected in *. simpl in *.
    destruct (PyStr.mem p expected) eqn:Em; simpl in *.
    + apply IH; assumption.
    + unfold log, emit, bind at 1. simpl.
      unfold bind at 1.
      erewrite api_delete_run by (simpl; exact Hget).
      simpl. rewrite Hf.
      destruct j as [|j]; simpl.
      * eexists. split; [reflexivity|]. simpl.
        rewrite remaining_nil, !deletes_of_app. simpl.
        rewrite <- app_assoc. auto.
      * match goal with
        | |- context [MediaManagement.delete_unexpected _ _ _ _ _ true ?W] =>
            destruct (IH (i - 1)%Z true W
                        (filter (fun r => negb (Api.has_id id r)) l)
                        j status rest) as (w' & Hrun & Hst & Hfs & Hds)
        end.
        { simpl. apply dict_get_set_same. }
        { reflexivity. }
        { lia. }
        exists w'. simpl in *. rewrite Hrun. repeat split; auto.
        -- rewrite Hst, remaining_cons. reflexivity.
        -- rewrite Hds, !deletes_of_app. simpl. rewrite <- !app_assoc. reflexivity.
Qed.

End RootFolderLoops.

(** [_update_remote_rootfolder], on an instance that answers every call:
    the writes are the POSTs of the local root folders that the instance
    does not have, each with its path as [path] and as [name] and with
    both default profile identifiers set to 1; the instance then has these
    folders after the ones it had; root folders that exist are not
    touched, and the result is [True] exactly when one was missing. *)
Theorem rootfolder_update_remote_creates_missing
    (self remote : MediaManagement.LidarrMediaManagementSettingsConfig)
    (tree : string) (cu : bool) (w : world) (items : list value) (current : dict) :
  Dict.get MediaManagement.rootfolder_path (store w) = Some (VList items) ->
  faults w = [] ->
  Tags.index_by "path" items [] = Ok current ->
  let missing := absent current (MediaManagement.root_folders self) in
  exists w',
    MediaManagement._update_remote_rootfolder self tree remote cu w
      = (Ok (nonempty missing), w')
    /\ mutations (trace w')
         = mutations (trace w)
             ++ map (fun p => ApiPost MediaManagement.rootfolder_path
                                [ ("path", VStr p); ("name", VStr p);
                                  ("defaultQualityProfileId", VInt 1);
                                  ("defaultMetadataProfileId", VInt 1) ])
                  missing
    /\ Dict.get MediaManagement.rootfolder_path (store w')
         = Some (VList (items ++ created_rootfolders (next_id w) missing)).
Proof.
  intros Hget Hf Hidx missing.
  unfold MediaManagement._update_remote_rootfolder.
  assert (Hnf : fst (next_fault (faults w)) = None) by (rewrite Hf; reflexivity).
  rewrite (fetch_collection _ _ _ _ _ _ Hget Hnf Hidx).
  destruct (rootfolder_create_missing_writes tree current
              (enumerate (MediaManagement.root_folders self)) false
              (called (ApiGet MediaManagement.rootfolder_path) w) items)
    as (w' & Hrun & Hst & _ & Hps).
  { exact Hget. }
  { simpl. now rewrite Hf. }
  unfold enumerate in *. rewrite map_snd_enumerate_from in *.
  exists w'. split; [exact Hrun|]. split; [|exact Hst].
  rewrite Hps. simpl. rewrite mutations_app. simpl. now rewrite app_nil_r.
Qed.

Lemma rootfolder_update_remote_creates_missing_witness :
  exists w',
    MediaManagement._update_remote_rootfolder
      (MediaManagement.Config [] [ "d"; "a" ] false)
      "lidarr.settings.media_management.root_folders"
      (RootFolderExample.keep false) false RootFolderExample.instance0
      = (Ok true, w')
    /\ mutations (trace w')
         = [ ApiPost MediaManagement.rootfolder_path
               [ ("path", VStr "d"); ("name", VStr "d");
                 ("defaultQualityProfileId", VInt 1);
                 ("defaultMetadataProfileId", VInt 1) ] ]
    /\ Dict.get MediaManagement.rootfolder_path (store w')
         = Some (VList [ RootFolderExample.folder 1 "a"; RootFolderExample.folder 2 "b";
                         RootFolderExample.folder 3 "c"; created_rootfolder 4 "d" ]).
Proof.
  apply (rootfolder_update_remote_creates_missing
           (MediaManagement.Config [] [ "d"; "a" ] false)
           (RootFolderExample.keep false)
           "lidarr.settings.media_management.root_folders" false
           RootFolderExample.instance0
           [ RootFolderExample.folder 1 "a"; RootFolderExample.folder 2 "b";
             RootFolderExample.folder 3 "c" ]
           RootFolderExample.entries);
    reflexivity.
Defined.

(** When the DELETE of the unexpected root folder number [j] (counting
    from zero, in the order of the index) is answered with a non-2xx
    status, [delete_remote] ends with that [LidarrAPIError]; the root
    folders deleted before it are gone and stay gone, the failed DELETE
    has been sent once, and nothing was sent after it. *)
Theorem rootfolder_delete_failure_is_not_rolled_back
    (self remote : MediaManagement.LidarrMediaManagementSettingsConfig)
    (tree : string) (w : world) (items : list value) (index : dict)
    (j : nat) (status : Z) (rest : list (option Z)) :
  MediaManagement.delete_unmanaged_root_folders self = true ->
  Dict.get MediaManagement.rootfolder_path (store w) = Some (VList items) ->
  Tags.index_by "path" items [] = Ok index ->
  faults w = repeat None (S j) ++ Some status :: rest ->
  (j < length (unexpected (MediaManagement.root_folders self) index))%nat ->
  let doomed := map snd (unexpected (MediaManagement.root_folders self) index) in
  exists w',
    MediaManagement.delete_remote self tree remote w
      = (Err (LidarrAPIError "Unexpected response from Lidarr" status), w')
    /\ Dict.get MediaManagement.rootfolder_path (store w')
         = Some (VList (remaining (firstn j doomed) items))
    /\ deletes_of MediaManagement.rootfolder_path (trace w')
         = deletes_of MediaManagement.rootfolder_path (trace w)
             ++ firstn (S j) doomed
    /\ faults w' = rest.
Proof.
  intros Hdu Hget Hidx Hf Hj doomed.
  unfold MediaManagement.delete_remote, MediaManagement._delete_remote_rootfolder.
  assert (Hnf : fst (next_fault (faults w)) = None) by (rewrite Hf; reflexivity).
  rewrite (fetch_collection _ _ _ _ _ _ Hget Hnf Hidx), Hdu.
  destruct (delete_unexpected_fail (tree ++ ".root_folders")
              (MediaManagement.root_folders self) index (-1)%Z false
              (called (ApiGet MediaManagement.rootfolder_path) w) items
              j status rest)
    as (w' & Hrun & Hst & Hfs & Hds).
  { exact Hget. }
  { simpl. now rewrite Hf. }
  { exact Hj. }
  exists w'. split; [exact Hrun|]. split; [exact Hst|]. split; [|exact Hfs].
  rewrite Hds. simpl. rewrite deletes_of_app. simpl. now rewrite app_nil_r.
Qed.

Lemma rootfolder_delete_failure_is_not_rolled_back_witness :
  exists w',
    MediaManagement.delete_remote RootFolderFailure.keep_none
      "lidarr.settings.media_management" RootFolderFailure.keep_none
      RootFolderFailure.instance0
      = (Err (LidarrAPIError "Unexpected response from Lidarr" 500), w')
    /\ Dict.get MediaManagement.rootfolder_path (store w')
         = Some (VList [ RootFolderExample.folder 2 "b";
                         RootFolderExample.folder 3 "c" ])
    /\ deletes_of MediaManagement.rootfolder_path (trace w') = [ VInt 1; VInt 2 ]
    /\ faults w' = [].
Proof.
  apply (rootfolder_delete_failure_is_not_rolled_back RootFolderFailure.keep_none
           RootFolderFailure.keep_none "lidarr.settings.media_management"
           RootFolderFailure.instance0
           [ RootFolderExample.folder 1 "a"; RootFolderExample.folder 2 "b";
             RootFolderExample.folder 3 "c" ]
           RootFolderExample.entries 1 500 []).
  - reflexivity.
  - reflexivity.
  - reflexivity.
  - reflexivity.
  - simpl. lia.
Defined.

Lemma py_eq_int (z : Z) (v : value) : py_eq (VInt z) v = true -> v = VInt z.
Proof.
  destruct v; simpl; try discriminate.
  intros H. apply Z.eqb_eq in H. now subst.
Qed.

Lemma has_id_of_entry (item : value) (i id : value) :
  subscript item "id" = Ok i -> Api.has_id id item = py_eq i id.
Proof.
  destruct item as [| | | | | | | |d]; simpl; try discriminate.
  unfold Dict.index. destruct (Dict.get "id" d); [|discriminate].
  intros E. now inversion E.
Qed.

(** Whether a resource goes in the deletion pass: it does exactly when the
    local set does not have its path. *)
Lemma doomed_iff_unexpected (expected : list string) (all : list (string * value))
    (item : value) (p : string) (i : value) :
  distinct_ids all ->
  In (p, i) all ->
  subscript item "id" = Ok i ->
  existsb (fun id => Api.has_id id item) (map snd (unexpected expected all))
  = negb (PyStr.mem p expected).
Proof.
  intros [Hnd Hint] Hin Hid.
  destruct (PyStr.mem p expected) eqn:Em; simpl.
  - destruct (existsb _ _) eqn:Ex; [|reflexivity]. exfalso.
    apply existsb_exists in Ex. destruct Ex as (id & Hid_in & Hhas).
    rewrite (has_id_of_entry _ _ _ Hid) in Hhas.
    rewrite Forall_forall in Hint.
    destruct (Hint _ Hin) as [z Hz]. simpl in Hz. subst i.
    apply py_eq_int in Hhas. subst id.
    apply in_map_iff in Hid_in. destruct Hid_in as ([p' i'] & Hs & Hu).
    simpl in Hs. subst i'.
    unfold unexpected in Hu. apply filter_In in Hu. destruct Hu as [Hall Hne].
    simpl in Hne.
    assert (Heq : (p', VInt z) = (p, VInt z))
      by (eapply (NoDup_map_inj snd); eauto).
    inversion Heq; subst p'. rewrite Em in Hne. discriminate.
  - apply existsb_exists. exists i. split.
    + apply in_map_iff. exists (p, i). split; [reflexivity|].
      unfold unexpected. apply filter_In. simpl. now rewrite Em.
    + rewrite (has_id_of_entry _ _ _ Hid). apply py_eq_refl.
Qed.

Lemma remaining_paths (expected : list string) (all : list (string * value))
    (items : list value) :
  distinct_ids all ->
  forall rfs,
    resource_entries "path" items = Ok rfs ->
    incl rfs all ->
    MediaManagement.paths (remaining (map snd (unexpected expected all)) items)
    = Ok (kept expected (map fst rfs)).
Proof.
  intros Hd. induction items as [|item items IH]; intros rfs He Hincl; simpl in *.
  - inversion He. reflexivity.
  - destruct (subscript item "path") as [k|] eqn:Ep; simpl in He; [|discriminate].
    destruct (subscript item "id") as [i|] eqn:Ei; simpl in He; [|discriminate].
    destruct k as [| | |p| | | | |]; try discriminate.
    destruct (resource_entries "path" items) as [r|] eqn:Er; simpl in He; [|discriminate].
    inversion He; subst rfs. clear He.
    assert (Hin : In (p, i) all) by (apply Hincl; now left).
    assert (Hincl' : incl r all) by (intros x Hx; apply Hincl; now right).
    unfold remaining in *. simpl.
    rewrite (doomed_iff_unexpected expected all item p i Hd Hin Ei).
    unfold kept in *. simpl.
    destruct (PyStr.mem p expected); simpl.
    + rewrite Ep. simpl. rewrite (IH r eq_refl Hincl'). reflexivity.
    + apply (IH r eq_refl Hincl').
Qed.

Lemma delete_remote_rootfolder_leaves_kept
    (self remote : MediaManagement.LidarrMediaManagementSettingsConfig)
    (tree : string) (w : world) (items : list value) (rfs : list (string * value)) :
  MediaManagement.delete_unmanaged_root_folders self = true ->
  Dict.get MediaManagement.rootfolder_path (store w) = Some (VList items) ->
  faults w = [] ->
  resource_entries "path" items = Ok rfs ->
  NoDup (map fst rfs) ->
  distinct_ids rfs ->
  exists b w' left,
    MediaManagement._delete_remote_rootfolder self tree remote w = (Ok b, w')
    /\ Dict.get MediaManagement.rootfolder_path (store w') = Some (VList left)
    /\ MediaManagement.paths left
       = Ok (kept (MediaManagement.root_folders self) (map fst rfs)).
Proof.
  intros Hdu Hget Hf He Hnd Hd.
  assert (Hidx : Tags.index_by "path" items [] = Ok rfs).
  { rewrite (index_by_entries "path" items rfs [] He); [reflexivity | exact Hnd]. }
  assert (Hnf : fst (next_fault (faults w)) = None) by (rewrite Hf; reflexivity).
  unfold MediaManagement._delete_remote_rootfolder.
  rewrite (fetch_collection _ _ _ _ _ _ Hget Hnf Hidx), Hdu.
  destruct (delete_unexpected_on tree
              (MediaManagement.root_folders self) rfs (-1)%Z false
              (called (ApiGet MediaManagement.rootfolder_path) w) items)
    as (w' & Hrun & Hst & _).
  { exact Hget. }
  { simpl. now rewrite Hf. }
  eexists. exists w'. eexists. split; [exact Hrun|]. split; [exact Hst|].
  apply remaining_paths; [exact Hd | exact He | apply incl_refl].
Qed.

(** With [delete_unmanaged_root_folders] set, on an instance that answers
    every call and whose root folders have distinct paths and distinct
    integer identifiers, [delete_remote] leaves on the instance exactly
    the root folders whose path is in the local set, in their order. *)
Theorem rootfolder_delete_leaves_local
    (self remote : MediaManagement.LidarrMediaManagementSettingsConfig)
    (tree : string) (w : world) (items : list value) (rfs : list (string * value)) :
  MediaManagement.delete_unmanaged_root_folders self = true ->
  Dict.get MediaManagement.rootfolder_path (store w) = Some (VList items) ->
  faults w = [] ->
  resource_entries "path" items = Ok rfs ->
  NoDup (map fst rfs) ->
  distinct_ids rfs ->
  exists b w' left,
    MediaManagement.delete_remote self tree remote w = (Ok b, w')
    /\ Dict.get MediaManagement.rootfolder_path (store w') = Some (VList left)
    /\ MediaManagement.paths left
       = Ok (kept (MediaManagement.root_folders self) (map fst rfs)).
Proof.
  intros Hdu Hget Hf He Hnd Hd.
  unfold MediaManagement.delete_remote.
  now apply (delete_remote_rootfolder_leaves_kept self remote
               (tree ++ ".root_folders") w items rfs).
Qed.

Lemma rootfolder_delete_leaves_local_witness :
  exists b w' left,
    MediaManagement.delete_remote (RootFolderExample.keep true)
      "lidarr.settings.media_management" (RootFolderExample.keep true)
      RootFolderExample.instance0 = (Ok b, w')
    /\ Dict.get MediaManagement.rootfolder_path (store w') = Some (VList left)
    /\ MediaManagement.paths left = Ok [ "a" ].
Proof.
  apply (rootfolder_delete_leaves_local (RootFolderExample.keep true)
           (RootFolderExample.keep true) "lidarr.settings.media_management"
           RootFolderExample.instance0
           [ RootFolderExample.folder 1 "a"; RootFolderExample.folder 2 "b";
             RootFolderExample.folder 3 "c" ]
           RootFolderExample.entries); try reflexivity.
  - simpl. repeat constructor; simpl; intuition discriminate.
  - split.
    + simpl. repeat constructor; simpl; intuition discriminate.
    + repeat constructor; eexists; reflexivity.
Defined.

Lemma resource_entries_created_rootfolders (i : Z) (paths : list string) :
  resource_entries "path" (created_rootfolders i paths) = Ok (created_entries i paths).
Proof.
  revert i. induction paths as [|p paths IH]; intros i; simpl; [reflexivity|].
  rewrite IH. reflexivity.
Qed.

Lemma created_entries_fst (i : Z) (paths : list string) :
  map fst (created_entries i paths) = paths.
Proof.
  revert i. induction paths as [|p paths IH]; intros i; simpl; [reflexivity|].
  now rewrite IH.
Qed.

Lemma created_entries_ids (i : Z) (paths : list string) (v : value) :
  In v (map snd (created_entries i paths)) -> exists z, v = VInt z /\ (i <= z)%Z.
Proof.
  revert i. induction paths as [|p paths IH]; intros i; simpl; [contradiction|].
  intros [<-|Hin].
  - exists i. split; [reflexivity | lia].
  - destruct (IH _ Hin) as (z & -> & Hz). exists z. split; [reflexivity | lia].
Qed.

Lemma created_entries_distinct (i : Z) (paths : list string) :
  distinct_ids (created_entries i paths).
Proof.
  revert i. induction paths as [|p paths IH]; intros i.
  - split; constructor.
  - destruct (IH (i + 1)%Z) as [Hnd Hint]. split; simpl.
    + constructor; [|exact Hnd].
      intros Hin. apply created_entries_ids in Hin.
      destruct Hin as (z & Hz & Hle). inversion Hz. lia.
    + constructor; [eexists; reflexivity | exact Hint].
Qed.

Lemma distinct_ids_app (n : Z) (rfs : list (string * value)) (paths : list string) :
  NoDup (map snd rfs) ->
  ids_below n rfs ->
  distinct_ids (rfs ++ created_entries n paths).
Proof.
  intros Hnd Hb. destruct (created_entries_distinct n paths) as [Hnd' Hint'].
  split.
  - rewrite map_app. apply NoDup_app; [exact Hnd | exact Hnd'|].
    intros v Hv Hv'. apply created_entries_ids in Hv'.
    destruct Hv' as (z & -> & Hz).
    apply in_map_iff in Hv. destruct Hv as (kv & Hs & Hin).
    unfold ids_below in Hb. rewrite Forall_forall in Hb.
    destruct (Hb _ Hin) as (z' & Hz' & Hlt). rewrite Hs in Hz'.
    inversion Hz'. lia.
  - apply Forall_app. split; [|exact Hint'].
    eapply Forall_impl; [|exact Hb]. intros kv (z & Hz & _). eauto.
Qed.

(** [update_remote] followed by [delete_remote], with
    [delete_unmanaged_root_folders] set, on an instance that answers every
    call: the root folders of the instance are then those of the local set
    and no others.  The instance is one whose root folders have distinct
    paths and distinct integer identifiers, all below the identifier the
    server assigns next. *)
Theorem rootfolder_update_then_delete_converges
    (self remote : MediaManagement.LidarrMediaManagementSettingsConfig)
    (tree : string) (cu : bool) (w : world) (items : list value)
    (rfs : list (string * value)) :
  MediaManagement.delete_unmanaged_root_folders self = true ->
  NoDup (MediaManagement.root_folders self) ->
  Dict.get MediaManagement.rootfolder_path (store w) = Some (VList items) ->
  faults w = [] ->
  resource_entries "path" items = Ok rfs ->
  NoDup (map fst rfs) ->
  NoDup (map snd rfs) ->
  ids_below (next_id w) rfs ->
  exists b1 w1 b2 w2 left paths,
    MediaManagement._update_remote_rootfolder self (tree ++ ".root_folders")
      remote cu w = (Ok b1, w1)
    /\ MediaManagement.delete_remote self tree remote w1 = (Ok b2, w2)
    /\ Dict.get MediaManagement.rootfolder_path (store w2) = Some (VList left)
    /\ MediaManagement.paths left = Ok paths
    /\ forall p, In p paths <-> In p (MediaManagement.root_folders self).
Proof.
  intros Hdu Hroots Hget Hf He Hnd Hids Hbelow.
  assert (Hidx : Tags.index_by "path" items [] = Ok rfs).
  { rewrite (index_by_entries "path" items rfs [] He); [reflexivity | exact Hnd]. }
  assert (Hnf : fst (next_fault (faults w)) = None) by (rewrite Hf; reflexivity).
  set (missing := absent rfs (MediaManagement.root_folders self)).
  (* the update *)
  assert (Hup : exists w1,
             MediaManagement._update_remote_rootfolder self (tree ++ ".root_folders")
               remote cu w = (Ok (nonempty missing), w1)
             /\ Dict.get MediaManagement.rootfolder_path (store w1)
                = Some (VList (items ++ created_rootfolders (next_id w) missing))
             /\ faults w1 = []).
  { unfold MediaManagement._update_remote_rootfolder.
    rewrite (fetch_collection _ _ _ _ _ _ Hget Hnf Hidx).
    destruct (rootfolder_create_missing_writes (tree ++ ".root_folders") rfs
                (enumerate (MediaManagement.root_folders self)) false
                (called (ApiGet MediaManagement.rootfolder_path) w) items)
      as (w1 & Hrun & Hst & Hfs & _).
    { exact Hget. }
    { simpl. now rewrite Hf. }
    unfold enumerate in *. rewrite map_snd_enumerate_from in *.
    exists w1. auto. }
  destruct Hup as (w1 & Hrun1 & Hst1 & Hf1).
  (* the instance after the update *)
  pose proof (resource_entries_app _ _ _ _ _ He
                (resource_entries_created_rootfolders (next_id w) missing)) as He1.
  assert (Hmiss : forall p, In p missing <->
                            In p (MediaManagement.root_folders self)
                            /\ ~ In p (map fst rfs)).
  { intros p. unfold missing, absent. rewrite filter_In, negb_true_iff.
    unfold Dict.mem.
    destruct (Dict.get p rfs) eqn:G.
    - split; [intros [_ ?]; discriminate|].
      intros [_ Hn]. exfalso. apply Hn.
      apply (proj2 (dict_get_none_keys p rfs)) in Hn. congruence.
    - apply dict_get_none_keys in G. tauto. }
  assert (Hnd1 : NoDup (map fst (rfs ++ created_entries (next_id w) missing))).
  { rewrite map_app, created_entries_fst. apply NoDup_app.
    - exact Hnd.
    - unfold missing, absent. now apply NoDup_filter.
    - intros p Hp Hp'. apply Hmiss in Hp'. tauto. }
  destruct (delete_remote_rootfolder_leaves_kept self remote
              (tree ++ ".root_folders") w1 _ _ Hdu Hst1 Hf1 He1 Hnd1
              (distinct_ids_app _ _ _ Hids Hbelow))
    as (b2 & w2 & left & Hrun2 & Hst2 & Hpaths).
  exists (nonempty missing), w1, b2, w2, left. eexists.
  split; [exact Hrun1|]. split; [exact Hrun2|]. split; [exact Hst2|].
  split; [exact Hpaths|].
  intros p. unfold kept. rewrite filter_In, map_app, created_entries_fst,
    in_app_iff, mem_in, Hmiss.
  split; [tauto|].
  intros Hp. split; [|exact Hp].
  destruct (in_dec string_dec p (map fst rfs)); tauto.
Qed.

Lemma rootfolder_update_then_delete_converges_witness :
  exists b1 w1 b2 w2 left paths,
    MediaManagement._update_remote_rootfolder RootFolderSync.local
      ("lidarr.settings.media_management" ++ ".root_folders")
      RootFolderSync.local false RootFolderExample.instance0 = (Ok b1, w1)
    /\ MediaManagement.delete_remote RootFolderSync.local
         "lidarr.settings.media_management" RootFolderSync.local w1 = (Ok b2, w2)
    /\ Dict.get MediaManagement.rootfolder_path (store w2) = Some (VList left)
    /\ MediaManagement.paths left = Ok paths
    /\ forall p, In p paths <-> In p [ "d"; "a" ].
Proof.
  apply (rootfolder_update_then_delete_converges RootFolderSync.local
           RootFolderSync.local "lidarr.settings.media_management" false
           RootFolderExample.instance0
           [ RootFolderExample.folder 1 "a"; RootFolderExample.folder 2 "b";
             RootFolderExample.folder 3 "c" ]
           RootFolderExample.entries); try reflexivity.
  - simpl. repeat constructor; simpl; intuition discriminate.
  - simpl. repeat constructor; simpl; intuition discriminate.
  - simpl. repeat constructor; simpl; intuition discriminate.
  - repeat constructor; eexists; (split; [reflexivity | simpl; lia]).
Defined.

(** ** Media management: nothing to do *)

Lemma create_missing_all_exist (tree : string) (current : dict)
    (todo : list (Z * string)) :
  Forall (fun ip => Dict.mem (snd ip) current = true) todo ->
  forall changed w,
    exists w',
      MediaManagement.create_missing tree current todo changed w = (Ok changed, w')
      /\ store w' = store w
      /\ mutations (trace w') = mutations (trace w)
      /\ exists t, trace w' = trace w ++ t.
Proof.
  induction 1 as [|[i p] todo Hp _ IH]; intros changed w.
  - exists w. repeat split; auto. exists []. now rewrite app_nil_r.
  - cbn [MediaManagement.create_missing]. cbn [snd] in Hp. rewrite Hp.
    unfold log, emit, bind at 1.
    destruct (IH changed
                (World (store w) (next_id w) (faults w)
                   (trace w ++ [Log DEBUG tree (Some i) (VStr p) Exists])))
      as (w' & Hrun & Hst & Hmu & t & Ht).
    exists w'. split; [exact Hrun|]. split; [exact Hst|]. split.
    + rewrite Hmu. cbn [trace]. rewrite mutations_app. cbn. apply app_nil_r.
    + cbn [trace] in Ht. rewrite <- app_assoc in Ht. eauto.
Qed.

Lemma in_sync_resolver (m : list RemoteMapEntry) (self remote : obj)
    (tree : string) (cu : bool) (w : world) :
  in_sync m self remote ->
  exists attrs,
    get_update_remote_attrs self tree remote m cu true w = (Ok (false, attrs), w).
Proof.
  intros Hs. unfold get_update_remote_attrs.
  exact (resolve_loop_in_sync tree self remote m true Hs false [] w).
Qed.

(** When the local and the remote media management settings agree on every
    entry of the two tables and the instance has every root folder of the
    local set, [update_remote] returns [False]: it reads the root folders
    and writes nothing, so the instance is as before. *)
Theorem media_management_update_remote_in_sync
    (self remote : MediaManagement.LidarrMediaManagementSettingsConfig)
    (tree : string) (check_unmanaged : bool) (w : world) (items : list value)
    (current : dict) :
  in_sync MediaManagement._naming_remote_map
    (MediaManagement.attrs self) (MediaManagement.attrs remote) ->
  in_sync MediaManagement._mediamanagement_remote_map
    (MediaManagement.attrs self) (MediaManagement.attrs remote) ->
  Dict.get MediaManagement.rootfolder_path (store w) = Some (VList items) ->
  fst (next_fault (faults w)) = None ->
  Tags.index_by "path" items [] = Ok current ->
  incl (MediaManagement.root_folders self) (Dict.keys current) ->
  exists w',
    MediaManagement.update_remote self tree remote check_unmanaged w = (Ok false, w')
    /\ store w' = store w
    /\ mutations (trace w') = mutations (trace w)
    /\ In (ApiGet MediaManagement.rootfolder_path) (trace w').
Proof.
  intros Hn Hm Hget Hf Hidx Hincl.
  destruct (in_sync_resolver _ _ _ tree check_unmanaged w Hn) as [a1 H1].
  destruct (in_sync_resolver _ _ _ tree check_unmanaged w Hm) as [a2 H2].
  assert (Hall : Forall (fun ip : Z * string => Dict.mem (snd ip) current = true)
                   (enumerate (MediaManagement.root_folders self))).
  { apply Forall_forall. intros [i p] Hin. cbn [snd].
    assert (Hp : In p (MediaManagement.root_folders self)).
    { unfold enumerate in Hin.
      rewrite <- (map_snd_enumerate_from (MediaManagement.root_folders self) 0).
      apply in_map_iff. exists (i, p). auto. }
    apply Hincl in Hp. unfold Dict.mem.
    destruct (Dict.get p current) eqn:G; [reflexivity|].
    apply dict_get_none_keys in G. contradiction. }
  destruct (create_missing_all_exist (tree ++ ".root_folders") current _ Hall false
              (called (ApiGet MediaManagement.rootfolder_path) w))
    as (w' & Hrun & Hst & Hmu & Hpre).
  exists w'.
  assert (Htr : exists t, trace w' = trace w ++ ApiGet MediaManagement.rootfolder_path :: t).
  { destruct Hpre as [t Ht]. cbn [trace called] in Ht.
    rewrite <- app_assoc in Ht. exists t. exact Ht. }
  split.
  - unfold MediaManagement.update_remote, MediaManagement._update_remote_naming,
      MediaManagement._update_remote_mediamanagement,
      MediaManagement._update_remote_rootfolder.
    unfold bind at 1. unfold bind at 1. rewrite H1. unfold ret at 1.
    unfold bind at 1. unfold bind at 1. rewrite H2. unfold ret at 1.
    unfold bind at 1.
    rewrite (fetch_collection _ _ _ _ _ _ Hget Hf Hidx), Hrun. reflexivity.
  - split; [exact Hst|]. split.
    + rewrite Hmu. cbn [trace called]. rewrite mutations_app. cbn. apply app_nil_r.
    + destruct Htr as [t ->]. apply in_or_app. right. now left.
Qed.

Lemma media_management_update_remote_in_sync_witness :
  exists w',
    MediaManagement.update_remote MediaInSync.local "lidarr.settings.media_management"
      MediaInSync.local false RootFolderExample.instance0 = (Ok false, w')
    /\ store w' = store RootFolderExample.instance0
    /\ mutations (trace w') = mutations (trace RootFolderExample.instance0)
    /\ In (ApiGet MediaManagement.rootfolder_path) (trace w').
Proof.
  apply (media_management_update_remote_in_sync MediaInSync.local MediaInSync.local
           "lidarr.settings.media_management" false RootFolderExample.instance0
           [ RootFolderExample.folder 1 "a"; RootFolderExample.folder 2 "b";
             RootFolderExample.folder 3 "c" ]
           RootFolderExample.entries); try reflexivity.
  - intros e He. cbn in He.
    repeat (destruct He as [<-|He];
            [do 3 eexists; repeat split; vm_compute; reflexivity|]).
    contradiction.
  - intros e He. cbn in He.
    repeat (destruct He as [<-|He];
            [do 3 eexists; repeat split; vm_compute; reflexivity|]).
    contradiction.
  - intros p Hp. cbn in *. intuition.
Defined.

(** ** The address list is sent in one order *)

(** The encoder of [ignored_addresses] sorts: two local sets with the same
    members, listed in any order, are sent as the same string. *)
Theorem addresses_encoder_ignores_order (l1 l2 : list string) :
  Permutation l1 l2 ->
  Codec.addresses_encoder (VSet l1) = Codec.addresses_encoder (VSet l2).
Proof.
  intros Hp. unfold Codec.addresses_encoder.
  rewrite (sorted_permutation l1 l2 Hp).
  destruct l1 as [|a l1], l2 as [|b l2]; try reflexivity.
  apply Permutation_nil in Hp. discriminate.
Qed.

Lemma addresses_encoder_ignores_order_witness :
  Codec.addresses_encoder (VSet [ "b.example"; "a.example" ])
  = Codec.addresses_encoder (VSet [ "a.example"; "b.example" ]).
Proof.
  apply (addresses_encoder_ignores_order [ "b.example"; "a.example" ]
           [ "a.example"; "b.example" ]).
  apply perm_swap.
Defined.

(** ** [ChmodFolder.validate] *)

(** [ChmodFolder.validate] reads a member from its value, from its name
    and from its name written with hyphens; it reads an integer through
    its octal digits, so that [0o755] is the member of value [755]; an
    integer whose octal digits are no value, such as the decimal [755],
    ends in the [AttributeError] of [v.replace], which neither [except]
    catches; whatever it returns is a member. *)
Theorem chmod_folder_validate :
  Forall (fun m =>
            ChmodFolder.validate (VStr (snd m)) = Ok (VStr (snd m))
            /\ ChmodFolder.validate (VStr (fst m)) = Ok (VStr (snd m))
            /\ ChmodFolder.validate (VStr (PyStr.replace "_" "-" (fst m)))
               = Ok (VStr (snd m)))
         ChmodFolder.members
  /\ (forall z,
        ChmodFolder.validate (VInt z)
        = if chmod_value (ChmodFolder.oct_tail z)
          then Ok (VStr (ChmodFolder.oct_tail z))
          else Err (AttributeError "replace"))
  /\ ChmodFolder.validate (VInt 493) = Ok (VStr "755")
  /\ ChmodFolder.validate (VInt 755) = Err (AttributeError "replace")
  /\ (forall v m,
        ChmodFolder.validate v = Ok m ->
        exists s, m = VStr s /\ chmod_value s = true).
Proof.
  split; [|split; [|split; [|split]]].
  - repeat constructor.
  - intros z. unfold ChmodFolder.validate, ChmodFolder.of_value, chmod_value.
    destruct (existsb _ ChmodFolder.members); reflexivity.
  - reflexivity.
  - reflexivity.
  - intros v m H.
    assert (Hname : forall n x, ChmodFolder.of_name n = Ok x ->
                                exists s, x = VStr s /\ chmod_value s = true).
    { intros n x. unfold ChmodFolder.of_name.
      destruct (find _ ChmodFolder.members) as [[k s]|] eqn:F; [|discriminate].
      intros E. inversion E. exists s. split; [reflexivity|].
      apply find_some in F. destruct F as [Hin _].
      unfold chmod_value. apply existsb_exists. exists (k, s).
      split; [exact Hin | apply String.eqb_refl]. }
    unfold ChmodFolder.validate, ChmodFolder.of_value in H.
    destruct v as [| b | z | s | s | s | l | l | d];
      try (cbn in H; discriminate).
    + fold (chmod_value (ChmodFolder.oct_tail (if b then 1 else 0)%Z)) in H.
      destruct (chmod_value _) eqn:E; [|cbn in H; discriminate].
      inversion H. eauto.
    + fold (chmod_value (ChmodFolder.oct_tail z)) in H.
      destruct (chmod_value _) eqn:E; [|cbn in H; discriminate].
      inversion H. eauto.
    + fold (chmod_value s) in H.
      destruct (chmod_value s) eqn:E; [inversion H; eauto|].
      cbn [ChmodFolder.replace rbind] in H.
      destruct (ChmodFolder.of_name (PyStr.replace "-" "_" s)) as [x|[]] eqn:N;
        try discriminate.
      inversion H; subst. eapply Hname; eassumption.
Qed.
